(** * Player-data cleaning and merging: a shallow embedding of
    [semis_pipeline/processing/cleaning.py], with the asset of
    [semis_pipeline/pipeline.py] that runs it

    Python text is modelled as a list of code points below 256 (Rocq's
    [ascii]); the character classes used by [str] methods and by the [re]
    module are those of Python's Unicode tables restricted to that range.
    Regular expressions are values of a small syntax tree interpreted by a
    backtracking matcher with Python's ordered-choice, greedy semantics.
    A data frame is an ordered dictionary of columns, a row an ordered
    dictionary of cells; a cell is missing, a text or an integer.
    Floating-point values are the kernel's binary64 numbers, and counts
    are converted to them exactly as long as they stay below 2^53.
    Functions that can raise [KeyError] return a [result]; messages
    printed on the way are left out. *)

From Stdlib Require Import Ascii String.
From Stdlib Require Import List Bool Arith NArith ZArith Lia.
From Stdlib Require Import DecimalString.
From Stdlib Require Import Floats.
Import ListNotations.

Set Implicit Arguments.

(** ** Text *)

Definition str := list ascii.

Definition txt (s : string) : str := list_ascii_of_string s.

Definition chr (n : nat) : ascii := ascii_of_nat n.

Definition code (c : ascii) : N := N_of_ascii c.

Definition between (lo hi : N) (c : ascii) : bool :=
  (N.leb lo (code c) && N.leb (code c) hi)%N.

(** [str.isspace] on one character, which is also the class [\s]. *)
Definition is_space (c : ascii) : bool :=
  between 9 13 c || between 28 32 c || between 133 133 c || between 160 160 c.

(** The class [\d]: decimal digits. *)
Definition is_digit (c : ascii) : bool := between 48 57 c.

Definition is_upper (c : ascii) : bool :=
  between 65 90 c || between 192 214 c || between 216 222 c.

Definition is_lower (c : ascii) : bool :=
  between 97 122 c || between 170 170 c || between 181 181 c
  || between 186 186 c || between 223 246 c || between 248 255 c.

(** The class [\w]: alphanumeric characters and the underscore. *)
Definition is_word (c : ascii) : bool :=
  between 48 57 c || between 65 90 c || between 95 95 c || between 97 122 c
  || between 170 170 c || between 178 179 c || between 181 181 c
  || between 185 186 c || between 188 190 c || between 192 214 c
  || between 216 246 c || between 248 255 c.

Definition lower_char (c : ascii) : ascii :=
  if is_upper c then ascii_of_N (code c + 32) else c.

(** Title-casing of the first character of a word.  The sharp s becomes
    "Ss"; the micro sign and y-diaeresis, whose title forms lie above code
    point 255, are kept as they are. *)
Definition title_char (c : ascii) : str :=
  if between 97 122 c || between 224 246 c || between 248 254 c
  then [ascii_of_N (code c - 32)]
  else if between 223 223 c then txt "Ss"
  else [c].

Definition lower (s : str) : str := map lower_char s.

Definition capitalize (s : str) : str :=
  match s with
  | [] => []
  | c :: t => title_char c ++ lower t
  end.

Definition isupper (s : str) : bool :=
  negb (existsb is_lower s) && existsb is_upper s.

Fixpoint lstrip (s : str) : str :=
  match s with
  | c :: t => if is_space c then lstrip t else s
  | [] => []
  end.

Definition rstrip (s : str) : str := rev (lstrip (rev s)).

Definition strip (s : str) : str := rstrip (lstrip s).

(** [s.split()]: the maximal runs of non-blank characters.  [cur] holds the
    word being read, reversed. *)
Fixpoint split_from (cur : str) (s : str) : list str :=
  match s with
  | [] => match cur with [] => [] | _ => [rev cur] end
  | c :: t =>
      if is_space c
      then match cur with
           | [] => split_from [] t
           | _ => rev cur :: split_from [] t
           end
      else split_from (c :: cur) t
  end.

Definition split (s : str) : list str := split_from [] s.

Fixpoint join (sep : str) (ws : list str) : str :=
  match ws with
  | [] => []
  | [w] => w
  | w :: rest => w ++ sep ++ join sep rest
  end.

Definition str_eqb (a b : str) : bool :=
  if list_eq_dec ascii_dec a b then true else false.

Fixpoint starts_with (p s : str) : bool :=
  match p, s with
  | [], _ => true
  | a :: p', b :: s' => Ascii.eqb a b && starts_with p' s'
  | _ :: _, [] => false
  end.

(** [s.replace(old, new)] for a non-empty [old]: occurrences are replaced
    from left to right without overlap.  [skip] counts the characters of an
    occurrence that remain to be passed over. *)
Fixpoint replace_from (old new : str) (skip : nat) (s : str) : str :=
  match s with
  | [] => []
  | c :: t =>
      match skip with
      | S n => replace_from old new n t
      | O => if starts_with old s
             then new ++ replace_from old new (length old - 1) t
             else c :: replace_from old new 0 t
      end
  end.

Definition replace (old new s : str) : str :=
  match old with
  | [] => new ++ flat_map (fun c => c :: new) s
  | _ => replace_from old new 0 s
  end.

(** [s.zfill(width)]; a leading sign stays in front of the padding. *)
Definition zfill (width : nat) (s : str) : str :=
  let pad := repeat "0"%char (width - length s) in
  match s with
  | c :: t => if Ascii.eqb c "+" || Ascii.eqb c "-" then c :: pad ++ t
              else pad ++ s
  | [] => pad
  end.

(** ** Regular expressions *)

Module Re.

(** The patterns of the module: the empty pattern; one character of a
    class (a literal, a bracket class, [\w], [\s], [\d]); [ab]; [a|b],
    tried in this order; the greedy [x*] of a one-character item; the greedy
    [a?]; the capturing group number [i]; the word boundary [\b]; and [^]. *)
Inductive re : Type :=
| Eps
| Chr (p : ascii -> bool)
| Cat (a b : re)
| Alt (a b : re)
| Star (p : ascii -> bool)
| Opt (a : re)
| Grp (i : nat) (a : re)
| Bnd
| Bol.

(** The text captured by each group that took part in a match. *)
Definition groups := list (nat * str).

Definition cont (A : Type) := option ascii -> str -> groups -> option A.

Definition wordb (c : option ascii) : bool :=
  match c with Some x => is_word x | None => false end.

(** Greedy repetition of a one-character item: take as many as possible,
    give them back one at a time when the continuation fails. *)
Fixpoint star (A : Type) (p : ascii -> bool) (k : cont A)
    (prev : option ascii) (s : str) (g : groups) : option A :=
  match s with
  | c :: t =>
      if p c
      then match star p k (Some c) t g with
           | Some r => Some r
           | None => k prev s g
           end
      else k prev s g
  | [] => k prev s g
  end.

(** The matcher, in continuation-passing style: [prev] is the character
    before the cursor ([None] at the start of the text), [s] the text from
    the cursor on, [g] the groups closed so far. *)
Fixpoint run (A : Type) (r : re) (k : cont A)
    (prev : option ascii) (s : str) (g : groups) : option A :=
  match r with
  | Eps => k prev s g
  | Chr p =>
      match s with
      | c :: t => if p c then k (Some c) t g else None
      | [] => None
      end
  | Cat a b => run a (run b k) prev s g
  | Alt a b =>
      match run a k prev s g with
      | Some x => Some x
      | None => run b k prev s g
      end
  | Star p => star p k prev s g
  | Opt a =>
      match run a k prev s g with
      | Some x => Some x
      | None => k prev s g
      end
  | Grp i a =>
      run a (fun prev' s' g' =>
               k prev' s' ((i, firstn (length s - length s') s) :: g'))
          prev s g
  | Bnd => if xorb (wordb prev) (wordb (hd_error s)) then k prev s g else None
  | Bol => match prev with None => k prev s g | Some _ => None end
  end.

(** A match at the cursor: the text left after it and its groups. *)
Definition match_at (r : re) (prev : option ascii) (s : str)
  : option (str * groups) :=
  run r (fun _ s' g => Some (s', g)) prev s [].

Definition group (i : nat) (g : groups) : str :=
  match find (fun p => Nat.eqb (fst p) i) g with
  | Some p => snd p
  | None => []
  end.

(** [pattern.match(s)]: a match at the start of the text. *)
Definition match_ (r : re) (s : str) : option groups :=
  option_map snd (match_at r None s).

Fixpoint search_from (r : re) (prev : option ascii) (s : str)
  : option groups :=
  match match_at r prev s with
  | Some m => Some (snd m)
  | None =>
      match s with
      | [] => None
      | c :: t => search_from r (Some c) t
      end
  end.

(** [pattern.search(s)]: the leftmost match. *)
Definition search (r : re) (s : str) : option groups := search_from r None s.

(** [pattern.sub(repl, s)] for a replacement without group references:
    matches are looked for from left to right, the characters of a match
    are passed over ([skip] counts those left), and an empty match is
    replaced as well before the scan moves on by one character. *)
Fixpoint sub_from (r : re) (repl : str) (skip : nat)
    (prev : option ascii) (s : str) : str :=
  match s with
  | [] =>
      match skip, match_at r prev [] with
      | O, Some _ => repl
      | _, _ => []
      end
  | c :: t =>
      match skip with
      | S n => sub_from r repl n (Some c) t
      | O =>
          match match_at r prev s with
          | Some (s', _) =>
              match length s - length s' with
              | S n => repl ++ sub_from r repl n (Some c) t
              | O => repl ++ c :: sub_from r repl 0 (Some c) t
              end
          | None => c :: sub_from r repl 0 (Some c) t
          end
      end
  end.

Definition sub (r : re) (repl : str) (s : str) : str :=
  sub_from r repl 0 None s.

(** Derived forms. *)
Definition Plus (p : ascii -> bool) : re := Cat (Chr p) (Star p).

Fixpoint chain (rs : list re) : re :=
  match rs with
  | [] => Eps
  | [r] => r
  | r :: rest => Cat r (chain rest)
  end.

Fixpoint alts (rs : list re) : re :=
  match rs with
  | [] => Chr (fun _ => false)
  | [r] => r
  | r :: rest => Alt r (alts rest)
  end.

Definition is_char (c x : ascii) : bool := Ascii.eqb x c.

(** A literal character under [re.IGNORECASE]. *)
Definition is_char_i (c x : ascii) : bool :=
  Ascii.eqb (lower_char x) (lower_char c).

Definition lit (s : string) : re :=
  chain (map (fun c => Chr (is_char c)) (txt s)).

Definition lit_i (s : string) : re :=
  chain (map (fun c => Chr (is_char_i c)) (txt s)).

Fixpoint times (n : nat) (r : re) : re :=
  match n with
  | O => Eps
  | 1 => r
  | S m => Cat r (times m r)
  end.

End Re.

Import Re.

(** ** Compiled patterns and tables *)

(** [\b(jr|sr|ii|iii|iv|v)\.?\b], ignoring case *)
Definition RE_SUFFIXES : re :=
  chain [Bnd;
         Grp 1 (alts [lit_i "jr"; lit_i "sr"; lit_i "ii"; lit_i "iii";
                      lit_i "iv"; lit_i "v"]);
         Opt (Chr (is_char "."));
         Bnd].

Definition is_punctuation (c : ascii) : bool :=
  negb (is_word c || is_space c || Ascii.eqb c "'").

(** [[^\w\s']] *)
Definition RE_PUNCTUATION : re := Chr is_punctuation.

(** [\s+] *)
Definition RE_MULTIPLE_SPACES : re := Plus is_space.

(** The two mis-encoded characters of [RE_BORN_PREFIX], code points 194 and
    192, matched without regard to case. *)
Definition is_nbsp_artifact (c : ascii) : bool :=
  is_char_i (chr 194) c || is_char_i (chr 192) c.

(** At the start of the text: "in" in any case, any blanks, then
    optionally one of the two characters and any blanks, in a group *)
Definition RE_BORN_PREFIX : re :=
  chain [Bol; lit_i "in"; Star is_space;
         Opt (Grp 1 (Cat (Chr is_nbsp_artifact) (Star is_space)))].

(** [,\s*] *)
Definition RE_COMMA_SPACE : re := Cat (Chr (is_char ",")) (Star is_space).

(** [(\w+)\s+(\d{1,2}),?\s*(\d{4})], ignoring case *)
Definition RE_MONTH_DAY_YEAR : re :=
  chain [Grp 1 (Plus is_word); Plus is_space;
         Grp 2 (Cat (Chr is_digit) (Opt (Chr is_digit)));
         Opt (Chr (is_char ",")); Star is_space;
         Grp 3 (times 4 (Chr is_digit))].

(** [\d{4}-\d{2}-\d{2}] *)
Definition RE_YYYY_MM_DD : re :=
  chain [times 4 (Chr is_digit); Chr (is_char "-"); times 2 (Chr is_digit);
         Chr (is_char "-"); times 2 (Chr is_digit)].

(** [(\d{1,2})/(\d{1,2})/(\d{4})] *)
Definition RE_MM_DD_YYYY : re :=
  chain [Grp 1 (Cat (Chr is_digit) (Opt (Chr is_digit))); Chr (is_char "/");
         Grp 2 (Cat (Chr is_digit) (Opt (Chr is_digit))); Chr (is_char "/");
         Grp 3 (times 4 (Chr is_digit))].

(** [\b(month|months|mo|mos|m)\b], ignoring case *)
Definition RE_HEIGHT_MONTH_WORDS : re :=
  chain [Bnd;
         Grp 1 (alts [lit_i "month"; lit_i "months"; lit_i "mo"; lit_i "mos";
                      lit_i "m"]);
         Bnd].

(** [\b(jan|feb|mar|apr|may|jun|jul|aug|sep|oct|nov|dec)\b], ignoring
    case *)
Definition RE_HEIGHT_MONTH_ABBRS : re :=
  chain [Bnd;
         Grp 1 (alts [lit_i "jan"; lit_i "feb"; lit_i "mar"; lit_i "apr";
                      lit_i "may"; lit_i "jun"; lit_i "jul"; lit_i "aug";
                      lit_i "sep"; lit_i "oct"; lit_i "nov"; lit_i "dec"]);
         Bnd].

Definition is_quote_or_space (c : ascii) : bool :=
  Ascii.eqb c "'" || is_space c.

Definition is_dash_or_space (c : ascii) : bool :=
  Ascii.eqb c "-" || is_space c.

(** [(\d+)['\s]*[-\s]*(\d+)] *)
Definition RE_HEIGHT_FT_IN : re :=
  chain [Grp 1 (Plus is_digit); Star is_quote_or_space; Star is_dash_or_space;
         Grp 2 (Plus is_digit)].

(** [(\d+)['\s]*(?:ft|feet)?] *)
Definition RE_HEIGHT_FT_ONLY : re :=
  chain [Grp 1 (Plus is_digit); Star is_quote_or_space;
         Opt (Alt (lit "ft") (lit "feet"))].

Definition NAME_REPLACEMENTS : list (str * str) :=
  [(txt "shaquille oneal", txt "shaquille o'neal")].

Definition MONTH_TO_NUM_MAP : list (string * string) :=
  [("january", "01"); ("february", "02"); ("march", "03"); ("april", "04");
   ("may", "05"); ("june", "06"); ("july", "07"); ("august", "08");
   ("september", "09"); ("october", "10"); ("november", "11");
   ("december", "12"); ("jan", "01"); ("feb", "02"); ("mar", "03");
   ("apr", "04"); ("jun", "06"); ("jul", "07"); ("aug", "08"); ("sep", "09");
   ("oct", "10"); ("nov", "11"); ("dec", "12")]%string.

Definition EXCEL_DATE_TO_HEIGHT_CONVERSIONS : list (string * string) :=
  [("jan", "1"); ("feb", "2"); ("mar", "3"); ("apr", "4"); ("may", "5");
   ("jun", "6"); ("jul", "7"); ("aug", "8"); ("sep", "9"); ("oct", "10");
   ("nov", "11"); ("dec", "12")]%string.

(** [table.get(k)] on a table of texts. *)
Definition table_get (k : str) (table : list (string * string))
  : option str :=
  option_map (fun p => txt (snd p))
             (find (fun p => str_eqb (txt (fst p)) k) table).

(** ** Cell values

    A cell read from a CSV file is missing ([nan]), a text or an integer. *)

Inductive cell : Type :=
| NA
| Str (s : str)
| Int (z : Z).

Definition isna (c : cell) : bool :=
  match c with NA => true | _ => false end.

(** [str(x)] *)
Definition str_of (c : cell) : str :=
  match c with
  | NA => txt "nan"
  | Str s => s
  | Int z => txt (NilZero.string_of_int (Z.to_int z))
  end.

(** Truth value of a cell in a condition. *)
Definition truthy (c : cell) : bool :=
  match c with
  | NA => true
  | Str [] => false
  | Str _ => true
  | Int z => negb (Z.eqb z 0)
  end.

Definition cell_eq_dec (a b : cell) : {a = b} + {a <> b}.
Proof.
  decide equality.
  - apply (list_eq_dec ascii_dec).
  - apply Z.eq_dec.
Defined.

Definition cell_eqb (a b : cell) : bool :=
  if cell_eq_dec a b then true else false.

(** ** Name normalisation *)

Definition normalize_name (name : cell) : str :=
  if isna name then []
  else
    let name_str := strip (str_of name) in
    let name_str :=
      if isupper name_str
      then join (txt " ") (map capitalize (split name_str))
      else name_str in
    let name_str := lower name_str in
    let name_str := sub RE_SUFFIXES [] name_str in
    let name_str :=
      fold_left (fun s p => replace (fst p) (snd p) s)
                NAME_REPLACEMENTS name_str in
    let name_str := sub RE_PUNCTUATION [] name_str in
    let name_str := strip (sub RE_MULTIPLE_SPACES (txt " ") name_str) in
    name_str.

(** ** Field formatters *)

Definition format_born_location (location : cell) : str :=
  if isna location then []
  else
    let location_str := strip (str_of location) in
    let location_str := sub RE_BORN_PREFIX [] location_str in
    let location_str := sub RE_MULTIPLE_SPACES (txt " ") location_str in
    let location_str := sub RE_COMMA_SPACE (txt ", ") location_str in
    strip location_str.

(** What [standardize_date_format] does once the "Month Day, Year" branch
    has not returned. *)
Definition date_other_formats (date_str : str) : str :=
  match match_ RE_YYYY_MM_DD date_str with
  | Some _ => date_str
  | None =>
      match match_ RE_MM_DD_YYYY date_str with
      | Some g =>
          let month := group 1 g in
          let day := group 2 g in
          let year := group 3 g in
          year ++ txt "-" ++ zfill 2 month ++ txt "-" ++ zfill 2 day
      | None => date_str
      end
  end.

Definition standardize_date_format (date : cell) : str :=
  if isna date then []
  else
    let date_str := strip (str_of date) in
    match match_ RE_MONTH_DAY_YEAR date_str with
    | Some g =>
        let month_name := group 1 g in
        let day := group 2 g in
        let year := group 3 g in
        match table_get (lower month_name) MONTH_TO_NUM_MAP with
        | Some ((_ :: _) as month_num) =>
            year ++ txt "-" ++ month_num ++ txt "-" ++ zfill 2 day
        | _ => date_other_formats date_str
        end
    | None => date_other_formats date_str
    end.

(** One round of the repair loop: "-Jun" becomes "-6", then "Jul-"
    becomes "7-". *)
Definition height_fix_month (height_str : str) (entry : string * string)
  : str :=
  let month_abbr := fst entry in
  let month_num := snd entry in
  let height_str :=
    sub (lit_i ("-" ++ month_abbr)) (txt ("-" ++ month_num)) height_str in
  sub (lit_i (month_abbr ++ "-")) (txt (month_num ++ "-")) height_str.

(** The text [standardize_height_imperial] searches for a height: the
    stripped input after the month repairs and the removal of month words. *)
Definition height_cleaned (height : cell) : str :=
  let height_str := strip (str_of height) in
  let height_str :=
    fold_left height_fix_month EXCEL_DATE_TO_HEIGHT_CONVERSIONS height_str in
  let height_str := sub RE_HEIGHT_MONTH_WORDS [] height_str in
  sub RE_HEIGHT_MONTH_ABBRS [] height_str.

Definition standardize_height_imperial (height : cell) : str :=
  if isna height then []
  else
    let height_str := height_cleaned height in
    match search RE_HEIGHT_FT_IN height_str with
    | Some g =>
        let feet := group 1 g in
        let inches := group 2 g in
        feet ++ txt "-" ++ inches
    | None =>
        match search RE_HEIGHT_FT_ONLY height_str with
        | Some g =>
            let feet := group 1 g in
            feet ++ txt "-0"
        | None =>
            let height_str := sub RE_MULTIPLE_SPACES [] height_str in
            strip height_str
        end
    end.

(** ** Dictionaries

    A Python [dict] keeps its keys in insertion order: it is modelled as an
    association list in which each key occurs once. *)

Section Dict.

Variables (K V : Type) (keqb : K -> K -> bool).

Definition dict := list (K * V).

Definition dict_get (k : K) (d : dict) : option V :=
  option_map snd (find (fun p => keqb (fst p) k) d).

Definition dict_mem (k : K) (d : dict) : bool :=
  existsb (fun p => keqb (fst p) k) d.

(** [d[k] = v]: an existing key keeps its place, a new one goes last. *)
Fixpoint dict_set (k : K) (v : V) (d : dict) : dict :=
  match d with
  | [] => [(k, v)]
  | p :: t => if keqb (fst p) k then (fst p, v) :: t
              else p :: dict_set k v t
  end.

(** [del d[k]] *)
Definition dict_del (k : K) (d : dict) : dict :=
  filter (fun p => negb (keqb (fst p) k)) d.

(** [if key not in acc: acc[key] = value] for an entry [(key, value)]. *)
Definition add_missing (acc : dict) (p : K * V) : dict :=
  if dict_mem (fst p) acc then acc else dict_set (fst p) (snd p) acc.

End Dict.

(** ** Exceptions *)

Inductive exn : Type :=
| KeyError (key : str).

Inductive result (A : Type) : Type :=
| Returned (a : A)
| Raised (e : exn).

Arguments Returned {A} a.
Arguments Raised {A} e.

Definition bind (A B : Type) (m : result A) (f : A -> result B) : result B :=
  match m with
  | Returned a => f a
  | Raised e => Raised e
  end.

Notation "x <- m ;; k" := (bind m (fun x => k))
  (at level 61, m at next level, right associativity).

(** [d[key]] on a dictionary or a row. *)
Definition getitem (V : Type) (key : string) (d : dict str V) : result V :=
  match dict_get str_eqb (txt key) d with
  | Some v => Returned v
  | None => Raised (KeyError (txt key))
  end.

(** ** Data frames

    A frame has a number of rows and named columns; a column that is
    shorter than the frame reads as missing values below its end. *)

Record DataFrame : Type := {
  df_len : nat;
  df_columns : dict str (list cell)
}.

Definition row := dict str cell.

Definition series_of (n : nat) (values : list cell) : list cell :=
  map (fun i => nth i values NA) (seq 0 n).

(** [df[col]] *)
Definition df_getitem (col : string) (df : DataFrame) : result (list cell) :=
  v <- getitem col (df_columns df) ;; Returned (series_of (df_len df) v).

(** [df[col] = values] *)
Definition df_setitem (col : string) (values : list cell) (df : DataFrame)
  : DataFrame :=
  {| df_len := df_len df;
     df_columns := dict_set str_eqb (txt col) values (df_columns df) |}.

(** [series.apply(f)] for a function that returns text. *)
Definition series_apply (f : cell -> str) (values : list cell) : list cell :=
  map (fun c => Str (f c)) values.

(** [df[col] = df[col].apply(f)] *)
Definition df_apply (col : string) (f : cell -> str) (df : DataFrame)
  : result DataFrame :=
  v <- df_getitem col df ;;
  Returned (df_setitem col (series_apply f v) df).

(** [df.drop(columns=cols, errors="ignore")] *)
Definition df_drop (cols : list string) (df : DataFrame) : DataFrame :=
  {| df_len := df_len df;
     df_columns :=
       filter (fun p => negb (existsb (fun c => str_eqb (txt c) (fst p)) cols))
              (df_columns df) |}.

Definition df_row (df : DataFrame) (i : nat) : row :=
  map (fun p => (fst p, nth i (snd p) NA)) (df_columns df).

(** The rows of [df.iterrows()], in order. *)
Definition iterrows (df : DataFrame) : list row :=
  map (df_row df) (seq 0 (df_len df)).

Definition dropna (values : list cell) : list cell :=
  filter (fun c => negb (isna c)) values.

(** [series.unique()]: the values in order of first appearance. *)
Fixpoint unique_from (seen : list cell) (values : list cell) : list cell :=
  match values with
  | [] => []
  | c :: t =>
      if existsb (cell_eqb c) seen then unique_from seen t
      else c :: unique_from (c :: seen) t
  end.

Definition unique (values : list cell) : list cell := unique_from [] values.

(** ** Fuzzy matching *)

(** A count as a binary64 number. *)
Definition float_of_nat (n : nat) : float :=
  PrimFloat.of_uint63 (Uint63.of_Z (Z.of_nat n)).

(** [set(words)]: membership is all that is asked of it. *)
Definition set_of (words : list str) : list str :=
  nodup (list_eq_dec ascii_dec) words.

Definition set_mem (w : str) (s : list str) : bool := existsb (str_eqb w) s.

Definition count_matches (espn_parts br_parts_set : list str) : nat :=
  length (filter (fun part => set_mem part br_parts_set) espn_parts).

(** The candidate loop of [fuzzy_name_match], started with the best match
    and the highest score found so far. *)
Fixpoint fuzzy_scan (espn_parts : list str) (min_match_score : float)
    (candidates : list (cell * list str))
    (best_match_name : option cell) (highest_score : float) : option cell :=
  match candidates with
  | [] => best_match_name
  | (original_br_name, br_parts_set) :: rest =>
      match br_parts_set with
      | [] => fuzzy_scan espn_parts min_match_score rest
                         best_match_name highest_score
      | _ :: _ =>
          let matches := count_matches espn_parts br_parts_set in
          if (min_match_score <=? float_of_nat matches)%float
          then
            let current_score :=
              (float_of_nat matches / float_of_nat (length espn_parts))%float in
            if (highest_score <? current_score)%float
            then
              if (current_score =? 1.0)%float
              then Some original_br_name
              else fuzzy_scan espn_parts min_match_score rest
                              (Some original_br_name) current_score
            else fuzzy_scan espn_parts min_match_score rest
                            best_match_name highest_score
          else fuzzy_scan espn_parts min_match_score rest
                          best_match_name highest_score
      end
  end.

Definition fuzzy_name_match (espn_name : cell)
    (br_names_normalized_parts_list : list (cell * list str))
    (threshold : float) : option cell :=
  let espn_normalized := normalize_name espn_name in
  match espn_normalized with
  | [] => None
  | _ :: _ =>
      let espn_parts := split espn_normalized in
      match espn_parts with
      | [] => None
      | _ :: _ =>
          let min_match_score :=
            (float_of_nat (length espn_parts) * threshold)%float in
          fuzzy_scan espn_parts min_match_score
                     br_names_normalized_parts_list None (-1)%float
      end
  end.

(** The default [threshold=0.8]: the binary64 number nearest to 0.8. *)
#[warnings="-inexact-float"]
Definition default_threshold : float := 0.8%float.

(** ** Merging *)

Definition _create_ordered_merged_player_entry
    (br_player_info : row) (espn_row_data : row) : result row :=
  let player_data := br_player_info in
  let player_data :=
    if dict_mem str_eqb (txt "Normalized_Name") player_data
    then dict_del str_eqb (txt "Normalized_Name") player_data
    else player_data in
  rk <- getitem "RK" espn_row_data ;;
  let player_data := dict_set str_eqb (txt "ESPN_Rank") rk player_data in
  pts <- getitem "PTS" espn_row_data ;;
  let player_data := dict_set str_eqb (txt "ESPN_Points") pts player_data in
  let ordered_entry : row := [] in
  espn_rank <- getitem "ESPN_Rank" player_data ;;
  let ordered_entry :=
    dict_set str_eqb (txt "ESPN_Rank") espn_rank ordered_entry in
  name <- getitem "Name" player_data ;;
  let ordered_entry := dict_set str_eqb (txt "Name") name ordered_entry in
  espn_points <- getitem "ESPN_Points" player_data ;;
  let ordered_entry :=
    dict_set str_eqb (txt "ESPN_Points") espn_points ordered_entry in
  Returned (fold_left (add_missing str_eqb) player_data ordered_entry).

Definition columns_to_remove_br : list string :=
  ["Pronunciation"; "High School"; "College"; "Draft"; "URL"]%string.

(** The index from normalized name to the first row that carries it. *)
Fixpoint build_br_lookup (rows : list row) (br_lookup : dict cell row)
  : result (dict cell row) :=
  match rows with
  | [] => Returned br_lookup
  | r :: rest =>
      normalized <- getitem "Normalized_Name" r ;;
      if truthy normalized && negb (dict_mem cell_eqb normalized br_lookup)
      then build_br_lookup rest (dict_set cell_eqb normalized r br_lookup)
      else build_br_lookup rest br_lookup
  end.

(** The candidates of the fuzzy matcher: each name with the set of the
    words of its normalized form. *)
Fixpoint prep_fuzzy (unique_br_names : list cell) : list (cell * list str) :=
  match unique_br_names with
  | [] => []
  | name :: rest =>
      let normalized_name_str := normalize_name name in
      match normalized_name_str with
      | [] => prep_fuzzy rest
      | _ :: _ => (name, set_of (split normalized_name_str)) :: prep_fuzzy rest
      end
  end.

Record merge_state : Type := {
  merged_data : list row;
  unmatched_players : list row;
  exact_matches : nat;
  fuzzy_matches : nat
}.

(** One turn of the loop over the ESPN rows. *)
Definition merge_step (br_lookup : dict cell row)
    (br_names_for_fuzzy_prepped : list (cell * list str))
    (st : merge_state) (espn_row : row) : result merge_state :=
  espn_normalized <- getitem "Normalized_ESPN_Name" espn_row ;;
  found <-
    (if truthy espn_normalized && dict_mem cell_eqb espn_normalized br_lookup
     then Returned (dict_get cell_eqb espn_normalized br_lookup, 1, 0)
     else
       player <- getitem "Player" espn_row ;;
       match fuzzy_name_match player br_names_for_fuzzy_prepped
                              default_threshold with
       | Some fuzzy_match_original_br_name =>
           if truthy fuzzy_match_original_br_name
           then
             let normalized_fuzzy_br_name :=
               Str (normalize_name fuzzy_match_original_br_name) in
             if dict_mem cell_eqb normalized_fuzzy_br_name br_lookup
             then Returned
                    (dict_get cell_eqb normalized_fuzzy_br_name br_lookup,
                     0, 1)
             else Returned (None, 0, 0)
           else Returned (None, 0, 0)
       | None => Returned (None, 0, 0)
       end) ;;
  let '(br_player_info, exact, fuzzy) := found in
  match br_player_info with
  | Some ((_ :: _) as info) =>
      ordered_entry <- _create_ordered_merged_player_entry info espn_row ;;
      Returned {| merged_data := merged_data st ++ [ordered_entry];
                  unmatched_players := unmatched_players st;
                  exact_matches := exact_matches st + exact;
                  fuzzy_matches := fuzzy_matches st + fuzzy |}
  | _ =>
      player <- getitem "Player" espn_row ;;
      rk <- getitem "RK" espn_row ;;
      pts <- getitem "PTS" espn_row ;;
      Returned {| merged_data := merged_data st;
                  unmatched_players :=
                    unmatched_players st ++
                    [[(txt "ESPN_Player", player); (txt "ESPN_Rank", rk);
                      (txt "ESPN_Points", pts);
                      (txt "Normalized_Name", espn_normalized)]];
                  exact_matches := exact_matches st + exact;
                  fuzzy_matches := fuzzy_matches st + fuzzy |}
  end.

Fixpoint merge_loop (br_lookup : dict cell row)
    (br_names_for_fuzzy_prepped : list (cell * list str))
    (espn_rows : list row) (st : merge_state) : result merge_state :=
  match espn_rows with
  | [] => Returned st
  | espn_row :: rest =>
      st' <- merge_step br_lookup br_names_for_fuzzy_prepped st espn_row ;;
      merge_loop br_lookup br_names_for_fuzzy_prepped rest st'
  end.

Inductive stat : Type :=
| Count (n : nat)
| Percent (p : float).

(** [(matched / total) * 100], or [0.0] for an empty ESPN frame. *)
Definition match_percentage (matched total : nat) : float :=
  if 0 <? total
  then (float_of_nat matched / float_of_nat total * 100)%float
  else 0%float.

Definition make_stats (total_espn total_br : nat) (st : merge_state)
  : dict str stat :=
  [(txt "total_espn_players", Count total_espn);
   (txt "total_br_players", Count total_br);
   (txt "exact_matches", Count (exact_matches st));
   (txt "fuzzy_matches", Count (fuzzy_matches st));
   (txt "total_matches", Count (length (merged_data st)));
   (txt "unmatched", Count (length (unmatched_players st)));
   (txt "match_percentage",
    Percent (match_percentage (length (merged_data st)) total_espn))].

(** The body of [clean_and_merge_player_data] once both frames are
    loaded. *)
Definition merge_frames (br_df espn_df : DataFrame)
  : result (list row * list row * dict str stat) :=
  br_df <- df_apply "Born_Location" format_born_location br_df ;;
  br_df <- df_apply "Born_Date" standardize_date_format br_df ;;
  br_df <- df_apply "NBA_Debut" standardize_date_format br_df ;;
  br_df <- df_apply "Height_Imperial" standardize_height_imperial br_df ;;
  let br_df := df_drop columns_to_remove_br br_df in
  names <- df_getitem "Name" br_df ;;
  let br_df :=
    df_setitem "Normalized_Name" (series_apply normalize_name names) br_df in
  br_lookup <- build_br_lookup (iterrows br_df) [] ;;
  names <- df_getitem "Name" br_df ;;
  let unique_br_names := unique (dropna names) in
  let br_names_for_fuzzy_prepped := prep_fuzzy unique_br_names in
  players <- df_getitem "Player" espn_df ;;
  let espn_df :=
    df_setitem "Normalized_ESPN_Name" (series_apply normalize_name players)
               espn_df in
  st <- merge_loop br_lookup br_names_for_fuzzy_prepped (iterrows espn_df)
                   {| merged_data := []; unmatched_players := [];
                      exact_matches := 0; fuzzy_matches := 0 |} ;;
  let stats := make_stats (df_len espn_df) (df_len br_df) st in
  Returned (merged_data st, unmatched_players st, stats).

(** [read_csv] stands for [pd.read_csv] inside the [try] block: [None] when
    it raises. *)
Definition clean_and_merge_player_data
    (read_csv : str -> option DataFrame) (br_csv_path espn_csv_path : str)
  : result (list row * list row * dict str stat) :=
  match read_csv br_csv_path with
  | None => Returned ([], [], [])
  | Some br_df =>
      match read_csv espn_csv_path with
      | None => Returned ([], [], [])
      | Some espn_df => merge_frames br_df espn_df
      end
  end.

(** ** Saving and reporting

    What the functions of this part can raise besides the [KeyError] of a
    lookup: the [KeyError] of [df[labels]], with the labels that are not
    columns; the [ValueError] of a format specification that does not fit
    the value; [TypeError], [IndexError] and [OSError]; and
    [Exception(message)].  A computation gives an [outcome] and the files
    it has written, in order. *)

Inductive error : Type :=
| LookupError (e : exn)
| NotInIndex (labels : list str)
| ValueError
| TypeError
| IndexError
| OSError
| Failure (message : str).

Inductive outcome (A : Type) : Type :=
| Done (a : A)
| Failed (e : error).

Arguments Done {A} a.
Arguments Failed {A} e.

Definition and_then (A B : Type) (m : outcome A) (f : A -> outcome B)
  : outcome B :=
  match m with
  | Done a => f a
  | Failed e => Failed e
  end.

Notation "x <~ m ;; k" := (and_then m (fun x => k))
  (at level 61, m at next level, right associativity).

(** A lookup inside these functions. *)
Definition lookup (A : Type) (m : result A) : outcome A :=
  match m with
  | Returned a => Done a
  | Raised e => Failed (LookupError e)
  end.

Fixpoint for_each (A : Type) (f : A -> outcome unit) (l : list A)
  : outcome unit :=
  match l with
  | [] => Done tt
  | a :: rest => _u <~ f a ;; for_each f rest
  end.

Definition io (A : Type) : Type := (list (str * DataFrame) * outcome A)%type.

(** The columns of [pd.DataFrame(records)] once [record] is added: its new
    keys follow the columns found so far. *)
Definition add_columns (columns : list str) (record : row) : list str :=
  fold_left (fun cols p => if existsb (str_eqb (fst p)) cols then cols
                           else cols ++ [fst p])
            record columns.

(** [pd.DataFrame(records)]: a record without a key has a missing value in
    that column. *)
Definition DataFrame_of_records (records : list row) : DataFrame :=
  {| df_len := length records;
     df_columns :=
       map (fun col =>
              (col, map (fun record =>
                           match dict_get str_eqb col record with
                           | Some value => value
                           | None => NA
                           end) records))
           (fold_left add_columns records []) |}.

(** [df[labels]] for a list of labels *)
Definition df_select (labels : list str) (df : DataFrame)
  : outcome DataFrame :=
  match filter (fun label => negb (dict_mem str_eqb label (df_columns df)))
               labels with
  | [] =>
      Done {| df_len := df_len df;
              df_columns :=
                map (fun label =>
                       (label,
                        match dict_get str_eqb label (df_columns df) with
                        | Some values => values
                        | None => []
                        end)) labels |}
  | missing => Failed (NotInIndex missing)
  end.

Definition cols_ordered : list str :=
  [txt "ESPN_Rank"; txt "Name"; txt "ESPN_Points"].

(** [to_csv df path] stands for [df.to_csv(path, index=False)] inside the
    [try] block: [false] when it raises. *)
Definition save_merged_data (to_csv : DataFrame -> str -> bool)
    (merged_data_list : list row) (output_path : str) : io bool :=
  match merged_data_list with
  | [] => ([], Done false)
  | _ :: _ =>
      let df := DataFrame_of_records merged_data_list in
      let other_cols :=
        filter (fun col => negb (existsb (str_eqb col) cols_ordered))
               (map fst (df_columns df)) in
      let final_columns := cols_ordered ++ other_cols in
      match df_select final_columns df with
      | Failed e => ([], Failed e)
      | Done df =>
          if to_csv df output_path then ([(output_path, df)], Done true)
          else ([], Done false)
      end
  end.

(** [format(value, "2d")]: integers only. *)
Definition format_d (value : cell) : outcome unit :=
  match value with
  | Int _ => Done tt
  | _ => Failed ValueError
  end.

(** [format(value, ",")]: numbers only. *)
Definition format_thousands (value : cell) : outcome unit :=
  match value with
  | Str _ => Failed ValueError
  | _ => Done tt
  end.

Section Reporting.

(** [sorted_by key records] stands for
    [sorted(records, key=lambda x: x[key])]. *)
Variable sorted_by : string -> list row -> outcome (list row).

Definition print_merge_results (merged_data unmatched_players : list row)
    (stats : dict str stat) : outcome unit :=
  _total_espn_players <~ lookup (getitem "total_espn_players" stats) ;;
  _total_br_players <~ lookup (getitem "total_br_players" stats) ;;
  _exact_matches <~ lookup (getitem "exact_matches" stats) ;;
  _fuzzy_matches <~ lookup (getitem "fuzzy_matches" stats) ;;
  _total_matches <~ lookup (getitem "total_matches" stats) ;;
  _unmatched <~ lookup (getitem "unmatched" stats) ;;
  _match_percentage <~ lookup (getitem "match_percentage" stats) ;;
  _printed <~
    match merged_data with
    | [] => Done tt
    | _ :: _ =>
        players <~ sorted_by "ESPN_Rank" merged_data ;;
        for_each
          (fun player =>
             espn_rank <~ lookup (getitem "ESPN_Rank" player) ;;
             _rank <~ format_d espn_rank ;;
             espn_points <~ lookup (getitem "ESPN_Points" player) ;;
             format_thousands espn_points)
          players
    end ;;
  match unmatched_players with
  | [] => Done tt
  | _ :: _ =>
      players <~ sorted_by "ESPN_Rank" unmatched_players ;;
      for_each
        (fun player =>
           espn_rank <~ lookup (getitem "ESPN_Rank" player) ;;
           _rank <~ format_d espn_rank ;;
           _espn_player <~ lookup (getitem "ESPN_Player" player) ;;
           espn_points <~ lookup (getitem "ESPN_Points" player) ;;
           _points <~ format_thousands espn_points ;;
           _normalized <~ lookup (getitem "Normalized_Name" player) ;;
           Done tt)
        players
  end.

Variables (read_csv : str -> option DataFrame)
  (to_csv : DataFrame -> str -> bool).

Definition main : io (list row * list row * dict str stat) :=
  let br_csv_path :=
    txt "basketball_reference_players_max100_per_letter.csv" in
  let espn_csv_path := txt "espn_nba_leaders_pts.csv" in
  let output_path := txt "merged_players_data.csv" in
  match clean_and_merge_player_data read_csv br_csv_path espn_csv_path with
  | Raised e => ([], Failed (LookupError e))
  | Returned (merged_data, unmatched_players, stats) =>
      match print_merge_results merged_data unmatched_players stats with
      | Failed e => ([], Failed e)
      | Done _ =>
          match merged_data with
          | [] => ([], Done (merged_data, unmatched_players, stats))
          | _ :: _ =>
              let (written, save_successful) :=
                save_merged_data to_csv merged_data output_path in
              match save_successful with
              | Failed e => (written, Failed e)
              | Done false =>
                  (written, Done (merged_data, unmatched_players, stats))
              | Done true =>
                  match sorted_by "ESPN_Rank" merged_data with
                  | Failed e => (written, Failed e)
                  | Done [] => (written, Failed IndexError)
                  | Done (sample_player :: _) =>
                      (written, Done (merged_data, unmatched_players, stats))
                  end
              end
          end
      end
  end.

End Reporting.

(** ** The pipeline asset *)

Record DataPipelineConfig : Type := {
  max_players_per_letter : Z;
  espn_url : str;
  output_dir : str;
  br_output_filename : str;
  espn_output_filename : str;
  merged_output_filename : str
}.

Definition default_config : DataPipelineConfig :=
  {| max_players_per_letter := 100;
     espn_url := txt "https://www.espn.com/nba/history/leaders";
     output_dir := txt "data_outputs";
     br_output_filename := txt "basketball_reference_players.csv";
     espn_output_filename := txt "espn_nba_leaders_pts.csv";
     merged_output_filename := txt "merged_players_data.csv" |}.

(** [os.path.join(a, b)] with the separator "/" *)
Definition os_path_join (a b : str) : str :=
  if starts_with (txt "/") b then b
  else match a with
       | [] => b
       | _ :: _ => if starts_with (txt "/") (rev a) then a ++ b
                   else a ++ txt "/" ++ b
       end.

(** The values handed to [context.add_output_metadata]. *)
Inductive metadata_value : Type :=
| MetaInt (n : Z)
| MetaStat (s : stat)
| MetaText (s : str)
| MetaRecord (r : option row).

Section Asset.

(** The calls of the asset on its environment: [read_csv] and [to_csv] as
    above, [os.makedirs(path, exist_ok=True)], [os.path.getsize(path)] and
    [context.add_output_metadata(metadata)]. *)
Variables (read_csv : str -> option DataFrame)
  (to_csv : DataFrame -> str -> bool)
  (makedirs : str -> outcome unit)
  (getsize : str -> outcome Z)
  (add_output_metadata : dict str metadata_value -> outcome unit).

Definition cleaned_merged_data (config : DataPipelineConfig)
    (basketball_reference_data espn_leaders_data : str) : io str :=
  match makedirs (output_dir config) with
  | Failed e => ([], Failed e)
  | Done _ =>
      match clean_and_merge_player_data read_csv basketball_reference_data
                                        espn_leaders_data with
      | Raised e => ([], Failed (LookupError e))
      | Returned (merged_data, unmatched_players, stats) =>
          match merged_data with
          | [] =>
              ([], Failed (Failure (txt "No data was successfully merged")))
          | _ :: _ =>
              let output_path :=
                os_path_join (output_dir config)
                             (merged_output_filename config) in
              let (written, success) :=
                save_merged_data to_csv merged_data output_path in
              match success with
              | Failed e => (written, Failed e)
              | Done false =>
                  (written,
                   Failed (Failure (txt "Failed to save merged data to CSV")))
              | Done true =>
                  (written,
                   _logged <~ lookup (getitem "match_percentage" stats) ;;
                   exact <~ lookup (getitem "exact_matches" stats) ;;
                   fuzzy <~ lookup (getitem "fuzzy_matches" stats) ;;
                   percentage <~ lookup (getitem "match_percentage" stats) ;;
                   size <~ getsize output_path ;;
                   _added <~
                     add_output_metadata
                       [(txt "total_merged_players",
                         MetaInt (Z.of_nat (length merged_data)));
                        (txt "total_unmatched_players",
                         MetaInt (Z.of_nat (length unmatched_players)));
                        (txt "exact_matches", MetaStat exact);
                        (txt "fuzzy_matches", MetaStat fuzzy);
                        (txt "match_percentage", MetaStat percentage);
                        (txt "file_path", MetaText output_path);
                        (txt "file_size_bytes", MetaInt size);
                        (txt "sample_merged_player",
                         MetaRecord (hd_error merged_data))] ;;
                   Done output_path)
              end
          end
      end
  end.

End Asset.

(** * Vocabulary of the statements *)

Unset Implicit Arguments.

(** ** Texts *)

(** The 256 characters, for properties checked on each of them. *)
Definition all_chars : list ascii := map ascii_of_nat (seq 0 256).

Definition starts_space (s : str) : bool :=
  match s with c :: _ => is_space c | [] => false end.

(** A text in which a blank is always a single space, with no blank right
    after it. *)
Fixpoint single_spaced (s : str) : bool :=
  match s with
  | [] => true
  | c :: t =>
      (negb (is_space c) || (Ascii.eqb c " " && negb (starts_space t)))
      && single_spaced t
  end.

(** The text after its leading run of [p]-characters, the length of that
    run, and the character before the cursor once the run is passed. *)
Fixpoint drop_run (p : ascii -> bool) (s : str) : str :=
  match s with
  | c :: t => if p c then drop_run p t else s
  | [] => []
  end.

Fixpoint run_length (p : ascii -> bool) (s : str) : nat :=
  match s with
  | c :: t => if p c then S (run_length p t) else 0
  | [] => 0
  end.

Fixpoint run_prev (p : ascii -> bool) (prev : option ascii) (s : str)
  : option ascii :=
  match s with
  | c :: t => if p c then run_prev p (Some c) t else prev
  | [] => prev
  end.

(** The continuation that ends a match. *)
Definition final : cont (str * groups) := fun _ s' g => Some (s', g).

(** What [sub] does with a pattern [p+]: every run of [p]-characters
    becomes one copy of the replacement. *)
Fixpoint squeeze (p : ascii -> bool) (repl : str) (in_run : bool) (s : str)
  : str :=
  match s with
  | [] => []
  | c :: t =>
      if p c
      then if in_run then squeeze p repl true t
           else repl ++ squeeze p repl true t
      else c :: squeeze p repl false t
  end.

Definition key_char (c : ascii) : Prop :=
  is_upper c = false /\ is_punctuation c = false.

(** The shape of every result of [normalize_name]: no upper-case letter
    and no punctuation, single spaces between words and none around. *)
Definition canonical (s : str) : Prop :=
  Forall key_char s /\ single_spaced s = true /\ strip s = s.

(** What is left of a text that followed a leading "in": blanks are
    skipped, then an optional mis-encoded character and the blanks after
    it. *)
Definition after_in (t : str) : str :=
  match lstrip t with
  | [] => []
  | c :: u => if is_nbsp_artifact c then lstrip u else c :: u
  end.

(** A text made of decimal digits. *)
Definition digits (s : str) : Prop := Forall (fun c => is_digit c = true) s.

(** ** Records, rows and frames *)

(** The keys that do not follow the first three fields of a merged record:
    the internal field and the three fields themselves. *)
Definition not_appended (key : str) : bool :=
  existsb (str_eqb key)
          [txt "Normalized_Name"; txt "ESPN_Rank"; txt "Name";
           txt "ESPN_Points"].

(** A matched pair of rows whose names differ in their letter case. *)
Definition sample_br_row : row :=
  [(txt "Name", Str (txt "LeBron James")); (txt "Position", Str (txt "F"));
   (txt "Normalized_Name", Str (txt "lebron james"))].

Definition sample_espn_row : row :=
  [(txt "RK", Int 1); (txt "Player", Str (txt "LEBRON JAMES"));
   (txt "PTS", Str (txt "38652"));
   (txt "Normalized_ESPN_Name", Str (txt "lebron james"))].

(** [carries k r]: row [r] has [k] as its normalized name. *)
Definition carries (k : cell) (r : row) : bool :=
  match dict_get str_eqb (txt "Normalized_Name") r with
  | Some c => cell_eqb c k
  | None => false
  end.

Definition has_key {V : Type} (key : string) (r : dict str V) : Prop :=
  dict_mem str_eqb (txt key) r = true.

(** Three primary rows: the first and the last have the same normalized
    name, the second an empty one. *)
Definition sample_rows : list row :=
  [[(txt "Name", Str (txt "LeBron James"));
    (txt "Normalized_Name", Str (txt "lebron james"))];
   [(txt "Name", Str (txt "???")); (txt "Normalized_Name", Str [])];
   [(txt "Name", Str (txt "LEBRON JAMES JR."));
    (txt "Normalized_Name", Str (txt "lebron james"))]].

(** ** Scores *)

Definition sample_candidates : list (cell * list str) :=
  [(Str (txt "LeBron Raymone"), [txt "lebron"; txt "raymone"]);
   (Str (txt "LeBron James"), [txt "lebron"; txt "james"]);
   (Str (txt "James LeBron"), [txt "james"; txt "lebron"])].

(** The words of a secondary name, as the matcher compares them. *)
Definition name_parts (espn_name : cell) : list str :=
  split (normalize_name espn_name).

Definition score_of (matches total : nat) : float :=
  (float_of_nat matches / float_of_nat total)%float.

(** The score of a candidate against the words of a name: the share of
    the words found in the candidate's set. *)
Definition score (espn_parts : list str) (c : cell * list str) : float :=
  score_of (count_matches espn_parts (snd c)) (length espn_parts).

(** The threshold test of the matcher. *)
Definition meets_threshold (espn_parts : list str) (threshold : float)
    (c : cell * list str) : bool :=
  (float_of_nat (length espn_parts) * threshold
   <=? float_of_nat (count_matches espn_parts (snd c)))%float.

(** The candidates the loop scores: those with a non-empty set of words
    that pass the test against [min_match_score]. *)
Definition scored (espn_parts : list str) (min_match_score : float)
    (c : cell * list str) : bool :=
  match snd c with
  | [] => false
  | _ :: _ =>
      (min_match_score
       <=? float_of_nat (count_matches espn_parts (snd c)))%float
  end.

(** The highest score so far, by the number of matches behind it; [None]
    stands for the initial -1. *)
Definition highest_of (hb : option nat) (total : nat) : float :=
  match hb with
  | None => (-1)%float
  | Some k => score_of k total
  end.

(** [below hb matches]: a score from [matches] matched words is strictly
    above the highest score so far. *)
Definition below (hb : option nat) (matches : nat) : bool :=
  match hb with
  | None => true
  | Some k => k <? matches
  end.

(** Names of at most this many words are covered by the exhaustive check
    of the binary64 score arithmetic below. *)
Definition max_tokens : nat := 100.

(** For a name of [total] words: every score is above -1, is 1.0 exactly
    when all the words matched, and compares with another score as the
    numbers of matched words compare; no match at all fails the default
    threshold. *)
Definition scores_exact (total : nat) : bool :=
  forallb
    (fun m1 =>
       (-1 <? score_of m1 total)%float
       && Bool.eqb (score_of m1 total =? 1)%float (m1 =? total)
       && forallb
            (fun m2 =>
               Bool.eqb (score_of m1 total <? score_of m2 total)%float
                        (m1 <? m2))
            (seq 0 (S total)))
    (seq 0 (S total))
  && negb (float_of_nat total * default_threshold <=? float_of_nat 0)%float.

(** What the candidate loop returns, started after some candidates with
    best match [best] whose score came from [hb] matches: either nothing
    scored beats the start, or the result is the first scored candidate
    that beats the start and everything before it and is not beaten by
    anything after it. *)
Definition scan_result (espn_parts : list str) (min_match_score : float)
    (candidates : list (cell * list str)) (best : option cell)
    (hb : option nat) (r : option cell) : Prop :=
  (r = best
   /\ forall d, In d candidates ->
                scored espn_parts min_match_score d = true ->
                below hb (count_matches espn_parts (snd d)) = false)
  \/ exists pre c post,
       candidates = pre ++ c :: post
       /\ r = Some (fst c)
       /\ scored espn_parts min_match_score c = true
       /\ below hb (count_matches espn_parts (snd c)) = true
       /\ (forall d, In d pre ->
                     scored espn_parts min_match_score d = true ->
                     count_matches espn_parts (snd d)
                     < count_matches espn_parts (snd c))
       /\ (forall d, In d post ->
                     scored espn_parts min_match_score d = true ->
                     count_matches espn_parts (snd d)
                     <= count_matches espn_parts (snd c)).

(** ** Frames *)

Definition has_column (col : string) (df : DataFrame) : Prop :=
  dict_mem str_eqb (txt col) (df_columns df) = true.

(** Seven primary rows and ten secondary rows, seven of which name a
    primary row. *)
Definition sample_br_df : DataFrame :=
  {| df_len := 7;
     df_columns :=
       [(txt "Name",
         map (fun s => Str (txt s))
             ["LeBron James"; "Kareem Abdul-Jabbar"; "Karl Malone";
              "Kobe Bryant"; "Michael Jordan"; "Dirk Nowitzki";
              "Wilt Chamberlain"]%string);
        (txt "Position",
         map (fun s => Str (txt s))
             ["F"; "C"; "F"; "G"; "G"; "F"; "C"]%string);
        (txt "Born_Location", repeat (Str (txt "in Akron, Ohio")) 7);
        (txt "Born_Date", repeat (Str (txt "December 30, 1984")) 7);
        (txt "NBA_Debut", repeat (Str (txt "10/29/2003")) 7);
        (txt "Height_Imperial", repeat (Str (txt "6-Sep")) 7);
        (txt "URL", repeat NA 7)] |}.

Definition sample_espn_df : DataFrame :=
  {| df_len := 10;
     df_columns :=
       [(txt "RK", map Int [1; 2; 3; 4; 5; 6; 7; 8; 9; 10]%Z);
        (txt "Player",
         map (fun s => Str (txt s))
             ["LEBRON JAMES"; "Kareem Abdul-Jabbar"; "Karl Malone";
              "Kobe Bryant"; "Michael Jordan"; "Dirk Nowitzki";
              "Wilt Chamberlain"; "Kevin Durant"; "Shaquille O'Neal";
              "Carmelo Anthony"]%string);
        (txt "PTS",
         map Int [38652; 38387; 36928; 33643; 32292; 31560; 31419; 28924;
                  28596; 28289]%Z)] |}.

Definition sample_read_csv (path : str) : option DataFrame :=
  if str_eqb path (txt "br.csv") then Some sample_br_df
  else if str_eqb path (txt "espn.csv") then Some sample_espn_df
  else None.

(** ** Shapes of the results *)

(** The characters of a normalized name: a word character, a space or an
    apostrophe. *)
Definition key_letter (c : ascii) : Prop :=
  is_word c = true \/ c = " "%char \/ c = "'"%char.

(** Patterns without a capturing group. *)
Fixpoint groupless (r : re) : bool :=
  match r with
  | Cat a b | Alt a b => groupless a && groupless b
  | Opt a => groupless a
  | Grp _ _ => false
  | _ => true
  end.

(** The body of [standardize_date_format] on the stripped text. *)
Definition date_of_stripped (date_str : str) : str :=
  match match_ RE_MONTH_DAY_YEAR date_str with
  | Some g =>
      match table_get (lower (group 1 g)) MONTH_TO_NUM_MAP with
      | Some ((_ :: _) as month_num) =>
          group 3 g ++ txt "-" ++ month_num ++ txt "-" ++ zfill 2 (group 2 g)
      | _ => date_other_formats date_str
      end
  | None => date_other_formats date_str
  end.

(** A text of the form feet-inches, both numbers written in digits. *)
Definition feet_inches (s : str) : Prop :=
  exists feet inches,
    feet <> [] /\ inches <> [] /\ digits feet /\ digits inches
    /\ s = feet ++ txt "-" ++ inches.

(** The letters a to z, in either case. *)
Definition is_letter (c : ascii) : bool :=
  between 65 90 c || between 97 122 c.

(** [demands q r]: every match of [r] passes over a character of class
    [q]. *)
Fixpoint demands (q : ascii -> bool) (r : re) : bool :=
  match r with
  | Chr p => forallb (fun c => implb (p c) (q c)) all_chars
  | Cat a b => demands q a || demands q b
  | Alt a b => demands q a && demands q b
  | Grp _ a => demands q a
  | _ => false
  end.

(** The text starts with a digit. *)
Definition starts_digit (s : str) : bool :=
  match s with c :: _ => is_digit c | [] => false end.

(** What [sub] does with [RE_COMMA_SPACE] and the replacement ", ": the
    blanks after a comma go, and one space takes their place. *)
Fixpoint comma_spaced (after_comma : bool) (s : str) : str :=
  match s with
  | [] => []
  | c :: t =>
      if after_comma && is_space c then comma_spaced true t
      else if is_char "," c
           then ","%char :: " "%char :: comma_spaced true t
      else c :: comma_spaced false t
  end.

(** [commas_then ok s]: what follows each comma of [s] passes [ok]. *)
Fixpoint commas_then (ok : str -> bool) (s : str) : bool :=
  match s with
  | [] => true
  | c :: t => (if is_char "," c then ok t else true) && commas_then ok t
  end.

(** One space and no blank after it. *)
Definition one_space (t : str) : bool :=
  match t with
  | d :: t' => Ascii.eqb d " " && negb (starts_space t')
  | [] => false
  end.

(** Nothing, or one space and then a character that is not a blank. *)
Definition end_or_space_and_text (t : str) : bool :=
  match t with
  | [] => true
  | d :: t' =>
      Ascii.eqb d " "
      && match t' with e :: _ => negb (is_space e) | [] => false end
  end.

(** The text holds a decimal digit. *)
Definition has_digit (s : str) : bool := existsb is_digit s.

(** The text without its blanks. *)
Definition without_blanks (s : str) : str :=
  filter (fun c => negb (is_space c)) s.

(** The pattern is found somewhere in the text. *)
Definition found (r : re) (s : str) : bool :=
  match search r s with Some _ => true | None => false end.

(** A month artifact: one of the two patterns of a round of the repair
    loop, a hyphen and a month abbreviation or a month abbreviation and a
    hyphen, is found in the text, ignoring case. *)
Definition month_artifact_of (s : str) (entry : string * string) : bool :=
  found (lit_i ("-" ++ fst entry)) s || found (lit_i (fst entry ++ "-")) s.

Definition month_artifact (s : str) : bool :=
  existsb (month_artifact_of s) EXCEL_DATE_TO_HEIGHT_CONVERSIONS.

(** [avoids q r]: no match of [r] passes over a character of class [q]. *)
Fixpoint avoids (q : ascii -> bool) (r : re) : bool :=
  match r with
  | Chr p | Star p => forallb (fun c => negb (p c && q c)) all_chars
  | Cat a b | Alt a b => avoids q a && avoids q b
  | Opt a | Grp _ a => avoids q a
  | Eps | Bnd | Bol => true
  end.

(** The text starts with the characters of [pat], ignoring case. *)
Fixpoint starts_with_i (pat s : str) : bool :=
  match pat, s with
  | [], _ => true
  | c :: pat', x :: s' => is_char_i c x && starts_with_i pat' s'
  | _ :: _, [] => false
  end.

(** ** Thresholds *)

(** For a name of [total] words, the binary64 threshold test agrees with
    the test on integers, whatever the number of matched words. *)
Definition threshold_exact (total : nat) : bool :=
  forallb
    (fun m =>
       Bool.eqb
         (float_of_nat total * default_threshold <=? float_of_nat m)%float
         (4 * total <=? 5 * m))
    (seq 0 (S total)).

(** ** Runs *)

(** The cell of row [i] in column [col]; missing when the frame has no
    such column. *)
Definition cell_at (col : string) (df : DataFrame) (i : nat) : cell :=
  match dict_get str_eqb (txt col) (df_columns df) with
  | Some values => nth i values NA
  | None => NA
  end.

(** The record kept for secondary row [i] when nothing matches it. *)
Definition unmatched_entry (espn_df : DataFrame) (i : nat) : row :=
  [(txt "ESPN_Player", cell_at "Player" espn_df i);
   (txt "ESPN_Rank", cell_at "RK" espn_df i);
   (txt "ESPN_Points", cell_at "PTS" espn_df i);
   (txt "Normalized_Name",
    Str (normalize_name (cell_at "Player" espn_df i)))].

(** The columns of a merged record for a primary frame: the three leading
    fields, then the columns of the frame that are neither removed nor
    already placed. *)
Definition merged_columns (br_df : DataFrame) : list str :=
  [txt "ESPN_Rank"; txt "Name"; txt "ESPN_Points"]
  ++ filter (fun key =>
               negb (existsb (fun c => str_eqb (txt c) key)
                             columns_to_remove_br)
               && negb (not_appended key))
            (map fst (df_columns br_df)).

(** [merged_from br_df espn_df entry]: the rank and the metric of [entry]
    are those of one secondary row, and its name is that of a primary row
    whose normalized name is not empty and is carried by no earlier
    primary row. *)
Definition merged_from (br_df espn_df : DataFrame) (entry : row) : Prop :=
  exists i j,
    i < df_len espn_df /\ j < df_len br_df
    /\ getitem "ESPN_Rank" entry = Returned (cell_at "RK" espn_df i)
    /\ getitem "Name" entry = Returned (cell_at "Name" br_df j)
    /\ getitem "ESPN_Points" entry = Returned (cell_at "PTS" espn_df i)
    /\ normalize_name (cell_at "Name" br_df j) <> []
    /\ forall j', j' < j ->
                  normalize_name (cell_at "Name" br_df j')
                  <> normalize_name (cell_at "Name" br_df j).

(** [unmatched_from br_df espn_df entry]: [entry] is the record of a
    secondary row whose normalized name is empty or is the normalized name
    of no primary row. *)
Definition unmatched_from (br_df espn_df : DataFrame) (entry : row) : Prop :=
  exists i,
    i < df_len espn_df /\ entry = unmatched_entry espn_df i
    /\ (normalize_name (cell_at "Player" espn_df i) = []
        \/ forall j, j < df_len br_df ->
                     normalize_name (cell_at "Name" br_df j)
                     <> normalize_name (cell_at "Player" espn_df i)).

(** The state the loop over the secondary rows starts from. *)
Definition initial_state : merge_state :=
  {| merged_data := []; unmatched_players := [];
     exact_matches := 0; fuzzy_matches := 0 |}.

(** The first of [cols], in this order, that is not a column of [df]. *)
Definition first_missing (cols : list string) (df : DataFrame)
  : option string :=
  find (fun col => negb (dict_mem str_eqb (txt col) (df_columns df))) cols.

(** The leading fields that no record has. *)
Definition absent_fields (records : list row) : list str :=
  filter (fun label => negb (existsb (dict_mem str_eqb label) records))
         cols_ordered.

(** * Properties *)

Local Arguments Nat.sub : simpl never.

(** ** Characters *)

Lemma all_chars_complete (c : ascii) : In c all_chars.
Proof.
  unfold all_chars. rewrite <- (ascii_nat_embedding c).
  apply in_map, in_seq. pose proof (nat_ascii_bounded c). lia.
Qed.

Lemma for_all_chars (f : ascii -> bool) :
  forallb f all_chars = true -> forall c, f c = true.
Proof.
  intros H c. rewrite forallb_forall in H. apply H, all_chars_complete.
Qed.

Ltac by_chars c :=
  revert c;
  match goal with
  | |- forall c : ascii, @?P c = true => apply (for_all_chars P)
  end;
  vm_compute; reflexivity.

Lemma lower_char_not_upper (c : ascii) :
  negb (is_upper (lower_char c)) = true.
Proof. by_chars c. Qed.

Lemma lower_char_word (c : ascii) :
  Bool.eqb (is_word (lower_char c)) (is_word c) = true.
Proof. by_chars c. Qed.

Lemma word_not_space (c : ascii) :
  implb (is_word c) (negb (is_space c)) = true.
Proof. by_chars c. Qed.

Lemma str_eqb_eq (a b : str) : str_eqb a b = true <-> a = b.
Proof.
  unfold str_eqb. destruct (list_eq_dec ascii_dec a b); split; congruence.
Qed.

Lemma str_eqb_refl (a : str) : str_eqb a a = true.
Proof. apply str_eqb_eq. reflexivity. Qed.

Lemma str_eqb_neq (a b : str) : str_eqb a b = false <-> a <> b.
Proof.
  unfold str_eqb. destruct (list_eq_dec ascii_dec a b); split; congruence.
Qed.

Lemma cell_eqb_eq (a b : cell) : cell_eqb a b = true <-> a = b.
Proof.
  unfold cell_eqb. destruct (cell_eq_dec a b); split; congruence.
Qed.

Lemma cell_eqb_refl (a : cell) : cell_eqb a a = true.
Proof. apply cell_eqb_eq. reflexivity. Qed.

(** ** Stripping *)

Lemma lstrip_app_nonspace (a : str) (c : ascii) (b : str) :
  is_space c = false -> lstrip (a ++ c :: b) = lstrip a ++ c :: b.
Proof.
  intros Hc. induction a as [|x a IH]; simpl.
  - rewrite Hc. reflexivity.
  - destruct (is_space x); [exact IH | reflexivity].
Qed.

Lemma lstrip_all_space (a : str) :
  forallb is_space a = true -> lstrip a = [].
Proof.
  induction a as [|x a IH]; simpl; [reflexivity|].
  destruct (is_space x); simpl; [exact IH | discriminate].
Qed.

Lemma rstrip_cons_nonspace (c : ascii) (t : str) :
  is_space c = false -> rstrip (c :: t) = c :: rstrip t.
Proof.
  intros Hc. unfold rstrip. simpl rev.
  replace (rev t ++ [c]) with (rev t ++ c :: []) by reflexivity.
  rewrite (lstrip_app_nonspace _ _ _ Hc), rev_app_distr. reflexivity.
Qed.

Lemma rstrip_cons (c : ascii) (t : str) :
  rstrip (c :: t) =
  match rstrip t with
  | [] => if is_space c then [] else [c]
  | r => c :: r
  end.
Proof.
  destruct (is_space c) eqn:Hc.
  - unfold rstrip. simpl rev.
    destruct (lstrip (rev t)) as [|y l] eqn:Hl.
    + simpl. rewrite lstrip_all_space; [reflexivity|].
      rewrite forallb_app. simpl. rewrite Hc, andb_true_r.
      clear Hc. revert Hl. induction (rev t) as [|x a IH]; simpl; auto.
      destruct (is_space x); simpl; [auto | discriminate].
    + assert (Hy : is_space y = false).
      { revert Hl. clear. induction (rev t) as [|x a IH]; simpl.
        - discriminate.
        - destruct (is_space x) eqn:Hx; [exact IH|].
          intros H. injection H as -> _. exact Hx. }
      assert (Hsplit : exists a, rev t = a ++ y :: l
                                 /\ forallb is_space a = true).
      { revert Hl. clear. induction (rev t) as [|x a IH]; simpl.
        - discriminate.
        - destruct (is_space x) eqn:Hx.
          + intros H. destruct (IH H) as [a' [-> Ha]].
            exists (x :: a'). simpl. rewrite Hx. auto.
          + intros H. exists []. simpl. rewrite H. auto. }
      destruct Hsplit as [a [Ha Hsp]]. rewrite Ha.
      rewrite <- app_assoc. simpl app.
      rewrite (lstrip_app_nonspace _ _ _ Hy).
      rewrite (lstrip_all_space _ Hsp). simpl.
      rewrite rev_app_distr. simpl.
      destruct (rev l ++ [y]) eqn:E; [|reflexivity].
      destruct (rev l); discriminate.
  - rewrite (rstrip_cons_nonspace _ _ Hc).
    destruct (rstrip t); reflexivity.
Qed.

Lemma lstrip_head (s : str) (c : ascii) (t : str) :
  lstrip s = c :: t -> is_space c = false.
Proof.
  induction s as [|x s IH]; simpl; [discriminate|].
  destruct (is_space x) eqn:Hx; [exact IH|].
  intros H. injection H as -> _. exact Hx.
Qed.

Lemma lstrip_fixed (c : ascii) (t : str) :
  is_space c = false -> lstrip (c :: t) = c :: t.
Proof. intros H. simpl. rewrite H. reflexivity. Qed.

Lemma lstrip_idem (s : str) : lstrip (lstrip s) = lstrip s.
Proof.
  destruct (lstrip s) as [|c t] eqn:E; [reflexivity|].
  apply lstrip_fixed. exact (lstrip_head _ _ _ E).
Qed.

Lemma rstrip_idem (s : str) : rstrip (rstrip s) = rstrip s.
Proof.
  unfold rstrip. rewrite rev_involutive, lstrip_idem. reflexivity.
Qed.

Lemma rstrip_head (s : str) (c : ascii) (t : str) :
  rstrip s = c :: t -> exists t', s = c :: t'.
Proof.
  destruct s as [|x s]; [discriminate|].
  rewrite rstrip_cons.
  destruct (rstrip s); [destruct (is_space x)|]; intros H;
    try discriminate; injection H as -> _; eauto.
Qed.

Lemma strip_lstrip (s : str) : lstrip (strip s) = strip s.
Proof.
  unfold strip. destruct (lstrip s) as [|c t] eqn:E; [reflexivity|].
  pose proof (lstrip_head _ _ _ E) as Hc.
  rewrite (rstrip_cons_nonspace _ _ Hc). apply lstrip_fixed, Hc.
Qed.

Lemma strip_idem (s : str) : strip (strip s) = strip s.
Proof.
  unfold strip at 1. rewrite strip_lstrip. unfold strip.
  apply rstrip_idem.
Qed.

Lemma lstrip_Forall (P : ascii -> Prop) (s : str) :
  Forall P s -> Forall P (lstrip s).
Proof.
  induction 1 as [|x s Hx Hs IH]; simpl; [constructor|].
  destruct (is_space x); [exact IH | constructor; assumption].
Qed.

Lemma rstrip_Forall (P : ascii -> Prop) (s : str) :
  Forall P s -> Forall P (rstrip s).
Proof.
  intros H. unfold rstrip. apply Forall_rev, lstrip_Forall, Forall_rev, H.
Qed.

Lemma strip_Forall (P : ascii -> Prop) (s : str) :
  Forall P s -> Forall P (strip s).
Proof. intros H. apply rstrip_Forall, lstrip_Forall, H. Qed.

Lemma strip_no_space (s : str) :
  Forall (fun c => is_space c = false) s -> strip s = s.
Proof.
  intros H. unfold strip.
  assert (L : forall u, Forall (fun c => is_space c = false) u ->
                        lstrip u = u).
  { intros u Hu. destruct Hu as [|x u Hx Hu]; [reflexivity|].
    apply lstrip_fixed, Hx. }
  rewrite (L s H). unfold rstrip. rewrite L.
  - apply rev_involutive.
  - apply Forall_rev, H.
Qed.

Lemma lstrip_single_spaced (s : str) :
  single_spaced s = true -> single_spaced (lstrip s) = true.
Proof.
  induction s as [|x s IH]; simpl; [reflexivity|].
  intros H. apply andb_prop in H as [H1 H2].
  destruct (is_space x) eqn:Hx; [exact (IH H2)|].
  simpl. rewrite Hx, H2. reflexivity.
Qed.

Lemma rstrip_single_spaced (s : str) :
  single_spaced s = true -> single_spaced (rstrip s) = true.
Proof.
  induction s as [|x s IH]; [reflexivity|].
  intros H. simpl in H. apply andb_prop in H as [H1 H2].
  rewrite rstrip_cons. specialize (IH H2).
  destruct (rstrip s) as [|y r] eqn:E.
  - destruct (is_space x) eqn:Hx; [reflexivity|].
    simpl. rewrite Hx. reflexivity.
  - destruct (rstrip_head _ _ _ E) as [t' ->].
    simpl in H1. change (single_spaced (x :: y :: r))
      with ((negb (is_space x) || (Ascii.eqb x " " && negb (is_space y)))
            && single_spaced (y :: r)).
    rewrite H1, IH. reflexivity.
Qed.

Lemma strip_single_spaced (s : str) :
  single_spaced s = true -> single_spaced (strip s) = true.
Proof.
  intros H. apply rstrip_single_spaced, lstrip_single_spaced, H.
Qed.

(** ** The matcher on single-character repetitions *)

Lemma lstrip_drop_run (s : str) : lstrip s = drop_run is_space s.
Proof.
  induction s as [|c t IH]; simpl; [reflexivity|].
  rewrite IH. reflexivity.
Qed.

Lemma drop_run_length (p : ascii -> bool) (s : str) :
  length (drop_run p s) + run_length p s = length s.
Proof.
  induction s as [|c t IH]; simpl; [reflexivity|].
  destruct (p c); simpl; lia.
Qed.

(** A greedy repetition ends at the end of the run whenever the rest of
    the pattern matches there. *)
Lemma star_greedy (A : Type) (p : ascii -> bool) (k : cont A) (s : str) :
  forall prev g r,
    k (run_prev p prev s) (drop_run p s) g = Some r ->
    star p k prev s g = Some r.
Proof.
  induction s as [|c t IH]; intros prev g r H; simpl in *; [exact H|].
  destruct (p c).
  - rewrite (IH _ _ _ H). reflexivity.
  - exact H.
Qed.

Lemma match_at_Chr (p : ascii -> bool) (prev : option ascii) (s : str) :
  match_at (Chr p) prev s =
  match s with
  | c :: t => if p c then Some (t, []) else None
  | [] => None
  end.
Proof. destruct s; reflexivity. Qed.

Lemma match_at_Plus (p : ascii -> bool) (prev : option ascii) (s : str) :
  match_at (Plus p) prev s =
  match s with
  | c :: t => if p c then Some (drop_run p t, []) else None
  | [] => None
  end.
Proof.
  destruct s as [|c t]; [reflexivity|].
  unfold match_at, Plus. simpl.
  destruct (p c); [|reflexivity].
  apply star_greedy. reflexivity.
Qed.

(** ** Substitution *)

Lemma sub_from_Forall (P : ascii -> Prop) (r : re) (repl : str) :
  Forall P repl ->
  forall s skip prev, Forall P s -> Forall P (sub_from r repl skip prev s).
Proof.
  intros Hr. induction s as [|c t IH]; intros skip prev Hs; simpl.
  - destruct skip; [|constructor].
    destruct (match_at r prev []); [exact Hr | constructor].
  - inversion Hs as [|? ? Hc Ht]; subst.
    destruct skip as [|n]; [|apply IH, Ht].
    destruct (match_at r prev (c :: t)) as [[s' g]|].
    + match goal with
      | |- Forall P (match ?n with O => _ | S _ => _ end) => destruct n
      end.
      * apply Forall_app. split; [exact Hr|].
        constructor; [exact Hc | apply IH, Ht].
      * apply Forall_app. split; [exact Hr | apply IH, Ht].
    + constructor; [exact Hc | apply IH, Ht].
Qed.

Lemma sub_Forall (P : ascii -> Prop) (r : re) (repl s : str) :
  Forall P repl -> Forall P s -> Forall P (sub r repl s).
Proof. intros Hr Hs. apply sub_from_Forall; assumption. Qed.

Lemma sub_from_cons (r : re) (repl : str) (prev : option ascii)
    (c : ascii) (t : str) :
  sub_from r repl 0 prev (c :: t) =
  match match_at r prev (c :: t) with
  | Some (s', _) =>
      match length (c :: t) - length s' with
      | S n => repl ++ sub_from r repl n (Some c) t
      | O => repl ++ c :: sub_from r repl 0 (Some c) t
      end
  | None => c :: sub_from r repl 0 (Some c) t
  end.
Proof. reflexivity. Qed.

Lemma sub_Chr (p : ascii -> bool) (s : str) :
  forall prev, sub_from (Chr p) [] 0 prev s = filter (fun c => negb (p c)) s.
Proof.
  induction s as [|c t IH]; intros prev.
  - reflexivity.
  - rewrite sub_from_cons, match_at_Chr.
    simpl filter. destruct (p c); simpl negb; cbv iota.
    + replace (length (c :: t) - length t) with 1 by (simpl; lia).
      apply IH.
    + f_equal. apply IH.
Qed.

Lemma sub_from_Plus (p : ascii -> bool) (repl : str) (s : str) :
  forall prev,
    sub_from (Plus p) repl 0 prev s = squeeze p repl false s
    /\ sub_from (Plus p) repl (run_length p s) prev s = squeeze p repl true s.
Proof.
  induction s as [|c t IH]; intros prev.
  - split; reflexivity.
  - assert (H0 : sub_from (Plus p) repl 0 prev (c :: t)
                 = squeeze p repl false (c :: t)).
    { rewrite sub_from_cons, match_at_Plus. simpl squeeze.
      destruct (p c).
      - pose proof (drop_run_length p t) as L.
        replace (length (c :: t) - length (drop_run p t))
          with (S (run_length p t)) by (simpl; lia).
        f_equal. apply IH.
      - f_equal. apply IH. }
    split; [exact H0|].
    simpl run_length. destruct (p c) eqn:Hc.
    + simpl. rewrite Hc. apply IH.
    + rewrite H0. simpl. rewrite Hc. reflexivity.
Qed.

Lemma sub_Plus (p : ascii -> bool) (repl s : str) :
  sub (Plus p) repl s = squeeze p repl false s.
Proof. apply sub_from_Plus. Qed.

Lemma squeeze_empty (p : ascii -> bool) (s : str) :
  forall b, squeeze p [] b s = filter (fun c => negb (p c)) s.
Proof.
  induction s as [|c t IH]; intros b; simpl; [reflexivity|].
  destruct (p c); simpl.
  - destruct b; apply IH.
  - f_equal. apply IH.
Qed.

Lemma squeeze_single_spaced (s : str) :
  single_spaced (squeeze is_space [" "%char] false s) = true
  /\ single_spaced (squeeze is_space [" "%char] true s) = true
  /\ starts_space (squeeze is_space [" "%char] true s) = false.
Proof.
  induction s as [|c t [IH1 [IH2 IH3]]]; [auto|].
  cbn [squeeze]. destruct (is_space c) eqn:Hc.
  - cbn [app single_spaced]. rewrite IH3, IH2. auto.
  - cbn [single_spaced starts_space]. rewrite Hc, IH1. auto.
Qed.

Lemma squeeze_fixed (s : str) :
  single_spaced s = true -> squeeze is_space [" "%char] false s = s.
Proof.
  induction s as [|c t IH]; [reflexivity|].
  cbn [single_spaced squeeze].
  intros H. apply andb_prop in H as [H1 H2].
  destruct (is_space c) eqn:Hc; cbn [negb orb] in H1.
  - apply andb_prop in H1 as [E Hn].
    apply Ascii.eqb_eq in E. subst c. cbn [app]. f_equal.
    destruct t as [|d t]; [reflexivity|].
    cbn [starts_space] in Hn. apply negb_true_iff in Hn.
    specialize (IH H2). cbn [squeeze] in IH |- *.
    rewrite Hn in IH |- *. exact IH.
  - f_equal. exact (IH H2).
Qed.

Lemma replace_from_Forall (P : ascii -> Prop) (old new : str) :
  Forall P new ->
  forall s skip, Forall P s -> Forall P (replace_from old new skip s).
Proof.
  intros Hn. induction s as [|c t IH]; intros skip Hs; simpl.
  - constructor.
  - inversion Hs as [|? ? Hc Ht]; subst.
    destruct skip; [|apply IH, Ht].
    destruct (starts_with old (c :: t)).
    + apply Forall_app. split; [exact Hn | apply IH, Ht].
    + constructor; [exact Hc | apply IH, Ht].
Qed.

Lemma replace_Forall (P : ascii -> Prop) (old new s : str) :
  Forall P new -> Forall P s -> Forall P (replace old new s).
Proof.
  intros Hn Hs. unfold replace. destruct old.
  - apply Forall_app. split; [exact Hn|].
    induction Hs; simpl; [constructor|].
    constructor; [assumption|]. apply Forall_app. split; assumption.
  - apply replace_from_Forall; assumption.
Qed.

(** ** Canonical keys *)

Lemma filter_Forall_both (P : ascii -> Prop) (f : ascii -> bool) (s : str) :
  Forall P s -> Forall (fun c => P c /\ f c = true) (filter f s).
Proof.
  induction 1 as [|x s Hx Hs IH]; simpl; [constructor|].
  destruct (f x) eqn:E; [constructor; auto | exact IH].
Qed.

Lemma normalize_name_canonical (name : cell) :
  canonical (normalize_name name).
Proof.
  unfold normalize_name. destruct (isna name).
  { repeat split; constructor. }
  set (s0 := if isupper (strip (str_of name)) then _ else _).
  set (s1 := fold_left _ NAME_REPLACEMENTS _).
  assert (U1 : Forall (fun c => is_upper c = false) s1).
  { unfold s1, NAME_REPLACEMENTS. cbn [fold_left fst snd].
    apply replace_Forall.
    - repeat constructor.
    - apply sub_Forall; [constructor|].
      unfold lower. apply Forall_forall. intros c Hc.
      apply in_map_iff in Hc as [x [<- _]].
      apply negb_true_iff, lower_char_not_upper. }
  assert (U2 : Forall key_char (sub RE_PUNCTUATION [] s1)).
  { unfold sub, RE_PUNCTUATION. rewrite sub_Chr.
    apply filter_Forall_both with (f := fun c => negb (is_punctuation c))
      in U1.
    revert U1. apply Forall_impl. intros c [H1 H2].
    split; [exact H1 | apply negb_true_iff, H2]. }
  unfold RE_MULTIPLE_SPACES. rewrite sub_Plus.
  change (txt " ") with [" "%char].
  split; [|split].
  - apply strip_Forall.
    assert (G : forall b u, Forall key_char u ->
                Forall key_char (squeeze is_space [" "%char] b u)).
    { intros b u Hu. revert b.
      induction Hu as [|x u Hx Hu IH]; intros b; simpl; [constructor|].
      destruct (is_space x).
      - destruct b; [apply IH|].
        constructor; [split; reflexivity | apply IH].
      - constructor; [exact Hx | apply IH]. }
    apply G, U2.
  - apply strip_single_spaced, squeeze_single_spaced.
  - apply strip_idem.
Qed.

Lemma lower_fixed (s : str) :
  Forall (fun c => is_upper c = false) s -> lower s = s.
Proof.
  induction 1 as [|x s Hx Hs IH]; [reflexivity|].
  unfold lower in *. simpl. rewrite IH. unfold lower_char.
  rewrite Hx. reflexivity.
Qed.

Lemma isupper_no_upper (s : str) :
  Forall (fun c => is_upper c = false) s -> isupper s = false.
Proof.
  intros H. unfold isupper.
  replace (existsb is_upper s) with false; [apply andb_false_r|].
  induction H as [|x s Hx Hs IH]; [reflexivity|].
  simpl. rewrite Hx, <- IH. reflexivity.
Qed.

Lemma filter_fixed (f : ascii -> bool) (s : str) :
  Forall (fun c => f c = true) s -> filter f s = s.
Proof.
  induction 1 as [|x s Hx Hs IH]; [reflexivity|].
  simpl. rewrite Hx, IH. reflexivity.
Qed.

(** The steps of [normalize_name] other than suffix stripping and alias
    substitution leave a canonical key as it is. *)
Lemma canonical_fixed (key : str) :
  canonical key ->
  strip key = key
  /\ isupper key = false
  /\ lower key = key
  /\ sub RE_PUNCTUATION [] key = key
  /\ strip (sub RE_MULTIPLE_SPACES (txt " ") key) = key.
Proof.
  intros [Hk [Hs Ht]].
  assert (U : Forall (fun c => is_upper c = false) key).
  { revert Hk. apply Forall_impl. intros c [H _]. exact H. }
  repeat split.
  - exact Ht.
  - apply isupper_no_upper, U.
  - apply lower_fixed, U.
  - unfold sub, RE_PUNCTUATION. rewrite sub_Chr. apply filter_fixed.
    revert Hk. apply Forall_impl. intros c [_ H]. rewrite H. reflexivity.
  - unfold RE_MULTIPLE_SPACES. rewrite sub_Plus.
    change (txt " ") with [" "%char].
    rewrite (squeeze_fixed _ Hs). exact Ht.
Qed.

(** C2, as the specification states it, fails: "J.R. Smith" normalizes to
    "jr smith", in which the punctuation step has uncovered a generational
    suffix that a second normalization strips, giving "smith". *)
Lemma normalize_name_not_idempotent :
  normalize_name (Str (normalize_name (Str (txt "J.R. Smith"))))
  <> normalize_name (Str (txt "J.R. Smith")).
Proof. vm_compute. discriminate. Qed.

(** The alias table gives a second way out of idempotence: "Shaquille
    O.Neal" normalizes to the variant spelling, which a second pass turns
    into the standard one. *)
Example normalize_name_alias_twice :
  normalize_name (Str (txt "Shaquille O.Neal")) = txt "shaquille oneal"
  /\ normalize_name (Str (txt "shaquille oneal")) = txt "shaquille o'neal".
Proof. split; vm_compute; reflexivity. Qed.

(** C2 (amended): normalizing a canonical key returns it unchanged whenever
    the key holds no generational suffix for [RE_SUFFIXES] to strip and no
    spelling variant for [NAME_REPLACEMENTS] to rewrite; on such names
    [normalize_name] is idempotent. *)
Theorem normalize_name_idempotent (name : cell) :
  sub RE_SUFFIXES [] (normalize_name name) = normalize_name name ->
  fold_left (fun s p => replace (fst p) (snd p) s) NAME_REPLACEMENTS
            (normalize_name name) = normalize_name name ->
  normalize_name (Str (normalize_name name)) = normalize_name name.
Proof.
  intros Hsuffix Halias.
  destruct (canonical_fixed _ (normalize_name_canonical name))
    as [H1 [H2 [H3 [H4 H5]]]].
  set (key := normalize_name name) in *.
  unfold normalize_name at 1. cbn [isna str_of].
  rewrite H1, H2, H3, Hsuffix, Halias, H4, H5. reflexivity.
Qed.

Lemma normalize_name_idempotent_witness :
  normalize_name (Str (normalize_name (Str (txt "LEBRON JAMES"))))
  = normalize_name (Str (txt "LEBRON JAMES")).
Proof.
  apply (normalize_name_idempotent (Str (txt "LEBRON JAMES")));
    vm_compute; reflexivity.
Defined.

(** ** Heights *)

Lemma filter_no_space (s : str) :
  Forall (fun c => is_space c = false)
         (filter (fun c => negb (is_space c)) s).
Proof.
  induction s as [|c t IH]; simpl; [constructor|].
  destruct (is_space c) eqn:Hc; simpl; [exact IH|].
  constructor; assumption.
Qed.

(** C8, as the specification states it, fails on its last part: for "Jun"
    neither height pattern matches (neither on the input nor on the text
    left after cleaning), yet the result is the empty text and not the
    input without blanks, because the month word has been removed. *)
Lemma height_fallback_not_input :
  search RE_HEIGHT_FT_IN (txt "Jun") = None
  /\ search RE_HEIGHT_FT_ONLY (txt "Jun") = None
  /\ search RE_HEIGHT_FT_IN (height_cleaned (Str (txt "Jun"))) = None
  /\ search RE_HEIGHT_FT_ONLY (height_cleaned (Str (txt "Jun"))) = None
  /\ standardize_height_imperial (Str (txt "Jun"))
     <> filter (fun c => negb (is_space c)) (txt "Jun").
Proof. repeat split; vm_compute; discriminate. Qed.

(** ** Birth places *)

Lemma lstrip_suffix (t : str) : exists a, t = a ++ lstrip t.
Proof.
  induction t as [|c t [a IH]]; [exists []; reflexivity|].
  simpl. destruct (is_space c).
  - exists (c :: a). simpl. f_equal. exact IH.
  - exists []. reflexivity.
Qed.

Lemma after_in_suffix (t : str) : exists a, t = a ++ after_in t.
Proof.
  unfold after_in. destruct (lstrip_suffix t) as [a Ha].
  destruct (lstrip t) as [|c u] eqn:E.
  - exists a. exact Ha.
  - destruct (is_nbsp_artifact c).
    + destruct (lstrip_suffix u) as [b Hb].
      exists (a ++ c :: b). rewrite <- app_assoc. simpl.
      rewrite <- Hb. exact Ha.
    + exists a. exact Ha.
Qed.

Lemma sub_from_skip (r : re) (repl : str) (pre rest : str) :
  forall prev, exists prev',
    sub_from r repl (length pre) (Some prev) (pre ++ rest)
    = sub_from r repl 0 (Some prev') rest.
Proof.
  induction pre as [|c pre IH]; intros prev.
  - exists prev. reflexivity.
  - destruct (IH c) as [prev' H]. exists prev'. exact H.
Qed.

Lemma born_prefix_not_at_start (s : str) :
  forall c, sub_from RE_BORN_PREFIX [] 0 (Some c) s = s.
Proof.
  induction s as [|x s IH]; intros c; [reflexivity|].
  rewrite sub_from_cons.
  change (match_at RE_BORN_PREFIX (Some c) (x :: s))
    with (@None (str * groups)).
  cbv iota. f_equal. apply IH.
Qed.

Lemma born_prefix_match (c1 c2 : ascii) (t : str) :
  is_char_i "i" c1 = true -> is_char_i "n" c2 = true ->
  exists g, match_at RE_BORN_PREFIX None (c1 :: c2 :: t)
            = Some (after_in t, g).
Proof.
  intros H1 H2. unfold match_at, RE_BORN_PREFIX.
  cbn [chain lit_i txt list_ascii_of_string map run].
  rewrite H1, H2. unfold after_in. rewrite !lstrip_drop_run.
  destruct (drop_run is_space t) as [|c u] eqn:E.
  - eexists. apply star_greedy. rewrite E. reflexivity.
  - destruct (is_nbsp_artifact c) eqn:Hc.
    + rewrite lstrip_drop_run.
      eexists. apply star_greedy. rewrite E. cbn [run]. rewrite Hc.
      erewrite star_greedy; reflexivity.
    + eexists. apply star_greedy. rewrite E. cbn [run]. rewrite Hc.
      reflexivity.
Qed.

Lemma sub_born_prefix (c1 c2 : ascii) (t : str) :
  is_char_i "i" c1 = true -> is_char_i "n" c2 = true ->
  sub RE_BORN_PREFIX [] (c1 :: c2 :: t) = after_in t.
Proof.
  intros H1 H2. unfold sub. rewrite sub_from_cons.
  destruct (born_prefix_match c1 c2 t H1 H2) as [g ->].
  destruct (after_in_suffix t) as [a Ha].
  replace (length (c1 :: c2 :: t) - length (after_in t))
    with (S (length (c2 :: a))).
  2:{ rewrite Ha at 1. simpl. rewrite length_app. lia. }
  replace (c2 :: t) with ((c2 :: a) ++ after_in t)
    by (simpl; rewrite <- Ha; reflexivity).
  destruct (sub_from_skip RE_BORN_PREFIX [] (c2 :: a) (after_in t) c1)
    as [prev' ->].
  apply born_prefix_not_at_start.
Qed.

Lemma in_prefix_chars (c1 c2 : ascii) :
  c1 = "i"%char \/ c1 = "I"%char -> c2 = "n"%char \/ c2 = "N"%char ->
  is_char_i "i" c1 = true /\ is_char_i "n" c2 = true
  /\ is_space c1 = false /\ is_space c2 = false.
Proof. intros [-> | ->] [-> | ->]; repeat split; reflexivity. Qed.

(** C10: a location whose first two characters are "in", in either case,
    loses them whatever follows: the result is computed from the rest of
    the text alone (its blanks and an encoding artifact skipped at the
    front, then the usual tidying of blanks and commas), so that
    "Indiana, USA" comes out as "diana, USA". *)
Theorem format_born_location_strips_in (c1 c2 : ascii) (rest : str) :
  c1 = "i"%char \/ c1 = "I"%char ->
  c2 = "n"%char \/ c2 = "N"%char ->
  format_born_location (Str (c1 :: c2 :: rest))
  = strip (sub RE_COMMA_SPACE (txt ", ")
             (sub RE_MULTIPLE_SPACES (txt " ") (after_in (rstrip rest))))
  /\ format_born_location (Str (txt "Indiana, USA")) = txt "diana, USA".
Proof.
  intros Hi Hn. split; [|vm_compute; reflexivity].
  destruct (in_prefix_chars c1 c2 Hi Hn) as [H1 [H2 [S1 S2]]].
  unfold format_born_location. cbn [isna str_of].
  unfold strip at 2. rewrite (lstrip_fixed _ _ S1).
  rewrite (rstrip_cons_nonspace _ _ S1), (rstrip_cons_nonspace _ _ S2).
  rewrite (sub_born_prefix _ _ _ H1 H2). reflexivity.
Qed.

Lemma format_born_location_strips_in_witness :
  format_born_location (Str (txt "INverness ,Scotland "))
  = txt "verness , Scotland".
Proof.
  exact (proj1 (format_born_location_strips_in
                  "I" "N" (txt "verness ,Scotland ")
                  (or_intror eq_refl) (or_intror eq_refl))).
Defined.

(** ** Dates *)

Lemma digit_facts (c : ascii) :
  is_digit c = true ->
  is_space c = false /\ is_word c = true /\ is_char "/" c = false
  /\ is_char "," c = false /\ is_char "-" c = false.
Proof.
  revert c.
  assert (H : forall c,
             implb (is_digit c)
                   (negb (is_space c) && is_word c && negb (is_char "/" c)
                    && negb (is_char "," c) && negb (is_char "-" c)) = true).
  { intros c. by_chars c. }
  intros c Hc. specialize (H c). rewrite Hc in H. simpl in H.
  repeat (apply andb_prop in H as [H ?]).
  repeat split; try assumption; apply negb_true_iff; assumption.
Qed.

(** Settles the tests of the matcher on characters known to be digits. *)
Ltac use_digits :=
  repeat match goal with
         | H : is_digit ?c = true |- _ =>
             let F := fresh "F" in
             pose proof (digit_facts c H) as F;
             destruct F as [? [? [? [? ?]]]];
             revert H
         end;
  intros;
  repeat match goal with
         | H : ?f ?c = ?b |- context [?f ?c] => rewrite H
         end.

Lemma drop_run_app_stop (p : ascii -> bool) (a b : str) :
  Forall (fun c => p c = true) a ->
  match b with c :: _ => p c = false | [] => True end ->
  drop_run p (a ++ b) = b.
Proof.
  intros Ha Hb. induction Ha as [|x a Hx Ha IH]; simpl.
  - destruct b as [|c b]; [reflexivity|]. simpl. rewrite Hb. reflexivity.
  - rewrite Hx. exact IH.
Qed.

Lemma firstn_consumed (c : ascii) (a b : str) :
  firstn (length (c :: a ++ b) - length b) (c :: a ++ b) = c :: a.
Proof.
  replace (length (c :: a ++ b) - length b) with (length (c :: a))
    by (simpl; rewrite length_app; lia).
  change (c :: a ++ b) with ((c :: a) ++ b).
  rewrite firstn_app, firstn_all, Nat.sub_diag. simpl.
  rewrite app_nil_r. reflexivity.
Qed.

(** A group around [p+] takes a whole non-empty run of [p]-characters when
    the rest of the pattern matches after it. *)
Lemma run_Grp_Plus (A : Type) (p : ascii -> bool) (i : nat) (k : cont A)
    (prev : option ascii) (a b : str) (g : groups) (r : A) :
  a <> [] -> Forall (fun c => p c = true) a ->
  match b with c :: _ => p c = false | [] => True end ->
  (forall prev', k prev' b ((i, a) :: g) = Some r) ->
  run (Grp i (Plus p)) k prev (a ++ b) g = Some r.
Proof.
  intros Hne Ha Hb Hk. destruct a as [|c a]; [congruence|].
  inversion Ha as [|? ? Hc Ha']; subst.
  cbn [run Plus app]. rewrite Hc. apply star_greedy.
  rewrite (drop_run_app_stop p a b Ha' Hb).
  rewrite firstn_consumed. apply Hk.
Qed.

Lemma month_table_entry (k v : str) :
  table_get k MONTH_TO_NUM_MAP = Some v ->
  k <> [] /\ Forall (fun c => is_word c = true) k /\ v <> [].
Proof.
  unfold table_get, MONTH_TO_NUM_MAP. cbn [find fst snd].
  repeat match goal with
         | |- context [str_eqb ?a k] =>
             destruct (str_eqb a k) eqn:E;
             [ apply str_eqb_eq in E; subst k; intros H;
               injection H as <-;
               repeat split; try discriminate;
               apply Forall_forall; intros c Hc;
               repeat (destruct Hc as [<- | Hc]; [reflexivity|]);
               destruct Hc
             | clear E ]
         end.
  discriminate.
Qed.

Lemma lower_word (s : str) :
  Forall (fun c => is_word c = true) (lower s) ->
  Forall (fun c => is_word c = true) s.
Proof.
  unfold lower. induction s as [|c s IH]; simpl; intros H; [constructor|].
  inversion H as [|? ? Hc Hs]; subst. constructor; [|exact (IH Hs)].
  pose proof (lower_char_word c) as E. apply eqb_prop in E.
  rewrite <- E. exact Hc.
Qed.

Lemma strip_fixed_ends (s : str) :
  lstrip s = s -> lstrip (rev s) = rev s -> strip s = s.
Proof.
  intros H1 H2. unfold strip, rstrip. rewrite H1, H2.
  apply rev_involutive.
Qed.

Ltac eval_match :=
  unfold match_, match_at;
  cbn [chain times Plus run star
       RE_MONTH_DAY_YEAR RE_YYYY_MM_DD RE_MM_DD_YYYY];
  use_digits.

Lemma one_or_two (s : str) :
  digits s -> length s = 1 \/ length s = 2 ->
  (exists a, s = [a] /\ is_digit a = true)
  \/ (exists a b, s = [a; b] /\ is_digit a = true /\ is_digit b = true).
Proof.
  intros D [H|H]; destruct s as [|a [|b [|c s]]]; try discriminate.
  - left. exists a. inversion D. auto.
  - right. exists a, b. inversion D as [|? ? ? D']. inversion D'. auto.
Qed.

Lemma exactly_two (s : str) :
  digits s -> length s = 2 ->
  exists a b, s = [a; b] /\ is_digit a = true /\ is_digit b = true.
Proof.
  intros D H. destruct (one_or_two s D (or_intror H)) as [[a [-> _]]|E].
  - discriminate.
  - exact E.
Qed.

Lemma exactly_four (s : str) :
  digits s -> length s = 4 ->
  exists a b c d, s = [a; b; c; d] /\ is_digit a = true /\ is_digit b = true
                  /\ is_digit c = true /\ is_digit d = true.
Proof.
  intros D H. destruct s as [|a [|b [|c [|d [|e s]]]]]; try discriminate.
  exists a, b, c, d.
  inversion D as [|? ? ? D1]. inversion D1 as [|? ? ? D2].
  inversion D2 as [|? ? ? D3]. inversion D3. auto.
Qed.

Lemma month_day_year_match (month day year : str) :
  month <> [] -> Forall (fun c => is_word c = true) month ->
  digits day -> length day = 1 \/ length day = 2 ->
  digits year -> length year = 4 ->
  match_ RE_MONTH_DAY_YEAR (month ++ txt " " ++ day ++ txt ", " ++ year)
  = Some [(3, year); (2, day); (1, month)].
Proof.
  intros Hne Hw Dd Ld Dy Ly.
  destruct (exactly_four year Dy Ly) as [y1 [y2 [y3 [y4 [-> [? [? [? ?]]]]]]]].
  assert (M : forall tail r,
             (forall prev',
                 run (chain [Plus is_space;
                             Grp 2 (Cat (Chr is_digit) (Opt (Chr is_digit)));
                             Opt (Chr (is_char ",")); Star is_space;
                             Grp 3 (times 4 (Chr is_digit))])
                     final prev' tail [(1, month)] = Some r) ->
             match tail with c :: _ => is_word c = false | [] => True end ->
             match_ RE_MONTH_DAY_YEAR (month ++ tail) = Some (snd r)).
  { intros tail r Hr Ht. unfold match_.
    change (match_at RE_MONTH_DAY_YEAR None (month ++ tail))
      with (run (Grp 1 (Plus is_word))
                (run (chain [Plus is_space;
                             Grp 2 (Cat (Chr is_digit) (Opt (Chr is_digit)));
                             Opt (Chr (is_char ",")); Star is_space;
                             Grp 3 (times 4 (Chr is_digit))])
                     final)
                None (month ++ tail) []).
    rewrite (run_Grp_Plus _ is_word 1 _ None month tail [] r Hne Hw Ht Hr).
    reflexivity. }
  destruct (one_or_two day Dd Ld) as [[d1 [-> ?]]|[d1 [d2 [-> [? ?]]]]];
    cbn [txt list_ascii_of_string app].
  - apply (M _ ([], [(3, [y1; y2; y3; y4]); (2, [d1]); (1, month)]));
      [|reflexivity].
    intros prev'. cbn [chain times Plus run star]. use_digits.
    vm_compute. reflexivity.
  - apply (M _ ([], [(3, [y1; y2; y3; y4]); (2, [d1; d2]); (1, month)]));
      [|reflexivity].
    intros prev'. cbn [chain times Plus run star]. use_digits.
    vm_compute. reflexivity.
Qed.

Lemma month_day_year_format (month num day year : str) :
  table_get (lower month) MONTH_TO_NUM_MAP = Some num ->
  digits day -> length day = 1 \/ length day = 2 ->
  digits year -> length year = 4 ->
  standardize_date_format (Str (month ++ txt " " ++ day ++ txt ", " ++ year))
  = year ++ txt "-" ++ num ++ txt "-" ++ zfill 2 day.
Proof.
  intros Ht Dd Ld Dy Ly.
  destruct (month_table_entry _ _ Ht) as [Hne [Hw Hnum]].
  apply lower_word in Hw.
  assert (Hm : month <> []) by (destruct month; [exact Hne | discriminate]).
  pose proof (month_day_year_match month day year Hm Hw Dd Ld Dy Ly) as M.
  unfold standardize_date_format. cbn [isna str_of].
  assert (S : strip (month ++ txt " " ++ day ++ txt ", " ++ year)
              = month ++ txt " " ++ day ++ txt ", " ++ year).
  { destruct (exactly_four year Dy Ly) as [y1 [y2 [y3 [y4 [-> [_ [_ [_ Hy]]]]]]]].
    destruct (digit_facts y4 Hy) as [Hs _].
    destruct month as [|m0 month']; [congruence|].
    inversion Hw as [|? ? Hm0 _]; subst.
    pose proof (word_not_space m0) as Hsp. rewrite Hm0 in Hsp. simpl in Hsp.
    apply negb_true_iff in Hsp.
    apply strip_fixed_ends.
    - apply lstrip_fixed, Hsp.
    - rewrite !app_assoc, rev_app_distr. apply lstrip_fixed, Hs. }
  rewrite S, M. cbn [group find fst snd Nat.eqb].
  rewrite Ht. destruct num; [congruence | reflexivity].
Qed.

Lemma slashes_format (month day year : str) :
  digits month -> length month = 1 \/ length month = 2 ->
  digits day -> length day = 1 \/ length day = 2 ->
  digits year -> length year = 4 ->
  standardize_date_format (Str (month ++ txt "/" ++ day ++ txt "/" ++ year))
  = year ++ txt "-" ++ zfill 2 month ++ txt "-" ++ zfill 2 day.
Proof.
  intros Dm Lm Dd Ld Dy Ly.
  destruct (exactly_four year Dy Ly) as [y1 [y2 [y3 [y4 [-> [? [? [? ?]]]]]]]].
  unfold standardize_date_format, date_other_formats. cbn [isna str_of].
  destruct (one_or_two month Dm Lm) as [[m1 [-> ?]]|[m1 [m2 [-> [? ?]]]]];
    destruct (one_or_two day Dd Ld) as [[d1 [-> ?]]|[d1 [d2 [-> [? ?]]]]];
    cbn [txt list_ascii_of_string app];
    (rewrite strip_no_space;
     [| repeat (constructor;
                [first [reflexivity | apply digit_facts; assumption]|]);
        constructor]);
    eval_match; vm_compute; reflexivity.
Qed.

Lemma iso_format (year month day : str) :
  digits year -> length year = 4 ->
  digits month -> length month = 2 ->
  digits day -> length day = 2 ->
  standardize_date_format (Str (year ++ txt "-" ++ month ++ txt "-" ++ day))
  = year ++ txt "-" ++ month ++ txt "-" ++ day.
Proof.
  intros Dy Ly Dm Lm Dd Ld.
  destruct (exactly_four year Dy Ly) as [y1 [y2 [y3 [y4 [-> [? [? [? ?]]]]]]]].
  destruct (exactly_two month Dm Lm) as [m1 [m2 [-> [? ?]]]].
  destruct (exactly_two day Dd Ld) as [d1 [d2 [-> [? ?]]]].
  unfold standardize_date_format, date_other_formats. cbn [isna str_of].
  cbn [txt list_ascii_of_string app].
  rewrite strip_no_space;
    [| repeat (constructor;
               [first [reflexivity | apply digit_facts; assumption]|]);
       constructor].
  eval_match. vm_compute. reflexivity.
Qed.

Lemma unrecognized_date (s : str) :
  (forall g, match_ RE_MONTH_DAY_YEAR (strip s) = Some g ->
             table_get (lower (group 1 g)) MONTH_TO_NUM_MAP = None) ->
  match_ RE_YYYY_MM_DD (strip s) = None ->
  match_ RE_MM_DD_YYYY (strip s) = None ->
  standardize_date_format (Str s) = strip s.
Proof.
  intros H1 H2 H3. unfold standardize_date_format. cbn [isna str_of].
  assert (O : date_other_formats (strip s) = strip s).
  { unfold date_other_formats. rewrite H2, H3. reflexivity. }
  destruct (match_ RE_MONTH_DAY_YEAR (strip s)) as [g|]; [|exact O].
  rewrite (H1 g eq_refl). exact O.
Qed.

(** C7, as the specification states it, fails on its last part: the text
    " circa 1984", with a blank in front, matches none of the three date
    patterns, before and after trimming, and yet is not returned
    unchanged, since the formatter works on the trimmed text. *)
Lemma date_unrecognized_is_trimmed :
  match_ RE_MONTH_DAY_YEAR (txt " circa 1984") = None
  /\ match_ RE_YYYY_MM_DD (txt " circa 1984") = None
  /\ match_ RE_MM_DD_YYYY (txt " circa 1984") = None
  /\ match_ RE_MONTH_DAY_YEAR (strip (txt " circa 1984")) = None
  /\ match_ RE_YYYY_MM_DD (strip (txt " circa 1984")) = None
  /\ match_ RE_MM_DD_YYYY (strip (txt " circa 1984")) = None
  /\ standardize_date_format (Str (txt " circa 1984")) <> txt " circa 1984".
Proof. repeat split; vm_compute; discriminate. Qed.

(** C7 (amended): a "Month Day, Year" text whose month, in any case, is in
    the month table (full names and three-letter abbreviations) and an
    "M/D/YYYY" text become the zero-padded "YYYY-MM-DD"; a "YYYY-MM-DD"
    text is returned as it is; a text that none of the three patterns
    recognizes is returned with the blanks at its ends trimmed and
    otherwise unchanged (the formatter is a total function: nothing is
    raised).  "January 5, 1984" and "1/5/1984" give "1984-01-05", and
    "circa 1984" is returned unchanged. *)
Theorem standardize_date_format_spec :
  (forall month num day year : str,
      table_get (lower month) MONTH_TO_NUM_MAP = Some num ->
      digits day -> length day = 1 \/ length day = 2 ->
      digits year -> length year = 4 ->
      standardize_date_format
        (Str (month ++ txt " " ++ day ++ txt ", " ++ year))
      = year ++ txt "-" ++ num ++ txt "-" ++ zfill 2 day)
  /\ (forall month day year : str,
         digits month -> length month = 1 \/ length month = 2 ->
         digits day -> length day = 1 \/ length day = 2 ->
         digits year -> length year = 4 ->
         standardize_date_format
           (Str (month ++ txt "/" ++ day ++ txt "/" ++ year))
         = year ++ txt "-" ++ zfill 2 month ++ txt "-" ++ zfill 2 day)
  /\ (forall year month day : str,
         digits year -> length year = 4 ->
         digits month -> length month = 2 ->
         digits day -> length day = 2 ->
         standardize_date_format
           (Str (year ++ txt "-" ++ month ++ txt "-" ++ day))
         = year ++ txt "-" ++ month ++ txt "-" ++ day)
  /\ (forall s : str,
         (forall g, match_ RE_MONTH_DAY_YEAR (strip s) = Some g ->
                    table_get (lower (group 1 g)) MONTH_TO_NUM_MAP = None) ->
         match_ RE_YYYY_MM_DD (strip s) = None ->
         match_ RE_MM_DD_YYYY (strip s) = None ->
         standardize_date_format (Str s) = strip s)
  /\ standardize_date_format (Str (txt "January 5, 1984")) = txt "1984-01-05"
  /\ standardize_date_format (Str (txt "1/5/1984")) = txt "1984-01-05"
  /\ standardize_date_format (Str (txt "1984-01-05")) = txt "1984-01-05"
  /\ standardize_date_format (Str (txt "circa 1984")) = txt "circa 1984".
Proof.
  split; [exact month_day_year_format|].
  split; [exact slashes_format|].
  split; [exact iso_format|].
  split; [exact unrecognized_date|].
  repeat split; vm_compute; reflexivity.
Qed.

Lemma standardize_date_format_spec_witness :
  standardize_date_format (Str (txt "DEC 30, 1984")) = txt "1984-12-30"
  /\ standardize_date_format (Str (txt "  around 1984 ")) = txt "around 1984".
Proof.
  split.
  - apply (proj1 standardize_date_format_spec
                 (txt "DEC") (txt "12") (txt "30") (txt "1984"));
      try reflexivity; try (right; reflexivity);
      repeat constructor.
  - apply (proj1 (proj2 (proj2 (proj2 standardize_date_format_spec)))
                 (txt "  around 1984 ")).
    + intros g H. vm_compute in H. discriminate.
    + reflexivity.
    + reflexivity.
Defined.

(** ** Dictionaries *)

Section DictFacts.

Context {K V : Type} (keqb : K -> K -> bool).
Hypothesis keqb_eq : forall a b, keqb a b = true <-> a = b.

Lemma keqb_refl (a : K) : keqb a a = true.
Proof. apply keqb_eq. reflexivity. Qed.

Lemma keqb_neq (a b : K) : a <> b -> keqb a b = false.
Proof.
  intros H. destruct (keqb a b) eqn:E; [|reflexivity].
  apply keqb_eq in E. contradiction.
Qed.

Lemma dict_mem_get (k : K) (d : dict K V) :
  dict_mem keqb k d = true <-> exists v, dict_get keqb k d = Some v.
Proof.
  unfold dict_mem, dict_get. induction d as [|p d IH]; simpl.
  - split; [discriminate | intros [v H]; discriminate].
  - destruct (keqb (fst p) k); simpl; [|exact IH].
    split; eauto.
Qed.

Lemma dict_mem_false_get (k : K) (d : dict K V) :
  dict_mem keqb k d = false <-> dict_get keqb k d = None.
Proof.
  unfold dict_mem, dict_get. induction d as [|p d IH]; simpl.
  - split; reflexivity.
  - destruct (keqb (fst p) k); simpl; [|exact IH].
    split; discriminate.
Qed.

Lemma dict_mem_In (k : K) (d : dict K V) :
  dict_mem keqb k d = true <-> In k (map fst d).
Proof.
  unfold dict_mem. rewrite existsb_exists, in_map_iff. split.
  - intros [p [Hp E]]. apply keqb_eq in E. eauto.
  - intros [p [E Hp]]. exists p. rewrite E, keqb_refl. auto.
Qed.

Lemma dict_get_set_same (k : K) (v : V) (d : dict K V) :
  dict_get keqb k (dict_set keqb k v d) = Some v.
Proof.
  unfold dict_get. induction d as [|p d IH]; simpl.
  - rewrite keqb_refl. reflexivity.
  - destruct (keqb (fst p) k) eqn:E; simpl; rewrite E; [reflexivity|].
    exact IH.
Qed.

Lemma dict_get_set_other (k k' : K) (v : V) (d : dict K V) :
  k' <> k ->
  dict_get keqb k' (dict_set keqb k v d) = dict_get keqb k' d.
Proof.
  intros Hne. unfold dict_get. induction d as [|p d IH]; simpl.
  - rewrite (keqb_neq k k'); [reflexivity | congruence].
  - destruct (keqb (fst p) k) eqn:E; simpl.
    + apply keqb_eq in E. rewrite E, (keqb_neq k k'); [|congruence].
      reflexivity.
    + destruct (keqb (fst p) k'); [reflexivity | exact IH].
Qed.

Lemma dict_get_del_other (k k' : K) (d : dict K V) :
  k' <> k ->
  dict_get keqb k' (dict_del keqb k d) = dict_get keqb k' d.
Proof.
  intros Hne. unfold dict_get, dict_del.
  induction d as [|p d IH]; simpl; [reflexivity|].
  destruct (keqb (fst p) k) eqn:E; simpl.
  - apply keqb_eq in E. rewrite E, (keqb_neq k k'); [|congruence].
    exact IH.
  - destruct (keqb (fst p) k'); [reflexivity | exact IH].
Qed.

Lemma dict_set_absent (k : K) (v : V) (d : dict K V) :
  dict_mem keqb k d = false -> dict_set keqb k v d = d ++ [(k, v)].
Proof.
  unfold dict_mem. induction d as [|p d IH]; simpl; [reflexivity|].
  destruct (keqb (fst p) k); simpl; [discriminate|].
  intros H. rewrite (IH H). reflexivity.
Qed.

Lemma dict_set_keys (k : K) (v : V) (d : dict K V) :
  map fst (dict_set keqb k v d)
  = if dict_mem keqb k d then map fst d else map fst d ++ [k].
Proof.
  unfold dict_mem. induction d as [|p d IH]; simpl; [reflexivity|].
  destruct (keqb (fst p) k); simpl; [reflexivity|].
  rewrite IH. destruct (existsb _ d); reflexivity.
Qed.

Lemma dict_set_NoDup (k : K) (v : V) (d : dict K V) :
  NoDup (map fst d) -> NoDup (map fst (dict_set keqb k v d)).
Proof.
  intros H. rewrite dict_set_keys.
  destruct (dict_mem keqb k d) eqn:E; [exact H|].
  apply NoDup_app; [exact H | repeat constructor; intros [] | ].
  intros x Hx [<- | []].
  apply dict_mem_In in Hx. congruence.
Qed.

Lemma dict_del_NoDup (k : K) (d : dict K V) :
  NoDup (map fst d) -> NoDup (map fst (dict_del keqb k d)).
Proof.
  unfold dict_del. induction d as [|p d IH]; simpl; [auto|].
  intros H. inversion H as [|? ? Hp Hd]; subst.
  destruct (keqb (fst p) k); simpl; [exact (IH Hd)|].
  constructor; [|exact (IH Hd)].
  intros Hin. apply Hp. apply in_map_iff in Hin as [q [E Hq]].
  apply filter_In in Hq as [Hq _]. apply in_map_iff. eauto.
Qed.

(** A filter on keys that rejects [k] does not see [d[k] = v]. *)
Lemma filter_dict_set (f : K -> bool) (k : K) (v : V) (d : dict K V) :
  f k = false ->
  filter (fun p => f (fst p)) (dict_set keqb k v d)
  = filter (fun p => f (fst p)) d.
Proof.
  intros Hf. induction d as [|p d IH]; simpl.
  - rewrite Hf. reflexivity.
  - destruct (keqb (fst p) k) eqn:E; simpl.
    + apply keqb_eq in E. rewrite E, Hf. reflexivity.
    + rewrite IH. reflexivity.
Qed.

Lemma dict_del_absent (k : K) (d : dict K V) :
  dict_mem keqb k d = false -> dict_del keqb k d = d.
Proof.
  unfold dict_mem, dict_del. induction d as [|p d IH]; simpl; [auto|].
  destruct (keqb (fst p) k); simpl; [discriminate|].
  intros H. rewrite (IH H). reflexivity.
Qed.

Lemma fold_add_missing (d : dict K V) :
  NoDup (map fst d) ->
  forall acc,
    fold_left (add_missing keqb) d acc
    = acc ++ filter (fun p => negb (dict_mem keqb (fst p) acc)) d.
Proof.
  induction d as [|p d IH]; intros Hd acc; simpl.
  - symmetry. apply app_nil_r.
  - inversion Hd as [|? ? Hp Hd']; subst.
    rewrite (IH Hd'). unfold add_missing.
    destruct (dict_mem keqb (fst p) acc) eqn:E; simpl; [reflexivity|].
    rewrite (dict_set_absent _ _ _ E), <- app_assoc. simpl.
    destruct p as [k v]. simpl. do 2 f_equal.
    apply filter_ext_in. intros q Hq. f_equal.
    unfold dict_mem. rewrite existsb_app. simpl.
    rewrite orb_false_r.
    rewrite (keqb_neq k (fst q)); [apply orb_false_r|].
    intros ->. apply Hp. simpl. apply in_map, Hq.
Qed.

End DictFacts.

(** ** Merged records *)

Lemma filter_twice (A : Type) (f g : A -> bool) (l : list A) :
  filter f (filter g l) = filter (fun x => g x && f x) l.
Proof.
  induction l as [|x l IH]; simpl; [reflexivity|].
  destruct (g x); simpl; [|exact IH].
  destruct (f x); rewrite IH; reflexivity.
Qed.

Lemma getitem_Returned (V : Type) (key : string) (d : dict str V) (v : V) :
  getitem key d = Returned v <-> dict_get str_eqb (txt key) d = Some v.
Proof.
  unfold getitem. destruct (dict_get str_eqb (txt key) d); split;
    congruence.
Qed.

(** C1, as the specification states it, fails for the name: the merged
    record carries the name of the matched primary record, not the one
    written in the secondary row. *)
Lemma merged_name_not_from_secondary_row :
  _create_ordered_merged_player_entry sample_br_row sample_espn_row
  = Returned [(txt "ESPN_Rank", Int 1);
              (txt "Name", Str (txt "LeBron James"));
              (txt "ESPN_Points", Str (txt "38652"));
              (txt "Position", Str (txt "F"))]
  /\ (entry <- _create_ordered_merged_player_entry
                 sample_br_row sample_espn_row ;;
      getitem "Name" entry)
     <> getitem "Player" sample_espn_row.
Proof. split; vm_compute; [reflexivity | discriminate]. Qed.

(** The record is built whenever the three fields it reads are there. *)
Lemma create_entry_returns
    (br_player_info espn_row_data : row) (name rk pts : cell) :
  getitem "Name" br_player_info = Returned name ->
  getitem "RK" espn_row_data = Returned rk ->
  getitem "PTS" espn_row_data = Returned pts ->
  _create_ordered_merged_player_entry br_player_info espn_row_data
  = Returned
      (fold_left (add_missing str_eqb)
         (dict_set str_eqb (txt "ESPN_Points") pts
            (dict_set str_eqb (txt "ESPN_Rank") rk
               (dict_del str_eqb (txt "Normalized_Name") br_player_info)))
         [(txt "ESPN_Rank", rk); (txt "Name", name);
          (txt "ESPN_Points", pts)]).
Proof.
  intros Hname Hrk Hpts.
  unfold _create_ordered_merged_player_entry.
  rewrite Hrk, Hpts. cbn [bind].
  set (pd0 := if dict_mem str_eqb (txt "Normalized_Name") br_player_info
              then dict_del str_eqb (txt "Normalized_Name") br_player_info
              else br_player_info).
  assert (E0 : pd0 = dict_del str_eqb (txt "Normalized_Name") br_player_info).
  { unfold pd0.
    destruct (dict_mem str_eqb (txt "Normalized_Name") br_player_info) eqn:E;
      [reflexivity|].
    symmetry. apply (dict_del_absent str_eqb _ _ E). }
  rewrite <- E0.
  set (pd1 := dict_set str_eqb (txt "ESPN_Rank") rk pd0).
  set (pd2 := dict_set str_eqb (txt "ESPN_Points") pts pd1).
  assert (G1 : getitem "ESPN_Rank" pd2 = Returned rk).
  { apply getitem_Returned. unfold pd2, pd1.
    rewrite (dict_get_set_other str_eqb str_eqb_eq) by discriminate.
    apply (dict_get_set_same str_eqb str_eqb_eq). }
  assert (G2 : getitem "Name" pd2 = Returned name).
  { apply getitem_Returned. unfold pd2, pd1.
    rewrite !(dict_get_set_other str_eqb str_eqb_eq) by discriminate.
    rewrite E0, (dict_get_del_other str_eqb str_eqb_eq) by discriminate.
    apply getitem_Returned, Hname. }
  assert (G3 : getitem "ESPN_Points" pd2 = Returned pts).
  { apply getitem_Returned. unfold pd2.
    apply (dict_get_set_same str_eqb str_eqb_eq). }
  rewrite G1, G2, G3. reflexivity.
Qed.

(** C1 (amended): the merged record starts with the rank of the secondary
    row, the name of the matched primary record and the metric of the
    secondary row, followed by the other fields of the primary record in
    their original order, without the internal normalization field and
    without any field already placed. *)
Theorem create_ordered_merged_player_entry_spec
    (br_player_info espn_row_data : row) (name rk pts : cell) :
  NoDup (map fst br_player_info) ->
  getitem "Name" br_player_info = Returned name ->
  getitem "RK" espn_row_data = Returned rk ->
  getitem "PTS" espn_row_data = Returned pts ->
  _create_ordered_merged_player_entry br_player_info espn_row_data
  = Returned
      ([(txt "ESPN_Rank", rk); (txt "Name", name); (txt "ESPN_Points", pts)]
       ++ filter (fun p => negb (not_appended (fst p))) br_player_info).
Proof.
  intros Hnd Hname Hrk Hpts.
  rewrite (create_entry_returns _ _ name rk pts Hname Hrk Hpts). f_equal.
  set (pd2 := dict_set str_eqb (txt "ESPN_Points") pts _).
  assert (N2 : NoDup (map fst pd2)).
  { unfold pd2.
    do 2 apply (dict_set_NoDup str_eqb str_eqb_eq).
    apply dict_del_NoDup, Hnd. }
  rewrite (fold_add_missing str_eqb str_eqb_eq pd2 N2). f_equal.
  set (keep := fun key : str =>
                 negb (existsb (str_eqb key)
                               [txt "ESPN_Rank"; txt "Name";
                                txt "ESPN_Points"])).
  transitivity (filter (fun p : str * cell => keep (fst p)) pd2).
  { apply filter_ext. intros p. unfold keep, dict_mem.
    cbn [existsb fst]. f_equal.
    rewrite !orb_false_r.
    assert (Sw : forall a b, str_eqb a b = str_eqb b a).
    { intros a b. destruct (str_eqb a b) eqn:E.
      - apply str_eqb_eq in E. subst. symmetry. apply str_eqb_refl.
      - symmetry. apply str_eqb_neq. apply str_eqb_neq in E. congruence. }
    rewrite (Sw (txt "ESPN_Rank")), (Sw (txt "Name")),
      (Sw (txt "ESPN_Points")).
    reflexivity. }
  unfold pd2.
  rewrite !(filter_dict_set str_eqb str_eqb_eq keep) by reflexivity.
  unfold dict_del. rewrite filter_twice.
  apply filter_ext. intros p. unfold keep, not_appended. cbn [existsb].
  rewrite !orb_false_r.
  destruct (str_eqb (fst p) (txt "Normalized_Name"));
    destruct (str_eqb (fst p) (txt "ESPN_Rank"));
    destruct (str_eqb (fst p) (txt "Name"));
    destruct (str_eqb (fst p) (txt "ESPN_Points")); reflexivity.
Qed.

Lemma create_ordered_merged_player_entry_spec_witness :
  _create_ordered_merged_player_entry sample_br_row sample_espn_row
  = Returned [(txt "ESPN_Rank", Int 1);
              (txt "Name", Str (txt "LeBron James"));
              (txt "ESPN_Points", Str (txt "38652"));
              (txt "Position", Str (txt "F"))].
Proof.
  apply (create_ordered_merged_player_entry_spec
           sample_br_row sample_espn_row
           (Str (txt "LeBron James")) (Int 1) (Str (txt "38652")));
    try reflexivity.
  repeat constructor; simpl; intuition discriminate.
Defined.

(** ** The exact-match index *)

Lemma has_key_getitem {V : Type} (key : string) (r : dict str V) :
  has_key key r -> exists v, getitem key r = Returned v.
Proof.
  intros H. apply (dict_mem_get str_eqb) in H as [v H].
  exists v. apply getitem_Returned, H.
Qed.

Lemma build_br_lookup_get (rows : list row) :
  Forall (has_key "Normalized_Name") rows ->
  forall br_lookup, exists lk,
    build_br_lookup rows br_lookup = Returned lk
    /\ forall k,
         dict_get cell_eqb k lk
         = match dict_get cell_eqb k br_lookup with
           | Some r => Some r
           | None => if truthy k then find (carries k) rows else None
           end.
Proof.
  induction 1 as [|r rows Hr Hrows IH]; intros lk0.
  - exists lk0. split; [reflexivity|]. intros k.
    destruct (dict_get cell_eqb k lk0); [|destruct (truthy k)]; reflexivity.
  - destruct (has_key_getitem _ _ Hr) as [c Hc].
    assert (Cr : forall k, carries k r = cell_eqb c k).
    { intros k. unfold carries.
      apply getitem_Returned in Hc. rewrite Hc. reflexivity. }
    cbn [build_br_lookup]. rewrite Hc. cbn [bind].
    destruct (truthy c && negb (dict_mem cell_eqb c lk0)) eqn:E.
    + apply andb_prop in E as [Et En]. apply negb_true_iff in En.
      apply (dict_mem_false_get cell_eqb) in En.
      destruct (IH (dict_set cell_eqb c r lk0)) as [lk [Hlk Hget]].
      exists lk. split; [exact Hlk|]. intros k. rewrite Hget.
      cbn [find]. rewrite Cr.
      destruct (cell_eq_dec c k) as [<- | Hne].
      * rewrite (dict_get_set_same cell_eqb cell_eqb_eq), En, Et.
        rewrite cell_eqb_refl. reflexivity.
      * rewrite (dict_get_set_other cell_eqb cell_eqb_eq) by congruence.
        replace (cell_eqb c k) with false; [reflexivity|].
        symmetry. apply (keqb_neq cell_eqb cell_eqb_eq), Hne.
    + destruct (IH lk0) as [lk [Hlk Hget]].
      exists lk. split; [exact Hlk|]. intros k. rewrite Hget.
      destruct (dict_get cell_eqb k lk0) eqn:G; [reflexivity|].
      destruct (truthy k) eqn:Tk; [|reflexivity].
      cbn [find]. rewrite Cr.
      destruct (cell_eqb c k) eqn:Ck; [|reflexivity].
      apply cell_eqb_eq in Ck. subst k. rewrite Tk in E. simpl in E.
      apply negb_false_iff, (dict_mem_get cell_eqb) in E as [v Hv].
      congruence.
Qed.

(** C4: the index built from the primary rows, each carrying its
    normalized name, answers a non-empty key with the first row, in row
    order, that has this normalized name (later rows with the same key are
    not retrievable) and holds no entry for the empty key. *)
Theorem build_br_lookup_first_seen_wins (rows : list row) :
  Forall (has_key "Normalized_Name") rows ->
  exists br_lookup,
    build_br_lookup rows [] = Returned br_lookup
    /\ (forall k, truthy k = true ->
                  dict_get cell_eqb k br_lookup = find (carries k) rows)
    /\ (forall k, truthy k = false -> dict_get cell_eqb k br_lookup = None)
    /\ (forall key : str,
           key <> [] ->
           dict_get cell_eqb (Str key) br_lookup
           = find (carries (Str key)) rows)
    /\ dict_get cell_eqb (Str []) br_lookup = None.
Proof.
  intros H. destruct (build_br_lookup_get rows H []) as [lk [Hlk Hget]].
  exists lk. split; [exact Hlk|].
  assert (A : forall k, truthy k = true ->
                        dict_get cell_eqb k lk = find (carries k) rows).
  { intros k Hk. rewrite Hget, Hk. reflexivity. }
  assert (B : forall k, truthy k = false -> dict_get cell_eqb k lk = None).
  { intros k Hk. rewrite Hget, Hk. reflexivity. }
  repeat split; auto.
  intros key Hne. apply A. destruct key; [congruence | reflexivity].
Qed.

Lemma build_br_lookup_first_seen_wins_witness :
  exists br_lookup,
    build_br_lookup sample_rows [] = Returned br_lookup
    /\ dict_get cell_eqb (Str (txt "lebron james")) br_lookup
       = nth_error sample_rows 0
    /\ dict_get cell_eqb (Str []) br_lookup = None.
Proof.
  destruct (build_br_lookup_first_seen_wins sample_rows)
    as [lk [H1 [_ [_ [H2 H3]]]]].
  - repeat constructor.
  - exists lk. split; [exact H1|]. split; [|exact H3].
    rewrite H2 by discriminate. reflexivity.
Defined.

(** ** Load failure *)

(** C3: when either input fails to load, the engine returns an empty
    merged list, an empty unmatched list and an empty stats record; it
    returns, and raises nothing. *)
Theorem clean_and_merge_load_failure
    (read_csv : str -> option DataFrame) (br_csv_path espn_csv_path : str) :
  read_csv br_csv_path = None \/ read_csv espn_csv_path = None ->
  clean_and_merge_player_data read_csv br_csv_path espn_csv_path
  = Returned ([], [], []).
Proof.
  intros [H | H]; unfold clean_and_merge_player_data.
  - rewrite H. reflexivity.
  - rewrite H. destruct (read_csv br_csv_path); reflexivity.
Qed.

Lemma clean_and_merge_load_failure_witness :
  clean_and_merge_player_data
    (fun path => if str_eqb path (txt "br.csv")
                 then Some {| df_len := 0; df_columns := [] |} else None)
    (txt "br.csv") (txt "missing.csv")
  = Returned ([], [], []).
Proof.
  apply clean_and_merge_load_failure. right. reflexivity.
Defined.

(** ** Fuzzy matching *)

Lemma count_matches_le (espn_parts br_parts_set : list str) :
  count_matches espn_parts br_parts_set <= length espn_parts.
Proof. unfold count_matches. apply filter_length_le. Qed.

Lemma count_matches_nil (espn_parts : list str) :
  count_matches espn_parts [] = 0.
Proof.
  unfold count_matches. induction espn_parts as [|p ps IH]; [reflexivity|].
  simpl. exact IH.
Qed.

(** The binary64 tests of the matcher on a name of two words. *)
Lemma two_token_floats :
  ((float_of_nat 2 * default_threshold <=? float_of_nat 0) = false
   /\ (float_of_nat 2 * default_threshold <=? float_of_nat 1) = false
   /\ (float_of_nat 2 * default_threshold <=? float_of_nat 2) = true
   /\ float_of_nat 1 / float_of_nat 2 = 0.5
   /\ float_of_nat 2 / float_of_nat 2 = 1
   /\ (-1 <? float_of_nat 2 / float_of_nat 2) = true
   /\ (float_of_nat 2 / float_of_nat 2 =? 1) = true)%float.
Proof. repeat split; vm_compute; reflexivity. Qed.

Lemma fuzzy_scan_two_tokens (espn_parts : list str) :
  length espn_parts = 2 ->
  forall candidates,
    fuzzy_scan espn_parts (float_of_nat 2 * default_threshold)%float
               candidates None (-1)%float
    = option_map fst
        (find (fun c => count_matches espn_parts (snd c) =? 2) candidates).
Proof.
  intros Hlen.
  destruct two_token_floats as [T0 [T1 [T2 [_ [_ [L E]]]]]].
  induction candidates as [|[original_br_name br_parts_set] rest IH].
  - reflexivity.
  - cbn [fuzzy_scan find snd]. destruct br_parts_set as [|w ws].
    + rewrite count_matches_nil. exact IH.
    + pose proof (count_matches_le espn_parts (w :: ws)) as Hle.
      rewrite Hlen in *.
      destruct (count_matches espn_parts (w :: ws)) as [|[|[|m]]]; [| | |lia].
      * rewrite T0. exact IH.
      * rewrite T1. exact IH.
      * rewrite T2, L, E. reflexivity.
Qed.

Lemma find_first (A : Type) (f : A -> bool) (pre : list A) (c : A)
    (post : list A) :
  f c = true -> (forall d, In d pre -> f d = false) ->
  find f (pre ++ c :: post) = Some c.
Proof.
  intros Hc. induction pre as [|x pre IH]; intros Hpre; simpl.
  - rewrite Hc. reflexivity.
  - rewrite (Hpre x (or_introl eq_refl)). apply IH.
    intros d Hd. apply Hpre. right. exact Hd.
Qed.

Lemma find_none (A : Type) (f : A -> bool) (l : list A) :
  (forall d, In d l -> f d = false) -> find f l = None.
Proof.
  induction l as [|x l IH]; intros H; simpl; [reflexivity|].
  rewrite (H x (or_introl eq_refl)). apply IH.
  intros d Hd. apply H. right. exact Hd.
Qed.

(** C5: with the threshold 0.8 and a secondary name of exactly two words,
    a candidate that matches one word has the score 0.5 and is never
    returned; the result is the first candidate that matches both words
    (score 1.0), whatever candidates come after it, and there is no match
    when no candidate matches both. *)
Theorem fuzzy_name_match_two_tokens
    (espn_name : cell) (candidates : list (cell * list str)) :
  length (split (normalize_name espn_name)) = 2 ->
  (float_of_nat 1 / float_of_nat 2 = 0.5
   /\ float_of_nat 2 / float_of_nat 2 = 1)%float
  /\ fuzzy_name_match espn_name candidates default_threshold
     = option_map fst
         (find (fun c => count_matches (split (normalize_name espn_name))
                                       (snd c) =? 2)
               candidates)
  /\ (forall pre c post,
         candidates = pre ++ c :: post ->
         count_matches (split (normalize_name espn_name)) (snd c) = 2 ->
         (forall d, In d pre ->
                    count_matches (split (normalize_name espn_name)) (snd d)
                    <> 2) ->
         fuzzy_name_match espn_name candidates default_threshold
         = Some (fst c))
  /\ ((forall d, In d candidates ->
                 count_matches (split (normalize_name espn_name)) (snd d)
                 <= 1) ->
      fuzzy_name_match espn_name candidates default_threshold = None).
Proof.
  intros Hlen.
  assert (M : forall cs,
             fuzzy_name_match espn_name cs default_threshold
             = option_map fst
                 (find (fun c =>
                          count_matches (split (normalize_name espn_name))
                                        (snd c) =? 2) cs)).
  { intros cs. unfold fuzzy_name_match.
    destruct (normalize_name espn_name) as [|x key] eqn:E;
      [discriminate|].
    destruct (split (x :: key)) as [|p ps] eqn:P; [discriminate|].
    rewrite Hlen. apply fuzzy_scan_two_tokens, Hlen. }
  split; [split; vm_compute; reflexivity|].
  split; [apply M|]. split.
  - intros pre c post -> Hc Hpre. rewrite M, (find_first _ _ pre c post).
    + reflexivity.
    + apply Nat.eqb_eq, Hc.
    + intros d Hd. apply Nat.eqb_neq, Hpre, Hd.
  - intros H. rewrite M, find_none; [reflexivity|].
    intros d Hd. apply Nat.eqb_neq. specialize (H d Hd). lia.
Qed.

Lemma fuzzy_name_match_two_tokens_witness :
  fuzzy_name_match (Str (txt "James, Lebron")) sample_candidates
                   default_threshold
  = Some (Str (txt "LeBron James")).
Proof.
  exact (proj1 (proj2 (fuzzy_name_match_two_tokens
                         (Str (txt "James, Lebron")) sample_candidates
                         eq_refl))).
Defined.

Lemma scores_exact_checked : forallb scores_exact (seq 1 max_tokens) = true.
Proof. vm_compute. reflexivity. Qed.

(** For names of up to [max_tokens] words, comparing two binary64 scores
    is comparing the numbers of matched words; a score is 1.0 exactly when
    every word matched; and no candidate passes the default threshold
    without a match. *)
Lemma score_facts (total m1 m2 : nat) :
  1 <= total <= max_tokens -> m1 <= total -> m2 <= total ->
  (-1 <? score_of m1 total)%float = true
  /\ (score_of m1 total =? 1)%float = (m1 =? total)
  /\ (score_of m1 total <? score_of m2 total)%float = (m1 <? m2)
  /\ (float_of_nat total * default_threshold <=? float_of_nat 0)%float
     = false.
Proof.
  intros Ht H1 H2.
  pose proof scores_exact_checked as C.
  rewrite forallb_forall in C.
  specialize (C total). unfold scores_exact in C.
  assert (I : In total (seq 1 max_tokens)) by (apply in_seq; lia).
  apply C in I. apply andb_prop in I as [I Hthr].
  rewrite forallb_forall in I.
  assert (I1 : In m1 (seq 0 (S total))) by (apply in_seq; lia).
  apply I in I1. apply andb_prop in I1 as [I1 I2].
  apply andb_prop in I1 as [Ia Ib].
  rewrite forallb_forall in I2.
  assert (I3 : In m2 (seq 0 (S total))) by (apply in_seq; lia).
  apply I2 in I3.
  repeat split.
  - exact Ia.
  - apply eqb_prop, Ib.
  - apply eqb_prop, I3.
  - apply negb_true_iff, Hthr.
Qed.

Section Scan.

Variables (espn_parts : list str) (min_match_score : float).
Hypothesis Hparts : 1 <= length espn_parts <= max_tokens.

Lemma highest_below (hb : option nat) (m : nat) :
  (forall k, hb = Some k -> k <= length espn_parts) ->
  m <= length espn_parts ->
  (highest_of hb (length espn_parts) <? score_of m (length espn_parts))%float
  = below hb m.
Proof.
  intros Hk Hm. destruct hb as [k|]; simpl.
  - apply (score_facts (length espn_parts) k m Hparts (Hk k eq_refl) Hm).
  - apply (score_facts (length espn_parts) m m Hparts Hm Hm).
Qed.

(** A candidate that is not scored, or does not beat the start, leaves
    the outcome of the rest of the loop as it is. *)
Lemma scan_result_skip (c : cell * list str) (rest : list (cell * list str))
    (best : option cell) (hb : option nat) (r : option cell) :
  (scored espn_parts min_match_score c = true ->
   below hb (count_matches espn_parts (snd c)) = false) ->
  scan_result espn_parts min_match_score rest best hb r ->
  scan_result espn_parts min_match_score (c :: rest) best hb r.
Proof.
  intros Hc [[Hr Hall] | [pre [c' [post [E [Hr [Hs [Hb [Hpre Hpost]]]]]]]]].
  - left. split; [exact Hr|]. intros d [<- | Hd]; [exact Hc | auto].
  - right. exists (c :: pre), c', post. subst rest.
    repeat split; try assumption.
    intros d [<- | Hd] Hsd; [|auto].
    specialize (Hc Hsd). destruct hb as [k|]; simpl in *; [|discriminate].
    apply Nat.ltb_ge in Hc. apply Nat.ltb_lt in Hb. lia.
Qed.

Lemma fuzzy_scan_result (candidates : list (cell * list str)) :
  forall best hb,
    (forall k, hb = Some k -> k <= length espn_parts) ->
    scan_result espn_parts min_match_score candidates best hb
      (fuzzy_scan espn_parts min_match_score candidates best
                  (highest_of hb (length espn_parts))).
Proof.
  induction candidates as [|[original_br_name br_parts_set] rest IH];
    intros best hb Hk.
  - left. split; [reflexivity | intros d []].
  - cbn [fuzzy_scan]. destruct br_parts_set as [|w ws].
    { apply scan_result_skip; [discriminate | apply IH, Hk]. }
    set (c := (original_br_name, w :: ws)).
    set (m := count_matches espn_parts (w :: ws)).
    assert (Hm : m <= length espn_parts) by apply count_matches_le.
    assert (Sc : scored espn_parts min_match_score c
                 = (min_match_score <=? float_of_nat m)%float)
      by reflexivity.
    destruct (min_match_score <=? float_of_nat m)%float eqn:T.
    2:{ apply scan_result_skip; [rewrite Sc; discriminate | apply IH, Hk]. }
    change (float_of_nat m / float_of_nat (length espn_parts))%float
      with (score_of m (length espn_parts)).
    rewrite (highest_below hb m Hk Hm).
    destruct (below hb m) eqn:Bl.
    2:{ apply scan_result_skip; [intros _; exact Bl | apply IH, Hk]. }
    destruct (score_facts (length espn_parts) m m Hparts Hm Hm)
      as [_ [E1 _]].
    rewrite E1. destruct (m =? length espn_parts) eqn:En.
    + apply Nat.eqb_eq in En. right. exists [], c, rest.
      repeat split; try assumption; [intros d [] | ].
      intros d _ _. change (count_matches espn_parts (snd c)) with m.
      rewrite En. apply count_matches_le.
    + apply Nat.eqb_neq in En.
      assert (Hk' : forall k, Some m = Some k -> k <= length espn_parts).
      { intros k [= <-]. exact Hm. }
      destruct (IH (Some original_br_name) (Some m) Hk')
        as [[Hr Hall] | [pre [c' [post [E [Hr [Hs [Hb [Hpre Hpost]]]]]]]]].
      * right. exists [], c, rest.
        repeat split; try assumption; [intros d [] | ].
        intros d Hd Hsd. specialize (Hall d Hd Hsd). simpl in Hall.
        apply Nat.ltb_ge in Hall. exact Hall.
      * right. exists (c :: pre), c', post. subst rest.
        simpl in Hb. apply Nat.ltb_lt in Hb.
        repeat split; try assumption.
        -- destruct hb as [k|]; [|reflexivity]. simpl in *.
           apply Nat.ltb_lt in Bl. apply Nat.ltb_lt. lia.
        -- intros d [<- | Hd] Hsd; [exact Hb | auto].
Qed.

End Scan.

Lemma scored_meets_threshold (espn_parts : list str) (c : cell * list str) :
  1 <= length espn_parts <= max_tokens ->
  scored espn_parts
         (float_of_nat (length espn_parts) * default_threshold)%float c
  = meets_threshold espn_parts default_threshold c.
Proof.
  intros H. unfold scored, meets_threshold. destruct (snd c); [|reflexivity].
  rewrite count_matches_nil. symmetry.
  apply (score_facts (length espn_parts) 0 0 H); lia.
Qed.

(** C6: for a secondary name of at most [max_tokens] words, the matcher
    returns the candidate with the strictly highest score among those that
    meet the threshold, the earliest one when several reach that score:
    every candidate before it that meets the threshold has a strictly
    lower score and none after it has a higher one.  It returns nothing
    exactly when no candidate meets the threshold, or when the name has no
    words.  The result is a function of the name, the candidate list in
    its order, and the threshold. *)
Theorem fuzzy_name_match_best
    (espn_name : cell) (candidates : list (cell * list str)) :
  length (name_parts espn_name) <= max_tokens ->
  (name_parts espn_name = [] ->
   fuzzy_name_match espn_name candidates default_threshold = None)
  /\ (name_parts espn_name <> [] ->
      match fuzzy_name_match espn_name candidates default_threshold with
      | None =>
          forall d, In d candidates ->
                    meets_threshold (name_parts espn_name)
                                    default_threshold d = false
      | Some best =>
          exists pre c post,
            candidates = pre ++ c :: post
            /\ best = fst c
            /\ meets_threshold (name_parts espn_name) default_threshold c
               = true
            /\ (forall d, In d pre ->
                   meets_threshold (name_parts espn_name)
                                   default_threshold d = true ->
                   (score (name_parts espn_name) d
                    <? score (name_parts espn_name) c)%float = true)
            /\ (forall d, In d post ->
                   meets_threshold (name_parts espn_name)
                                   default_threshold d = true ->
                   (score (name_parts espn_name) c
                    <? score (name_parts espn_name) d)%float = false)
      end).
Proof.
  intros Hmax. unfold name_parts in *. split.
  - intros E. unfold fuzzy_name_match.
    destruct (normalize_name espn_name); [reflexivity|].
    rewrite E. reflexivity.
  - intros Hne.
    assert (Hn : 1 <= length (split (normalize_name espn_name)) <= max_tokens).
    { split; [|exact Hmax].
      destruct (split (normalize_name espn_name)); [congruence | simpl; lia]. }
    assert (R : fuzzy_name_match espn_name candidates default_threshold
                = fuzzy_scan (split (normalize_name espn_name))
                    (float_of_nat (length (split (normalize_name espn_name)))
                     * default_threshold)%float
                    candidates None
                    (highest_of None
                       (length (split (normalize_name espn_name))))).
    { unfold fuzzy_name_match. clear Hn Hmax.
      destruct (normalize_name espn_name) as [|x key];
        [exfalso; apply Hne; reflexivity|].
      destruct (split (x :: key)); [congruence | reflexivity]. }
    rewrite R. clear R.
    set (parts := split (normalize_name espn_name)) in *.
    assert (C : forall a b,
               (score parts a <? score parts b)%float
               = (count_matches parts (snd a) <? count_matches parts (snd b))).
    { intros a b. unfold score.
      apply (score_facts (length parts) _ _ Hn); apply count_matches_le. }
    destruct (fuzzy_scan_result parts
                (float_of_nat (length parts) * default_threshold)%float
                Hn candidates None None)
      as [[-> Hall] | [pre [c [post [E [-> [Hs [_ [Hpre Hpost]]]]]]]]].
    + intros k H. discriminate.
    + intros d Hd.
      destruct (meets_threshold parts default_threshold d) eqn:M;
        [|reflexivity].
      rewrite <- (scored_meets_threshold parts d Hn) in M.
      specialize (Hall d Hd M). discriminate.
    + exists pre, c, post.
      rewrite (scored_meets_threshold parts c Hn) in Hs.
      repeat split; try assumption.
      * intros d Hd M. rewrite C. apply Nat.ltb_lt, Hpre; [exact Hd|].
        rewrite (scored_meets_threshold parts d Hn). exact M.
      * intros d Hd M. rewrite C. apply Nat.ltb_ge, Hpost; [exact Hd|].
        rewrite (scored_meets_threshold parts d Hn). exact M.
Qed.

Lemma fuzzy_name_match_best_witness :
  exists pre c post,
    sample_candidates = pre ++ c :: post
    /\ Str (txt "LeBron James") = fst c
    /\ meets_threshold (name_parts (Str (txt "James, Lebron")))
                       default_threshold c = true
    /\ (forall d, In d pre ->
           meets_threshold (name_parts (Str (txt "James, Lebron")))
                           default_threshold d = true ->
           (score (name_parts (Str (txt "James, Lebron"))) d
            <? score (name_parts (Str (txt "James, Lebron"))) c)%float
           = true)
    /\ (forall d, In d post ->
           meets_threshold (name_parts (Str (txt "James, Lebron")))
                           default_threshold d = true ->
           (score (name_parts (Str (txt "James, Lebron"))) c
            <? score (name_parts (Str (txt "James, Lebron"))) d)%float
           = false).
Proof.
  assert (H : length (name_parts (Str (txt "James, Lebron"))) <= max_tokens).
  { apply Nat.leb_le. vm_compute. reflexivity. }
  assert (N : name_parts (Str (txt "James, Lebron")) <> [])
    by (vm_compute; discriminate).
  exact (proj2 (fuzzy_name_match_best (Str (txt "James, Lebron"))
                                      sample_candidates H) N).
Defined.

(** ** The merge as a whole *)

Lemma bind_Returned (A B : Type) (m : result A) (f : A -> result B) (b : B) :
  bind m f = Returned b -> exists a, m = Returned a /\ f a = Returned b.
Proof.
  destruct m as [a|e]; simpl; [eauto | discriminate].
Qed.

Lemma dict_mem_set (V : Type) (k k' : str) (v : V) (d : dict str V) :
  dict_mem str_eqb k d = true ->
  dict_mem str_eqb k (dict_set str_eqb k' v d) = true.
Proof.
  intros H. apply (dict_mem_In str_eqb str_eqb_eq).
  apply (dict_mem_In str_eqb str_eqb_eq) in H.
  rewrite dict_set_keys. destruct (dict_mem str_eqb k' d); [exact H|].
  apply in_or_app. left. exact H.
Qed.

Lemma dict_mem_set_same (V : Type) (k : str) (v : V) (d : dict str V) :
  dict_mem str_eqb k (dict_set str_eqb k v d) = true.
Proof.
  apply (dict_mem_get str_eqb). exists v.
  apply (dict_get_set_same str_eqb str_eqb_eq).
Qed.

Lemma df_getitem_returns (col : string) (df : DataFrame) :
  has_column col df -> exists v, df_getitem col df = Returned v.
Proof.
  intros H. unfold df_getitem.
  destruct (has_key_getitem col (df_columns df) H) as [v ->].
  simpl. eauto.
Qed.

Lemma df_setitem_column (col col' : string) (v : list cell)
    (df : DataFrame) :
  has_column col df -> has_column col (df_setitem col' v df).
Proof. apply dict_mem_set. Qed.

Lemma df_setitem_same (col : string) (v : list cell) (df : DataFrame) :
  has_column col (df_setitem col v df).
Proof. apply dict_mem_set_same. Qed.

Lemma df_apply_returns (col : string) (f : cell -> str) (df : DataFrame) :
  has_column col df ->
  exists df', df_apply col f df = Returned df'
              /\ df_len df' = df_len df
              /\ forall c, has_column c df -> has_column c df'.
Proof.
  intros H. unfold df_apply.
  destruct (df_getitem_returns col df H) as [v ->]. simpl.
  eexists. split; [reflexivity|]. split; [reflexivity|].
  intros c Hc. apply df_setitem_column, Hc.
Qed.

Lemma dict_mem_filter (V : Type) (g : str * V -> bool) (k : str)
    (d : dict str V) :
  (forall p, fst p = k -> g p = true) ->
  dict_mem str_eqb k d = true -> dict_mem str_eqb k (filter g d) = true.
Proof.
  intros Hg H. unfold dict_mem in *. apply existsb_exists in H as [p [Hp E]].
  apply existsb_exists. exists p. split; [|exact E].
  apply filter_In. split; [exact Hp|]. apply Hg, str_eqb_eq, E.
Qed.

Lemma df_drop_keeps_name (df : DataFrame) :
  has_column "Name" df -> has_column "Name" (df_drop columns_to_remove_br df).
Proof.
  intros H. unfold has_column, df_drop. cbn [df_columns].
  apply dict_mem_filter; [|exact H].
  intros p ->. reflexivity.
Qed.

Lemma iterrows_keys (df : DataFrame) (key : string) :
  has_column key df -> Forall (has_key key) (iterrows df).
Proof.
  intros H. apply Forall_forall. intros r Hr.
  unfold iterrows in Hr. apply in_map_iff in Hr as [i [<- _]].
  unfold has_key, df_row. unfold has_column in H.
  apply (dict_mem_In str_eqb str_eqb_eq).
  apply (dict_mem_In str_eqb str_eqb_eq) in H.
  rewrite map_map. exact H.
Qed.

Lemma build_br_lookup_values (P : row -> Prop) (rows : list row)
    (br_lookup : dict cell row) :
  Forall (has_key "Normalized_Name") rows -> Forall P rows ->
  build_br_lookup rows [] = Returned br_lookup ->
  forall k info, dict_get cell_eqb k br_lookup = Some info -> P info.
Proof.
  intros Hk HP Hb k info Hget.
  destruct (build_br_lookup_get rows Hk []) as [lk [Hlk Hspec]].
  rewrite Hlk in Hb. injection Hb as ->.
  rewrite Hspec in Hget. simpl in Hget.
  destruct (truthy k); [|discriminate].
  apply find_some in Hget as [Hin _].
  rewrite Forall_forall in HP. apply HP, Hin.
Qed.

Lemma merge_found_returns (st : merge_state) (espn_row : row)
    (espn_normalized : cell) (info : option row) (exact fuzzy : nat) :
  (forall i, info = Some i -> has_key "Name" i) ->
  has_key "Player" espn_row -> has_key "RK" espn_row ->
  has_key "PTS" espn_row ->
  exists st',
    match info with
    | Some ((_ :: _) as i) =>
        ordered_entry <- _create_ordered_merged_player_entry i espn_row ;;
        Returned {| merged_data := merged_data st ++ [ordered_entry];
                    unmatched_players := unmatched_players st;
                    exact_matches := exact_matches st + exact;
                    fuzzy_matches := fuzzy_matches st + fuzzy |}
    | _ =>
        player <- getitem "Player" espn_row ;;
        rk <- getitem "RK" espn_row ;;
        pts <- getitem "PTS" espn_row ;;
        Returned {| merged_data := merged_data st;
                    unmatched_players :=
                      unmatched_players st ++
                      [[(txt "ESPN_Player", player); (txt "ESPN_Rank", rk);
                        (txt "ESPN_Points", pts);
                        (txt "Normalized_Name", espn_normalized)]];
                    exact_matches := exact_matches st + exact;
                    fuzzy_matches := fuzzy_matches st + fuzzy |}
    end = Returned st'.
Proof.
  intros Hinfo Hp Hr Hs.
  destruct (has_key_getitem _ _ Hp) as [player Gp].
  destruct (has_key_getitem _ _ Hr) as [rk Gr].
  destruct (has_key_getitem _ _ Hs) as [pts Gs].
  destruct info as [[|p i]|].
  - rewrite Gp, Gr, Gs. simpl. eauto.
  - destruct (has_key_getitem _ _ (Hinfo _ eq_refl)) as [name Gn].
    rewrite (create_entry_returns _ _ name rk pts Gn Gr Gs). simpl. eauto.
  - rewrite Gp, Gr, Gs. simpl. eauto.
Qed.

Lemma merge_step_returns (br_lookup : dict cell row)
    (prepped : list (cell * list str)) (st : merge_state) (espn_row : row) :
  (forall k info, dict_get cell_eqb k br_lookup = Some info ->
                  has_key "Name" info) ->
  has_key "Normalized_ESPN_Name" espn_row ->
  has_key "Player" espn_row -> has_key "RK" espn_row ->
  has_key "PTS" espn_row ->
  exists st', merge_step br_lookup prepped st espn_row = Returned st'.
Proof.
  intros Hlk Hn Hp Hr Hs. unfold merge_step.
  destruct (has_key_getitem _ _ Hn) as [c ->]. cbn [bind].
  destruct (has_key_getitem _ _ Hp) as [player Gp].
  assert (F : forall k i, dict_get cell_eqb k br_lookup = Some i ->
                          has_key "Name" i) by exact Hlk.
  match goal with
  | |- exists st', bind _ ?K = _ => set (k := K)
  end.
  destruct (truthy c && dict_mem cell_eqb c br_lookup).
  - subst k. cbn [bind].
    apply (merge_found_returns st espn_row c
             (dict_get cell_eqb c br_lookup) 1 0); try assumption.
    intros i Hi. exact (F c i Hi).
  - rewrite Gp. cbn [bind].
    destruct (fuzzy_name_match player prepped default_threshold) as [b|].
    + destruct (truthy b).
      * destruct (dict_mem cell_eqb (Str (normalize_name b)) br_lookup).
        -- subst k. cbn [bind].
           apply (merge_found_returns st espn_row c
                    (dict_get cell_eqb (Str (normalize_name b)) br_lookup)
                    0 1); try assumption.
           intros i Hi. exact (F _ i Hi).
        -- subst k. cbn [bind].
           apply (merge_found_returns st espn_row c None 0 0);
             try assumption.
           discriminate.
      * subst k. cbn [bind].
        apply (merge_found_returns st espn_row c None 0 0); try assumption.
        discriminate.
    + subst k. cbn [bind].
      apply (merge_found_returns st espn_row c None 0 0); try assumption.
      discriminate.
Qed.

Lemma merge_loop_returns (br_lookup : dict cell row)
    (prepped : list (cell * list str)) (espn_rows : list row) :
  (forall k info, dict_get cell_eqb k br_lookup = Some info ->
                  has_key "Name" info) ->
  Forall (has_key "Normalized_ESPN_Name") espn_rows ->
  Forall (has_key "Player") espn_rows -> Forall (has_key "RK") espn_rows ->
  Forall (has_key "PTS") espn_rows ->
  forall st, exists st',
    merge_loop br_lookup prepped espn_rows st = Returned st'.
Proof.
  intros Hlk Hn. induction Hn as [|r rows Hr Hrows IH];
    intros Hp Hk Hs st.
  - simpl. eauto.
  - inversion Hp; inversion Hk; inversion Hs; subst.
    cbn [merge_loop].
    destruct (merge_step_returns br_lookup prepped st r Hlk Hr)
      as [st1 ->]; try assumption.
    cbn [bind]. apply IH; assumption.
Qed.

Lemma dict_get_map_values (V W : Type) (h : V -> W) (k : str)
    (d : dict str V) :
  dict_get str_eqb k (map (fun p => (fst p, h (snd p))) d)
  = option_map h (dict_get str_eqb k d).
Proof.
  unfold dict_get. induction d as [|p d IH]; simpl; [reflexivity|].
  destruct (str_eqb (fst p) k); [reflexivity | exact IH].
Qed.

(** In the frame the index is built from, each row carries the normalized
    form of its own name. *)
Lemma normalized_name_of_row (br_df : DataFrame) (names : list cell)
    (i : nat) :
  df_getitem "Name" br_df = Returned names -> i < df_len br_df ->
  dict_get str_eqb (txt "Normalized_Name")
           (df_row (df_setitem "Normalized_Name"
                               (series_apply normalize_name names) br_df) i)
  = Some (Str (normalize_name (nth i names NA))).
Proof.
  intros Hn Hi. unfold df_row, df_setitem. cbn [df_columns].
  rewrite (dict_get_map_values _ _ (fun v => nth i v NA)).
  rewrite (dict_get_set_same str_eqb str_eqb_eq). cbn [option_map].
  f_equal. unfold series_apply.
  assert (L : length names = df_len br_df).
  { unfold df_getitem in Hn. apply bind_Returned in Hn as [v [_ Hv]].
    injection Hv as <-. unfold series_of.
    rewrite length_map, length_seq. reflexivity. }
  rewrite (nth_indep _ NA (Str (normalize_name NA)))
    by (rewrite length_map; lia).
  apply (map_nth (fun c => Str (normalize_name c))).
Qed.

Lemma merge_frames_returns (br_df espn_df : DataFrame) :
  has_column "Born_Location" br_df -> has_column "Born_Date" br_df ->
  has_column "NBA_Debut" br_df -> has_column "Height_Imperial" br_df ->
  has_column "Name" br_df ->
  has_column "Player" espn_df -> has_column "RK" espn_df ->
  has_column "PTS" espn_df ->
  exists merged unmatched stats,
    merge_frames br_df espn_df = Returned (merged, unmatched, stats).
Proof.
  intros B1 B2 B3 B4 Bn Ep Er Es. unfold merge_frames.
  destruct (df_apply_returns "Born_Location" format_born_location br_df B1)
    as [df1 [-> [_ C1]]]. cbn [bind].
  destruct (df_apply_returns "Born_Date" standardize_date_format df1
                             (C1 _ B2)) as [df2 [-> [_ C2]]]. cbn [bind].
  destruct (df_apply_returns "NBA_Debut" standardize_date_format df2
                             (C2 _ (C1 _ B3))) as [df3 [-> [_ C3]]].
  cbn [bind].
  destruct (df_apply_returns "Height_Imperial" standardize_height_imperial
                             df3 (C3 _ (C2 _ (C1 _ B4))))
    as [df4 [-> [_ C4]]]. cbn [bind].
  pose proof (df_drop_keeps_name df4 (C4 _ (C3 _ (C2 _ (C1 _ Bn))))) as N5.
  set (df5 := df_drop columns_to_remove_br df4) in *.
  destruct (df_getitem_returns "Name" df5 N5) as [names ->]. cbn [bind].
  set (df6 := df_setitem "Normalized_Name"
                         (series_apply normalize_name names) df5).
  assert (K6 : has_column "Normalized_Name" df6) by apply df_setitem_same.
  assert (N6 : has_column "Name" df6) by apply df_setitem_column, N5.
  pose proof (iterrows_keys df6 "Normalized_Name" K6) as RK6.
  pose proof (iterrows_keys df6 "Name" N6) as RN6.
  destruct (build_br_lookup_get (iterrows df6) RK6 []) as [lk [Hlk _]].
  rewrite Hlk. cbn [bind].
  destruct (df_getitem_returns "Name" df6 N6) as [names' ->]. cbn [bind].
  destruct (df_getitem_returns "Player" espn_df Ep) as [players ->].
  cbn [bind].
  set (espn1 := df_setitem "Normalized_ESPN_Name"
                           (series_apply normalize_name players) espn_df).
  assert (E1 : has_column "Normalized_ESPN_Name" espn1)
    by apply df_setitem_same.
  assert (E2 : has_column "Player" espn1) by apply df_setitem_column, Ep.
  assert (E3 : has_column "RK" espn1) by apply df_setitem_column, Er.
  assert (E4 : has_column "PTS" espn1) by apply df_setitem_column, Es.
  destruct (merge_loop_returns lk (prep_fuzzy (unique (dropna names')))
              (iterrows espn1)
              (build_br_lookup_values (has_key "Name") (iterrows df6) lk
                                      RK6 RN6 Hlk)
              (iterrows_keys espn1 _ E1) (iterrows_keys espn1 _ E2)
              (iterrows_keys espn1 _ E3) (iterrows_keys espn1 _ E4)
              {| merged_data := []; unmatched_players := [];
                 exact_matches := 0; fuzzy_matches := 0 |})
    as [st ->].
  cbn [bind]. eauto.
Qed.

Lemma merge_frames_percentage (br_df espn_df : DataFrame)
    (merged unmatched : list row) (stats : dict str stat) :
  merge_frames br_df espn_df = Returned (merged, unmatched, stats) ->
  getitem "match_percentage" stats
  = Returned (Percent (match_percentage (length merged) (df_len espn_df))).
Proof.
  unfold merge_frames. intros H.
  repeat (apply bind_Returned in H; destruct H as [? [_ H]]).
  injection H as <- <- <-. reflexivity.
Qed.

(** C9: for two loaded frames, the stats record of a run gives as match
    percentage the number of merged records divided by the number of
    secondary rows, times 100 in binary64 arithmetic, and 0.0 when the
    secondary frame has no rows; the run returns such a record whenever
    the frames have the columns the engine reads.  Seven merged records
    for ten secondary rows give exactly 70.0. *)
Theorem match_percentage_spec
    (read_csv : str -> option DataFrame) (br_csv_path espn_csv_path : str)
    (br_df espn_df : DataFrame) :
  read_csv br_csv_path = Some br_df ->
  read_csv espn_csv_path = Some espn_df ->
  (forall merged unmatched stats,
      clean_and_merge_player_data read_csv br_csv_path espn_csv_path
      = Returned (merged, unmatched, stats) ->
      getitem "match_percentage" stats
      = Returned (Percent (match_percentage (length merged)
                                            (df_len espn_df))))
  /\ (has_column "Born_Location" br_df -> has_column "Born_Date" br_df ->
      has_column "NBA_Debut" br_df -> has_column "Height_Imperial" br_df ->
      has_column "Name" br_df ->
      has_column "Player" espn_df -> has_column "RK" espn_df ->
      has_column "PTS" espn_df ->
      exists merged unmatched stats,
        clean_and_merge_player_data read_csv br_csv_path espn_csv_path
        = Returned (merged, unmatched, stats))
  /\ (forall matched total,
         0 < total ->
         match_percentage matched total
         = (float_of_nat matched / float_of_nat total * 100)%float)
  /\ (forall matched, match_percentage matched 0 = 0%float)
  /\ match_percentage 7 10 = 70%float.
Proof.
  intros Hbr Hespn.
  assert (R : clean_and_merge_player_data read_csv br_csv_path espn_csv_path
              = merge_frames br_df espn_df).
  { unfold clean_and_merge_player_data. rewrite Hbr, Hespn. reflexivity. }
  rewrite R. split; [|split; [|split; [|split]]].
  - intros merged unmatched stats. apply merge_frames_percentage.
  - apply merge_frames_returns.
  - intros matched total Ht. unfold match_percentage.
    apply Nat.ltb_lt in Ht. rewrite Ht. reflexivity.
  - reflexivity.
  - vm_compute. reflexivity.
Qed.

Lemma match_percentage_spec_witness :
  exists merged unmatched stats,
    clean_and_merge_player_data sample_read_csv (txt "br.csv")
                                (txt "espn.csv")
    = Returned (merged, unmatched, stats)
    /\ length merged = 7
    /\ df_len sample_espn_df = 10
    /\ getitem "match_percentage" stats = Returned (Percent 70%float).
Proof.
  destruct (match_percentage_spec sample_read_csv (txt "br.csv")
              (txt "espn.csv") sample_br_df sample_espn_df
              eq_refl eq_refl) as [Hpct [Hret _]].
  destruct Hret as [merged [unmatched [stats E]]]; try reflexivity.
  exists merged, unmatched, stats.
  pose proof (Hpct _ _ _ E) as P.
  split; [exact E|].
  assert (L : length merged = 7).
  { vm_compute in E. injection E as <- _ _. reflexivity. }
  split; [exact L|]. split; [reflexivity|].
  rewrite P, L. reflexivity.
Defined.

(** ** The shape of normalized names *)

Lemma single_spaced_blank (s : str) :
  single_spaced s = true ->
  Forall (fun c => is_space c = true -> c = " "%char) s.
Proof.
  induction s as [|c t IH]; [constructor|].
  cbn [single_spaced]. intros H. apply andb_prop in H as [H1 H2].
  constructor; [|exact (IH H2)].
  intros Hc. rewrite Hc in H1. cbn [negb orb] in H1.
  apply andb_prop in H1 as [E _]. apply Ascii.eqb_eq, E.
Qed.

Lemma not_punctuation (c : ascii) :
  is_punctuation c = false ->
  is_word c = true \/ is_space c = true \/ c = "'"%char.
Proof.
  unfold is_punctuation. intros H. apply negb_false_iff in H.
  apply orb_prop in H as [H | H].
  - apply orb_prop in H as [H | H]; auto.
  - right. right. apply Ascii.eqb_eq, H.
Qed.

Lemma strip_starts (s : str) : starts_space (strip s) = false.
Proof.
  pose proof (strip_lstrip s) as H.
  destruct (strip s) as [|c t] eqn:E; [reflexivity|].
  simpl. rewrite <- E in H. exact (lstrip_head _ _ _ (eq_trans H E)).
Qed.

Lemma strip_ends (s : str) : starts_space (rev (strip s)) = false.
Proof.
  unfold strip, rstrip. rewrite rev_involutive.
  destruct (lstrip (rev (lstrip s))) as [|c t] eqn:E; [reflexivity|].
  simpl. exact (lstrip_head _ _ _ E).
Qed.

(** X1: every result of [normalize_name] is a key in lower case, made of
    word characters, apostrophes and single spaces: lower-casing it
    changes nothing, it holds no punctuation, a blank in it is one space
    with no blank next to it, and there is none at its ends. *)
Theorem normalize_name_key_shape (name : cell) :
  lower (normalize_name name) = normalize_name name
  /\ Forall key_letter (normalize_name name)
  /\ single_spaced (normalize_name name) = true
  /\ starts_space (normalize_name name) = false
  /\ starts_space (rev (normalize_name name)) = false.
Proof.
  destruct (normalize_name_canonical name) as [Hk [Hs Ht]].
  split; [|split; [|split; [exact Hs|split]]].
  - apply lower_fixed. revert Hk. apply Forall_impl. intros c [Hu _].
    exact Hu.
  - pose proof (single_spaced_blank _ Hs) as Hb.
    rewrite Forall_forall in *. intros c Hc.
    destruct (Hk c Hc) as [Hu Hp]. unfold key_letter.
    destruct (not_punctuation c Hp) as [H | [H | H]]; auto.
  - rewrite <- Ht. apply strip_starts.
  - rewrite <- Ht. apply strip_ends.
Qed.

Lemma split_from_nonempty (s : str) (cur : str) :
  cur <> [] -> split_from cur s <> [].
Proof.
  revert cur. induction s as [|c t IH]; intros cur Hc; simpl.
  - destruct cur; [congruence | discriminate].
  - destruct (is_space c).
    + destruct cur; [congruence | discriminate].
    + apply IH. discriminate.
Qed.

Lemma join_cons (sep w : str) (rest : list str) :
  rest <> [] -> join sep (w :: rest) = w ++ sep ++ join sep rest.
Proof. destruct rest; [congruence | reflexivity]. Qed.

Lemma join_split_from (s : str) :
  single_spaced s = true -> starts_space (rev s) = false ->
  forall cur,
    cur <> [] \/ starts_space s = false ->
    join [" "%char] (split_from cur s) = rev cur ++ s.
Proof.
  induction s as [|c t IH]; intros Hs He cur Hc.
  - simpl. destruct cur; [reflexivity|]. rewrite app_nil_r. reflexivity.
  - cbn [single_spaced] in Hs. apply andb_prop in Hs as [H1 H2].
    assert (He' : t <> [] -> starts_space (rev t) = false).
    { intros Hne. simpl in He. destruct (rev t) as [|x r] eqn:E.
      - apply (f_equal (@rev ascii)) in E. rewrite rev_involutive in E.
        simpl in E. congruence.
      - exact He. }
    cbn [split_from]. destruct (is_space c) eqn:Sc.
    + cbn [negb orb] in H1. apply andb_prop in H1 as [E Hn].
      apply Ascii.eqb_eq in E. subst c. apply negb_true_iff in Hn.
      destruct Hc as [Hc | Hc]; [|simpl in Hc; congruence].
      assert (Ht : t <> []).
      { intros ->. simpl in He. discriminate. }
      destruct cur as [|x cur]; [congruence|].
      assert (Hw : split_from [] t <> []).
      { destruct t as [|d t]; [congruence|].
        cbn [starts_space] in Hn. cbn [split_from]. rewrite Hn.
        apply split_from_nonempty. discriminate. }
      rewrite (join_cons _ _ _ Hw).
      rewrite (IH H2 (He' Ht) [] (or_intror Hn)). reflexivity.
    + rewrite IH.
      * simpl. rewrite <- app_assoc. reflexivity.
      * exact H2.
      * destruct t as [|d t]; [reflexivity|]. apply He'. discriminate.
      * left. discriminate.
Qed.

(** X2: the words the matcher takes from a normalized name, joined by
    single spaces, give the normalized name back: splitting it loses
    nothing. *)
Theorem normalize_name_words_round_trip (name : cell) :
  join (txt " ") (split (normalize_name name)) = normalize_name name.
Proof.
  destruct (normalize_name_canonical name) as [_ [Hs Ht]].
  unfold split. change (txt " ") with [" "%char].
  rewrite join_split_from.
  - reflexivity.
  - exact Hs.
  - rewrite <- Ht. apply strip_ends.
  - right. rewrite <- Ht. apply strip_starts.
Qed.

(** ** Candidates and the threshold *)

Lemma fuzzy_scan_candidate (espn_parts : list str) (min_match_score : float)
    (candidates : list (cell * list str)) :
  forall best highest r,
    fuzzy_scan espn_parts min_match_score candidates best highest = Some r ->
    best = Some r
    \/ exists c, In c candidates /\ r = fst c
                 /\ scored espn_parts min_match_score c = true.
Proof.
  induction candidates as [|[original_br_name br_parts_set] rest IH];
    intros best highest r H.
  - left. exact H.
  - assert (Step : forall b h,
               fuzzy_scan espn_parts min_match_score rest b h = Some r ->
               b = best \/ (b = Some original_br_name
                            /\ scored espn_parts min_match_score
                                      (original_br_name, br_parts_set) = true) ->
               best = Some r
               \/ exists c, In c ((original_br_name, br_parts_set) :: rest)
                            /\ r = fst c
                            /\ scored espn_parts min_match_score c = true).
    { intros b h Hr Hb. destruct (IH b h r Hr) as [E | [c [Hc [E S]]]].
      - destruct Hb as [-> | [-> S]]; [left; exact E|].
        right. exists (original_br_name, br_parts_set).
        injection E as <-. split; [left; reflexivity|]. split; auto.
      - right. exists c. split; [right; exact Hc|]. split; assumption. }
    cbn [fuzzy_scan] in H. destruct br_parts_set as [|w ws].
    { apply (Step _ _ H). left. reflexivity. }
    assert (Sc : scored espn_parts min_match_score (original_br_name, w :: ws)
                 = (min_match_score
                    <=? float_of_nat (count_matches espn_parts (w :: ws)))%float)
      by reflexivity.
    destruct (min_match_score
              <=? float_of_nat (count_matches espn_parts (w :: ws)))%float.
    2:{ apply (Step _ _ H). left. reflexivity. }
    destruct (highest <? _)%float.
    2:{ apply (Step _ _ H). left. reflexivity. }
    destruct (_ =? 1)%float.
    + injection H as <-. right. exists (original_br_name, w :: ws).
      split; [left; reflexivity|]. split; [reflexivity | exact Sc].
    + apply (Step _ _ H). right. split; [reflexivity | exact Sc].
Qed.

(** X3: whatever the threshold, a name returned by the fuzzy matcher is
    the name of one of the candidates it was given, whose set of words is
    not empty and which passes the threshold test on the words of the
    secondary name: the matcher invents no name. *)
Theorem fuzzy_name_match_returns_candidate
    (espn_name : cell) (candidates : list (cell * list str))
    (threshold : float) (best : cell) :
  fuzzy_name_match espn_name candidates threshold = Some best ->
  exists c,
    In c candidates /\ best = fst c /\ snd c <> []
    /\ meets_threshold (name_parts espn_name) threshold c = true.
Proof.
  unfold fuzzy_name_match, name_parts.
  destruct (normalize_name espn_name) as [|x key]; [discriminate|].
  destruct (split (x :: key)) as [|p ps] eqn:P; [discriminate|].
  intros H. apply fuzzy_scan_candidate in H as [H | [c [Hc [E S]]]];
    [discriminate|].
  exists c. split; [exact Hc|]. split; [exact E|].
  unfold scored in S. unfold meets_threshold.
  destruct (snd c); [discriminate|]. split; [discriminate | exact S].
Qed.

Lemma fuzzy_name_match_returns_candidate_witness :
  exists c,
    In c sample_candidates /\ Str (txt "LeBron James") = fst c
    /\ snd c <> []
    /\ meets_threshold (name_parts (Str (txt "James, Lebron")))
                       default_threshold c = true.
Proof.
  apply (fuzzy_name_match_returns_candidate
           (Str (txt "James, Lebron")) sample_candidates default_threshold).
  vm_compute. reflexivity.
Defined.

Lemma threshold_exact_checked :
  forallb threshold_exact (seq 1 max_tokens) = true.
Proof. vm_compute. reflexivity. Qed.

Lemma threshold_facts (total m : nat) :
  1 <= total <= max_tokens -> m <= total ->
  (float_of_nat total * default_threshold <=? float_of_nat m)%float
  = (4 * total <=? 5 * m).
Proof.
  intros Ht Hm. pose proof threshold_exact_checked as C.
  rewrite forallb_forall in C. specialize (C total).
  assert (I : In total (seq 1 max_tokens)) by (apply in_seq; lia).
  apply C in I. unfold threshold_exact in I. rewrite forallb_forall in I.
  apply eqb_prop, I, in_seq. lia.
Qed.

(** X4: with the default threshold and a secondary name of at most
    [max_tokens] words, the binary64 threshold test is the test
    [4 * words <= 5 * matches] on integers: a candidate qualifies exactly
    when at least four fifths of the words of the name are in its set,
    and a single candidate with a non-empty set is returned on that
    condition alone. *)
Theorem fuzzy_name_match_four_fifths
    (espn_name : cell) (c : cell * list str) :
  name_parts espn_name <> [] ->
  length (name_parts espn_name) <= max_tokens ->
  meets_threshold (name_parts espn_name) default_threshold c
  = (4 * length (name_parts espn_name)
     <=? 5 * count_matches (name_parts espn_name) (snd c))
  /\ fuzzy_name_match espn_name [c] default_threshold
     = match snd c with
       | [] => None
       | _ :: _ =>
           if 4 * length (name_parts espn_name)
              <=? 5 * count_matches (name_parts espn_name) (snd c)
           then Some (fst c) else None
       end.
Proof.
  intros Hne Hmax. unfold name_parts in *.
  assert (Hn : 1 <= length (split (normalize_name espn_name)) <= max_tokens).
  { split; [|exact Hmax].
    destruct (split (normalize_name espn_name)); [congruence | simpl; lia]. }
  assert (T : forall d,
             (float_of_nat (length (split (normalize_name espn_name)))
              * default_threshold
              <=? float_of_nat
                    (count_matches (split (normalize_name espn_name)) d))%float
             = (4 * length (split (normalize_name espn_name))
                <=? 5 * count_matches (split (normalize_name espn_name)) d)).
  { intros d. apply threshold_facts; [exact Hn | apply count_matches_le]. }
  split; [apply T|].
  unfold fuzzy_name_match.
  destruct (normalize_name espn_name) as [|x key];
    [exfalso; apply Hne; reflexivity|].
  destruct (split (x :: key)) as [|p ps] eqn:P; [congruence|].
  destruct c as [original_br_name br_parts_set]. cbn [fuzzy_scan fst snd].
  destruct br_parts_set as [|w ws]; [reflexivity|].
  rewrite T.
  destruct (4 * length (p :: ps) <=? 5 * count_matches (p :: ps) (w :: ws));
    [|reflexivity].
  destruct (score_facts (length (p :: ps))
              (count_matches (p :: ps) (w :: ws))
              (count_matches (p :: ps) (w :: ws)) Hn
              (count_matches_le _ _) (count_matches_le _ _)) as [L _].
  unfold score_of in L. rewrite L.
  destruct (_ =? 1)%float; reflexivity.
Qed.

Lemma fuzzy_name_match_four_fifths_witness :
  fuzzy_name_match (Str (txt "Kareem Abdul Jabbar Jr. Smith"))
                   [(Str (txt "Kareem Abdul-Jabbar"),
                     [txt "kareem"; txt "abduljabbar"])]
                   default_threshold
  = None
  /\ fuzzy_name_match (Str (txt "Michael Jeffrey Jordan Senior Guard"))
                      [(Str (txt "Michael Jordan"),
                        [txt "michael"; txt "jeffrey"; txt "jordan";
                         txt "guard"])]
                      default_threshold
     = Some (Str (txt "Michael Jordan")).
Proof.
  split.
  - refine (proj2 (fuzzy_name_match_four_fifths
                     (Str (txt "Kareem Abdul Jabbar Jr. Smith"))
                     (Str (txt "Kareem Abdul-Jabbar"),
                      [txt "kareem"; txt "abduljabbar"]) _ _)).
    + vm_compute. discriminate.
    + apply Nat.leb_le. vm_compute. reflexivity.
  - refine (proj2 (fuzzy_name_match_four_fifths
                     (Str (txt "Michael Jeffrey Jordan Senior Guard"))
                     (Str (txt "Michael Jordan"),
                      [txt "michael"; txt "jeffrey"; txt "jordan";
                       txt "guard"]) _ _)).
    + vm_compute. discriminate.
    + apply Nat.leb_le. vm_compute. reflexivity.
Defined.

(** ** What the patterns capture *)

Lemma star_sound (A : Type) (p : ascii -> bool) (k : cont A) (s : str) :
  forall prev g x,
    star p k prev s g = Some x ->
    exists a b prev',
      s = a ++ b /\ Forall (fun c => p c = true) a /\ k prev' b g = Some x.
Proof.
  induction s as [|c t IH]; intros prev g x H; simpl in H.
  - exists [], [], prev. auto.
  - destruct (p c) eqn:Pc.
    + destruct (star p k (Some c) t g) as [y|] eqn:E.
      * injection H as ->.
        destruct (IH _ _ _ E) as [a [b [prev' [-> [Ha Hk]]]]].
        exists (c :: a), b, prev'. repeat split; auto.
      * exists [], (c :: t), prev. auto.
    + exists [], (c :: t), prev. auto.
Qed.

Lemma run_groupless (A : Type) (r : re) :
  groupless r = true ->
  forall (k : cont A) prev s g x,
    run r k prev s g = Some x -> exists prev' s', k prev' s' g = Some x.
Proof.
  induction r as [|p|a IHa b IHb|a IHa b IHb|p|a IHa|i a IHa| |];
    intros G k prev s g x H; cbn [run groupless] in *.
  - eauto.
  - destruct s as [|c t]; [discriminate|].
    destruct (p c); [eauto | discriminate].
  - apply andb_prop in G as [Ga Gb].
    destruct (IHa Ga _ _ _ _ _ H) as [prev1 [s1 H1]].
    exact (IHb Gb _ _ _ _ _ H1).
  - apply andb_prop in G as [Ga Gb].
    destruct (run a k prev s g) as [y|] eqn:E.
    + injection H as ->. exact (IHa Ga _ _ _ _ _ E).
    + exact (IHb Gb _ _ _ _ _ H).
  - apply star_sound in H as [a [b [prev' [_ [_ Hk]]]]]. eauto.
  - destruct (run a k prev s g) as [y|] eqn:E.
    + injection H as ->. exact (IHa G _ _ _ _ _ E).
    + eauto.
  - discriminate.
  - destruct (xorb _ _); [eauto | discriminate].
  - destruct prev; [discriminate | eauto].
Qed.

Lemma firstn_prefix (a b : str) :
  firstn (length (a ++ b) - length b) (a ++ b) = a.
Proof.
  replace (length (a ++ b) - length b) with (length a)
    by (rewrite length_app; lia).
  rewrite firstn_app, firstn_all, Nat.sub_diag. simpl.
  apply app_nil_r.
Qed.

Lemma firstn_one (c : ascii) (t : str) :
  firstn (length (c :: t) - length t) (c :: t) = [c].
Proof. exact (firstn_prefix [c] t). Qed.

Lemma firstn_two (c1 c2 : ascii) (t : str) :
  firstn (length (c1 :: c2 :: t) - length t) (c1 :: c2 :: t) = [c1; c2].
Proof. exact (firstn_prefix [c1; c2] t). Qed.

Lemma firstn_four (c1 c2 c3 c4 : ascii) (t : str) :
  firstn (length (c1 :: c2 :: c3 :: c4 :: t) - length t)
         (c1 :: c2 :: c3 :: c4 :: t) = [c1; c2; c3; c4].
Proof. exact (firstn_prefix [c1; c2; c3; c4] t). Qed.

(** What a group around [p+] captures: a non-empty run of [p]-characters
    at the cursor. *)
Lemma run_Grp_Plus_sound (A : Type) (p : ascii -> bool) (i : nat)
    (k : cont A) (prev : option ascii) (s : str) (g : groups) (x : A) :
  run (Grp i (Plus p)) k prev s g = Some x ->
  exists a b prev',
    s = a ++ b /\ a <> [] /\ Forall (fun c => p c = true) a
    /\ k prev' b ((i, a) :: g) = Some x.
Proof.
  cbn [run Plus]. destruct s as [|c t]; [discriminate|].
  destruct (p c) eqn:Pc; [|discriminate].
  intros H. apply star_sound in H as [a [b [prev' [-> [Ha Hk]]]]].
  exists (c :: a), b, prev'.
  change (c :: a ++ b) with ((c :: a) ++ b) in Hk.
  rewrite firstn_prefix in Hk.
  repeat split; auto. discriminate.
Qed.

(** What a group around [\d{1,2}] captures. *)
Lemma run_Grp_two_digits (A : Type) (i : nat) (k : cont A)
    (prev : option ascii) (s : str) (g : groups) (x : A) :
  run (Grp i (Cat (Chr is_digit) (Opt (Chr is_digit)))) k prev s g = Some x ->
  exists a b prev',
    s = a ++ b /\ digits a /\ (length a = 1 \/ length a = 2)
    /\ k prev' b ((i, a) :: g) = Some x.
Proof.
  cbn [run]. destruct s as [|c t]; [discriminate|].
  destruct (is_digit c) eqn:Dc; [|discriminate].
  assert (One : k (Some c) t ((i, [c]) :: g) = Some x ->
                exists a b prev',
                  c :: t = a ++ b /\ digits a
                  /\ (length a = 1 \/ length a = 2)
                  /\ k prev' b ((i, a) :: g) = Some x).
  { intros H. exists [c], t, (Some c).
    repeat split; auto. repeat constructor. exact Dc. }
  rewrite firstn_one.
  destruct t as [|c2 t2]; [exact One|].
  destruct (is_digit c2) eqn:Dc2; [|exact One].
  rewrite firstn_two.
  destruct (k (Some c2) t2 ((i, [c; c2]) :: g)) as [y|] eqn:E.
  - intros H. injection H as ->. exists [c; c2], t2, (Some c2).
    repeat split; auto. repeat constructor; assumption.
  - exact One.
Qed.

(** What a group around [\d{4}] captures. *)
Lemma run_Grp_four_digits (A : Type) (i : nat) (k : cont A)
    (prev : option ascii) (s : str) (g : groups) (x : A) :
  run (Grp i (times 4 (Chr is_digit))) k prev s g = Some x ->
  exists a b prev',
    s = a ++ b /\ digits a /\ length a = 4
    /\ k prev' b ((i, a) :: g) = Some x.
Proof.
  cbn [run times].
  destruct s as [|c1 [|c2 [|c3 [|c4 t]]]];
    repeat match goal with
           | |- context [if is_digit ?c then _ else _] =>
               let D := fresh "D" in
               destruct (is_digit c) eqn:D; [|discriminate]
           | |- None = Some _ -> _ => discriminate
           end.
  rewrite firstn_four. intros H.
  exists [c1; c2; c3; c4], t, (Some c4).
  repeat split; auto. repeat constructor; assumption.
Qed.

Lemma run_Cat (A : Type) (a b : re) (k : cont A) (prev : option ascii)
    (s : str) (g : groups) :
  run (Cat a b) k prev s g = run a (run b k) prev s g.
Proof. reflexivity. Qed.

Lemma month_day_year_groups (s : str) (g : groups) :
  match_ RE_MONTH_DAY_YEAR s = Some g ->
  digits (group 2 g) /\ (length (group 2 g) = 1 \/ length (group 2 g) = 2)
  /\ digits (group 3 g) /\ length (group 3 g) = 4.
Proof.
  unfold match_, match_at. intros H.
  destruct (run RE_MONTH_DAY_YEAR _ None s []) as [[s' g']|] eqn:E;
    [|discriminate].
  injection H as <-. revert E.
  unfold RE_MONTH_DAY_YEAR. cbn [chain]. rewrite run_Cat. intros E.
  apply run_Grp_Plus_sound in E as [w [b [p1 [_ [_ [_ E]]]]]].
  rewrite run_Cat in E.
  apply (run_groupless _ (Plus is_space) eq_refl) in E as [p2 [s2 E]].
  rewrite run_Cat in E.
  apply run_Grp_two_digits in E as [d [b3 [p3 [_ [Dd [Ld E]]]]]].
  rewrite run_Cat in E.
  apply (run_groupless _ (Opt (Chr (is_char ","))) eq_refl) in E
    as [p4 [s4 E]].
  rewrite run_Cat in E.
  apply (run_groupless _ (Star is_space) eq_refl) in E as [p5 [s5 E]].
  apply run_Grp_four_digits in E as [y [b6 [p6 [_ [Dy [Ly E]]]]]].
  injection E as _ <-. cbn [group find fst snd Nat.eqb].
  auto.
Qed.

Lemma slashes_groups (s : str) (g : groups) :
  match_ RE_MM_DD_YYYY s = Some g ->
  digits (group 1 g) /\ (length (group 1 g) = 1 \/ length (group 1 g) = 2)
  /\ digits (group 2 g) /\ (length (group 2 g) = 1 \/ length (group 2 g) = 2)
  /\ digits (group 3 g) /\ length (group 3 g) = 4.
Proof.
  unfold match_, match_at. intros H.
  destruct (run RE_MM_DD_YYYY _ None s []) as [[s' g']|] eqn:E;
    [|discriminate].
  injection H as <-. revert E.
  unfold RE_MM_DD_YYYY. cbn [chain]. rewrite run_Cat. intros E.
  apply run_Grp_two_digits in E as [m [b1 [p1 [_ [Dm [Lm E]]]]]].
  rewrite run_Cat in E.
  apply (run_groupless _ (Chr (is_char "/")) eq_refl) in E as [p2 [s2 E]].
  rewrite run_Cat in E.
  apply run_Grp_two_digits in E as [d [b3 [p3 [_ [Dd [Ld E]]]]]].
  rewrite run_Cat in E.
  apply (run_groupless _ (Chr (is_char "/")) eq_refl) in E as [p4 [s4 E]].
  apply run_Grp_four_digits in E as [y [b6 [p6 [_ [Dy [Ly E]]]]]].
  injection E as _ <-. cbn [group find fst snd Nat.eqb].
  auto 10.
Qed.

Lemma digit_not_sign (c : ascii) :
  implb (is_digit c) (negb (Ascii.eqb c "+" || Ascii.eqb c "-")) = true.
Proof. by_chars c. Qed.

Lemma zfill_two (s : str) :
  digits s -> length s = 1 \/ length s = 2 ->
  digits (zfill 2 s) /\ length (zfill 2 s) = 2.
Proof.
  intros D L.
  destruct (one_or_two s D L) as [[a [-> Ha]]|[a [b [-> [Ha Hb]]]]];
    pose proof (digit_not_sign a) as N; rewrite Ha in N; simpl in N;
    apply negb_true_iff in N; unfold zfill; rewrite N.
  - split; [|reflexivity]. repeat constructor. exact Ha.
  - split; [|reflexivity]. repeat constructor; assumption.
Qed.

Lemma month_table_value (k v : str) :
  table_get k MONTH_TO_NUM_MAP = Some v -> digits v /\ length v = 2.
Proof.
  unfold table_get, MONTH_TO_NUM_MAP. cbn [find fst snd].
  repeat match goal with
         | |- context [str_eqb ?a k] =>
             destruct (str_eqb a k);
             [ intros H; injection H as <-;
               split; [repeat constructor | reflexivity] | ]
         end.
  discriminate.
Qed.

Lemma standardize_date_format_stripped (date : cell) :
  isna date = false ->
  standardize_date_format date = date_of_stripped (strip (str_of date)).
Proof. intros H. unfold standardize_date_format. rewrite H. reflexivity. Qed.

Lemma date_of_stripped_cases (d : str) :
  date_of_stripped d = d
  \/ exists year month day,
       digits year /\ length year = 4 /\ digits month /\ length month = 2
       /\ digits day /\ length day = 2
       /\ date_of_stripped d = year ++ txt "-" ++ month ++ txt "-" ++ day.
Proof.
  assert (O : date_other_formats d = d
              \/ exists year month day,
                   digits year /\ length year = 4
                   /\ digits month /\ length month = 2
                   /\ digits day /\ length day = 2
                   /\ date_other_formats d
                      = year ++ txt "-" ++ month ++ txt "-" ++ day).
  { unfold date_other_formats.
    destruct (match_ RE_YYYY_MM_DD d); [left; reflexivity|].
    destruct (match_ RE_MM_DD_YYYY d) as [g|] eqn:E; [|left; reflexivity].
    destruct (slashes_groups _ _ E) as [D1 [L1 [D2 [L2 [D3 L3]]]]].
    destruct (zfill_two _ D1 L1) as [Z1 Z2].
    destruct (zfill_two _ D2 L2) as [Z3 Z4].
    right. exists (group 3 g), (zfill 2 (group 1 g)), (zfill 2 (group 2 g)).
    auto 10. }
  unfold date_of_stripped.
  destruct (match_ RE_MONTH_DAY_YEAR d) as [g|] eqn:E; [|exact O].
  destruct (table_get (lower (group 1 g)) MONTH_TO_NUM_MAP) as [num|] eqn:T;
    [|exact O].
  destruct (month_table_value _ _ T) as [Dn Ln].
  destruct num as [|n0 num]; [exact O|].
  destruct (month_day_year_groups _ _ E) as [D2 [L2 [D3 L3]]].
  destruct (zfill_two _ D2 L2) as [Z1 Z2].
  right. exists (group 3 g), (n0 :: num), (zfill 2 (group 2 g)). auto 10.
Qed.

(** X5: formatting a date twice gives what formatting it once gives,
    whatever the cell: a result of [standardize_date_format] is left as it
    is by the formatter. *)
Theorem standardize_date_format_idempotent (date : cell) :
  standardize_date_format (Str (standardize_date_format date))
  = standardize_date_format date.
Proof.
  destruct (isna date) eqn:N.
  { assert (E : standardize_date_format date = []).
    { unfold standardize_date_format. rewrite N. reflexivity. }
    rewrite E. vm_compute. reflexivity. }
  rewrite (standardize_date_format_stripped date N).
  set (d := strip (str_of date)).
  destruct (date_of_stripped_cases d)
    as [E | [year [month [day [Dy [Ly [Dm [Lm [Dd [Ld E]]]]]]]]]].
  - rewrite E. rewrite standardize_date_format_stripped by reflexivity.
    cbn [str_of]. unfold d. rewrite strip_idem. exact E.
  - rewrite E. apply iso_format; assumption.
Qed.

(** ** The shape of heights *)

Lemma search_from_sound (r : re) (s : str) :
  forall prev g,
    search_from r prev s = Some g ->
    exists prev' s' rest, match_at r prev' s' = Some (rest, g).
Proof.
  induction s as [|c t IH]; intros prev g; cbn [search_from].
  - destruct (match_at r prev []) as [[rest g']|] eqn:E; [|discriminate].
    intros H. injection H as <-. eauto.
  - destruct (match_at r prev (c :: t)) as [[rest g']|] eqn:E.
    + intros H. injection H as <-. eauto.
    + apply IH.
Qed.

Lemma height_ft_in_groups (prev : option ascii) (s rest : str) (g : groups) :
  match_at RE_HEIGHT_FT_IN prev s = Some (rest, g) ->
  group 1 g <> [] /\ digits (group 1 g)
  /\ group 2 g <> [] /\ digits (group 2 g).
Proof.
  unfold match_at, RE_HEIGHT_FT_IN. cbn [chain]. rewrite run_Cat. intros E.
  apply run_Grp_Plus_sound in E as [f [b1 [p1 [_ [Nf [Df E]]]]]].
  rewrite run_Cat in E.
  apply (run_groupless _ (Star is_quote_or_space) eq_refl) in E
    as [p2 [s2 E]].
  rewrite run_Cat in E.
  apply (run_groupless _ (Star is_dash_or_space) eq_refl) in E as [p3 [s3 E]].
  apply run_Grp_Plus_sound in E as [i [b4 [p4 [_ [Ni [Di E]]]]]].
  injection E as _ <-. cbn [group find fst snd Nat.eqb]. auto.
Qed.

Lemma height_ft_only_groups (prev : option ascii) (s rest : str)
    (g : groups) :
  match_at RE_HEIGHT_FT_ONLY prev s = Some (rest, g) ->
  group 1 g <> [] /\ digits (group 1 g).
Proof.
  unfold match_at, RE_HEIGHT_FT_ONLY. cbn [chain]. rewrite run_Cat. intros E.
  apply run_Grp_Plus_sound in E as [f [b1 [p1 [_ [Nf [Df E]]]]]].
  rewrite run_Cat in E.
  apply (run_groupless _ (Star is_quote_or_space) eq_refl) in E
    as [p2 [s2 E]].
  apply (run_groupless _ (Opt (Alt (lit "ft") (lit "feet"))) eq_refl) in E
    as [p3 [s3 E]].
  injection E as _ <-. cbn [group find fst snd Nat.eqb]. auto.
Qed.

Lemma star_total (A : Type) (p : ascii -> bool) (k : cont A) :
  (forall prev s g, k prev s g <> None) ->
  forall s prev g, star p k prev s g <> None.
Proof.
  intros Hk. induction s as [|c t IH]; intros prev g; simpl; [apply Hk|].
  destruct (p c); [|apply Hk].
  destruct (star p k (Some c) t g) eqn:E; [discriminate|]. apply Hk.
Qed.

Lemma run_Grp_Plus_total (A : Type) (p : ascii -> bool) (i : nat)
    (k : cont A) (prev : option ascii) (c : ascii) (t : str) (g : groups) :
  p c = true -> (forall prev' s' g', k prev' s' g' <> None) ->
  run (Grp i (Plus p)) k prev (c :: t) g <> None.
Proof.
  intros Pc Hk. cbn [run Plus]. rewrite Pc. apply star_total.
  intros prev' s' g'. apply Hk.
Qed.

Lemma run_Opt_total (A : Type) (a : re) (k : cont A) :
  (forall prev s g, k prev s g <> None) ->
  forall prev s g, run (Opt a) k prev s g <> None.
Proof.
  intros Hk prev s g. cbn [run].
  destruct (run a k prev s g); [discriminate | apply Hk].
Qed.

(** The feet-only pattern matches wherever a digit stands. *)
Lemma height_ft_only_at_digit (prev : option ascii) (c : ascii) (t : str) :
  is_digit c = true -> match_at RE_HEIGHT_FT_ONLY prev (c :: t) <> None.
Proof.
  intros Dc. unfold match_at, RE_HEIGHT_FT_ONLY. cbn [chain].
  rewrite run_Cat. apply run_Grp_Plus_total; [exact Dc|].
  intros prev1 s1 g1. rewrite run_Cat.
  change (run (Star is_quote_or_space) ?k prev1 s1 g1)
    with (star is_quote_or_space k prev1 s1 g1).
  apply star_total. apply run_Opt_total. discriminate.
Qed.

Lemma search_ft_only_none (s : str) :
  forall prev,
    search_from RE_HEIGHT_FT_ONLY prev s = None ->
    Forall (fun c => is_digit c = false) s.
Proof.
  induction s as [|c t IH]; intros prev H; [constructor|].
  cbn [search_from] in H.
  destruct (match_at RE_HEIGHT_FT_ONLY prev (c :: t)) as [m|] eqn:E;
    [discriminate|].
  constructor; [|exact (IH _ H)].
  destruct (is_digit c) eqn:Dc; [|reflexivity].
  exfalso. exact (height_ft_only_at_digit prev c t Dc E).
Qed.

Lemma filter_Forall_keep (P : ascii -> Prop) (f : ascii -> bool) (s : str) :
  Forall P s -> Forall P (filter f s).
Proof.
  induction 1 as [|x s Hx Hs IH]; simpl; [constructor|].
  destruct (f x); [constructor; assumption | exact IH].
Qed.

Lemma Forall_and_both (P Q : ascii -> Prop) (s : str) :
  Forall P s -> Forall Q s -> Forall (fun c => P c /\ Q c) s.
Proof.
  intros HP HQ. rewrite Forall_forall in *. auto.
Qed.

(** X6: every result of the height formatter is either feet-inches, two
    non-empty numbers in digits around a dash, or a text with no blank and
    no digit in it. *)
Theorem standardize_height_imperial_shape (height : cell) :
  feet_inches (standardize_height_imperial height)
  \/ Forall (fun c => is_space c = false /\ is_digit c = false)
            (standardize_height_imperial height).
Proof.
  unfold standardize_height_imperial.
  destruct (isna height); [right; constructor|].
  set (s := height_cleaned height).
  destruct (search RE_HEIGHT_FT_IN s) as [g|] eqn:E1.
  { left. apply search_from_sound in E1 as [prev [s' [rest E1]]].
    destruct (height_ft_in_groups _ _ _ _ E1) as [N1 [D1 [N2 D2]]].
    exists (group 1 g), (group 2 g). auto 10. }
  destruct (search RE_HEIGHT_FT_ONLY s) as [g|] eqn:E2.
  { left. apply search_from_sound in E2 as [prev [s' [rest E2]]].
    destruct (height_ft_only_groups _ _ _ _ E2) as [N1 D1].
    exists (group 1 g), (txt "0").
    repeat split; try assumption; [discriminate | repeat constructor]. }
  right. apply search_ft_only_none in E2.
  unfold RE_MULTIPLE_SPACES. rewrite sub_Plus, squeeze_empty.
  apply strip_Forall, Forall_and_both.
  - apply filter_no_space.
  - apply filter_Forall_keep, E2.
Qed.

Section Demands.

Variable q : ascii -> bool.

Let clean (s : str) : Prop := Forall (fun c => q c = false) s.

Lemma star_none (A : Type) (p : ascii -> bool) (k : cont A) (s : str) :
  (forall prev' s' g', clean s' -> k prev' s' g' = None) ->
  clean s -> forall prev g, star p k prev s g = None.
Proof.
  intros Hk. induction s as [|c t IH]; intros Hs prev g; simpl.
  - apply Hk, Hs.
  - inversion Hs as [|? ? Hc Ht]; subst.
    destruct (p c); [|apply Hk, Hs].
    rewrite (IH Ht). apply Hk, Hs.
Qed.

Lemma run_demands (A : Type) (r : re) :
  forall (k : cont A) (s : str),
    clean s ->
    demands q r = true
    \/ (forall prev' s' g', clean s' -> k prev' s' g' = None) ->
    forall prev g, run r k prev s g = None.
Proof.
  induction r as [|p|a IHa b IHb|a IHa b IHb|p|a IHa|i a IHa| |];
    intros k s Hs H prev g; cbn [run demands] in *.
  - destruct H as [H | H]; [discriminate | apply H, Hs].
  - destruct s as [|c t]; [reflexivity|].
    inversion Hs as [|? ? Hc Ht]; subst.
    destruct (p c) eqn:Pc; [|reflexivity].
    destruct H as [H | H]; [|apply H, Ht].
    pose proof (for_all_chars _ H c) as I. simpl in I.
    rewrite Pc, Hc in I. discriminate.
  - apply IHa; [exact Hs|].
    destruct H as [H | H].
    + apply orb_prop in H as [H | H]; [left; exact H|].
      right. intros prev' s' g' Hs'. apply IHb; auto.
    + right. intros prev' s' g' Hs'. apply IHb; auto.
  - assert (Ha : demands q a = true
                 \/ (forall prev' s' g', clean s' -> k prev' s' g' = None)).
    { destruct H as [H | H]; [|auto].
      apply andb_prop in H as [H _]. auto. }
    assert (Hb : demands q b = true
                 \/ (forall prev' s' g', clean s' -> k prev' s' g' = None)).
    { destruct H as [H | H]; [|auto].
      apply andb_prop in H as [_ H]. auto. }
    rewrite (IHa k s Hs Ha). apply (IHb k s Hs Hb).
  - destruct H as [H | H]; [discriminate|].
    apply star_none; assumption.
  - destruct H as [H | H]; [discriminate|].
    rewrite (IHa k s Hs (or_intror H)). apply H, Hs.
  - apply IHa; [exact Hs|].
    destruct H as [H | H]; [left; exact H|].
    right. intros prev' s' g' Hs'. apply H, Hs'.
  - destruct H as [H | H]; [discriminate|].
    destruct (xorb _ _); [apply H, Hs | reflexivity].
  - destruct H as [H | H]; [discriminate|].
    destruct prev; [reflexivity | apply H, Hs].
Qed.

(** A pattern that demands a character the text does not have is never
    substituted. *)
Lemma sub_demands (r : re) (repl : str) (s : str) :
  demands q r = true -> clean s -> sub r repl s = s.
Proof.
  intros Hr. unfold sub. generalize (@None ascii).
  induction s as [|c t IH]; intros prev Hs.
  - cbn [sub_from]. unfold match_at.
    rewrite (run_demands _ r _ [] Hs (or_introl Hr)). reflexivity.
  - rewrite sub_from_cons. unfold match_at.
    rewrite (run_demands _ r _ (c :: t) Hs (or_introl Hr)).
    inversion Hs; subst. f_equal. apply IH. assumption.
Qed.

End Demands.

Lemma month_patterns_demand_letters :
  forallb (fun entry =>
             demands is_letter (lit_i ("-" ++ fst entry))
             && demands is_letter (lit_i (fst entry ++ "-")))
          EXCEL_DATE_TO_HEIGHT_CONVERSIONS
  && demands is_letter RE_HEIGHT_MONTH_WORDS
  && demands is_letter RE_HEIGHT_MONTH_ABBRS = true.
Proof. vm_compute. reflexivity. Qed.

(** A text without letters goes through the cleaning of heights
    unchanged, but for the blanks at its ends. *)
Lemma height_cleaned_no_letter (s : str) :
  Forall (fun c => is_letter c = false) s ->
  height_cleaned (Str s) = strip s.
Proof.
  intros Hs. pose proof month_patterns_demand_letters as D.
  apply andb_prop in D as [D D3]. apply andb_prop in D as [D1 D2].
  rewrite forallb_forall in D1.
  pose proof (strip_Forall _ _ Hs) as Hc.
  unfold height_cleaned. cbn [str_of].
  assert (F : forall l,
             (forall e, In e l -> In e EXCEL_DATE_TO_HEIGHT_CONVERSIONS) ->
             fold_left height_fix_month l (strip s) = strip s).
  { induction l as [|e l IH]; intros Hl; [reflexivity|].
    cbn [fold_left]. unfold height_fix_month at 2.
    specialize (D1 e (Hl e (or_introl eq_refl))).
    apply andb_prop in D1 as [Da Db].
    rewrite (sub_demands is_letter _ _ _ Da Hc).
    rewrite (sub_demands is_letter _ _ _ Db Hc).
    apply IH. intros e' He'. apply Hl. right. exact He'. }
  rewrite (F _ (fun e He => He)).
  rewrite (sub_demands is_letter _ _ _ D2 Hc).
  apply (sub_demands is_letter _ _ _ D3 Hc).
Qed.

Lemma class_not_letter (c : ascii) :
  implb (is_digit c || is_quote_or_space c || is_dash_or_space c)
        (negb (is_letter c)) = true.
Proof. by_chars c. Qed.

Lemma class_not_digit (c : ascii) :
  implb (is_quote_or_space c || is_dash_or_space c) (negb (is_digit c))
  = true.
Proof. by_chars c. Qed.

Lemma digit_not_class (c : ascii) :
  implb (is_digit c)
        (negb (is_quote_or_space c) && negb (is_dash_or_space c)
         && negb (is_space c)) = true.
Proof. by_chars c. Qed.

Lemma digit_outside (c : ascii) :
  is_digit c = true ->
  is_quote_or_space c = false /\ is_dash_or_space c = false
  /\ is_space c = false /\ is_letter c = false.
Proof.
  intros H. pose proof (digit_not_class c) as N.
  pose proof (class_not_letter c) as L. rewrite H in N, L. simpl in N, L.
  apply andb_prop in N as [N N3]. apply andb_prop in N as [N1 N2].
  repeat split; apply negb_true_iff; assumption.
Qed.

Lemma rstrip_app_digits (b rest : str) :
  digits b -> rstrip (b ++ rest) = b ++ rstrip rest.
Proof.
  induction 1 as [|c b Hc Hb IH]; [reflexivity|].
  cbn [app]. destruct (digit_outside c Hc) as [_ [_ [S _]]].
  rewrite (rstrip_cons_nonspace _ _ S), IH. reflexivity.
Qed.

Lemma rstrip_app_keep (x y : str) :
  rstrip y <> [] -> rstrip (x ++ y) = x ++ rstrip y.
Proof.
  intros Hy. induction x as [|c x IH]; [reflexivity|].
  cbn [app]. rewrite rstrip_cons, IH.
  destruct (x ++ rstrip y) eqn:E; [|reflexivity].
  destruct x; [simpl in E; congruence | discriminate].
Qed.

Lemma drop_run_app (p : ascii -> bool) (x y : str) :
  match y with c :: _ => p c = false | [] => True end ->
  drop_run p (x ++ y) = drop_run p x ++ y.
Proof.
  intros Hy. induction x as [|c x IH]; simpl.
  - destruct y as [|d y]; [reflexivity|]. simpl. rewrite Hy. reflexivity.
  - destruct (p c); [exact IH | reflexivity].
Qed.

Lemma drop_run_Forall (P : ascii -> Prop) (p : ascii -> bool) (x : str) :
  Forall P x -> Forall P (drop_run p x).
Proof.
  induction 1 as [|c x Hc Hx IH]; simpl; [constructor|].
  destruct (p c); [exact IH | constructor; assumption].
Qed.

Lemma drop_run_all (p : ascii -> bool) (x y : str) :
  Forall (fun c => p c = true) x -> drop_run p (x ++ y) = drop_run p y.
Proof.
  induction 1 as [|c x Hc Hx IH]; [reflexivity|].
  simpl. rewrite Hc. exact IH.
Qed.

(** The feet-inches pattern on two numbers with quotes, blanks and dashes
    between them. *)
Lemma height_ft_in_match (prev : option ascii)
    (feet quotes dashes inches rest : str) :
  feet <> [] -> digits feet ->
  Forall (fun c => is_quote_or_space c = true) quotes ->
  Forall (fun c => is_dash_or_space c = true) dashes ->
  quotes ++ dashes <> [] ->
  inches <> [] -> digits inches -> starts_digit rest = false ->
  match_at RE_HEIGHT_FT_IN prev (feet ++ quotes ++ dashes ++ inches ++ rest)
  = Some (rest, [(2, inches); (1, feet)]).
Proof.
  intros Nf Df Hq Hd Hsep Ni Di Hr.
  assert (Hi : match inches ++ rest with
               | c :: _ => is_quote_or_space c = false
                           /\ is_dash_or_space c = false
               | [] => True
               end).
  { destruct inches as [|c i]; [congruence|].
    inversion Di as [|? ? Dc Di']; subst.
    destruct (digit_outside c Dc) as [Q1 [Q2 _]]. split; assumption. }
  assert (Hrest : match rest with c :: _ => is_digit c = false | [] => True end).
  { destruct rest; [exact I | exact Hr]. }
  unfold match_at, RE_HEIGHT_FT_IN. cbn [chain]. rewrite run_Cat.
  apply run_Grp_Plus; [exact Nf | exact Df | |].
  { destruct quotes as [|c qs].
    - destruct dashes as [|c ds]; [simpl in Hsep; congruence|].
      inversion Hd; subst. cbn [app].
      pose proof (class_not_digit c) as N.
      replace (is_dash_or_space c) with true in N. rewrite orb_true_r in N.
      apply negb_true_iff, N.
    - inversion Hq; subst. cbn [app].
      pose proof (class_not_digit c) as N.
      replace (is_quote_or_space c) with true in N.
      apply negb_true_iff, N. }
  intros prev1. rewrite run_Cat.
  change (run (Star is_quote_or_space) ?k prev1 ?s ?g)
    with (star is_quote_or_space k prev1 s g).
  apply star_greedy.
  rewrite (drop_run_all _ quotes _ Hq).
  rewrite (drop_run_app is_quote_or_space dashes (inches ++ rest)).
  2:{ destruct (inches ++ rest); [exact I | apply Hi]. }
  rewrite run_Cat.
  change (run (Star is_dash_or_space) ?k ?p ?s ?g)
    with (star is_dash_or_space k p s g).
  apply star_greedy.
  rewrite (drop_run_app_stop is_dash_or_space _ (inches ++ rest)
             (drop_run_Forall _ _ _ Hd)).
  2:{ destruct (inches ++ rest); [exact I | apply Hi]. }
  apply run_Grp_Plus; [exact Ni | exact Di | exact Hrest |].
  intros prev2. reflexivity.
Qed.

Lemma search_at_start (r : re) (s rest : str) (g : groups) :
  match_at r None s = Some (rest, g) -> search r s = Some g.
Proof.
  intros H. unfold search. destruct s; cbn [search_from]; rewrite H;
    reflexivity.
Qed.

(** X7: a number of feet and a number of inches with quotes and blanks,
    then dashes and blanks, between them (at least one separator) become
    feet-inches, whatever follows the inches, as long as it has no letter
    and does not start with a digit. *)
Theorem standardize_height_imperial_feet_inches
    (feet quotes dashes inches rest : str) :
  feet <> [] -> digits feet ->
  Forall (fun c => is_quote_or_space c = true) quotes ->
  Forall (fun c => is_dash_or_space c = true) dashes ->
  quotes ++ dashes <> [] ->
  inches <> [] -> digits inches ->
  starts_digit rest = false ->
  Forall (fun c => is_letter c = false) rest ->
  standardize_height_imperial
    (Str (feet ++ quotes ++ dashes ++ inches ++ rest))
  = feet ++ txt "-" ++ inches.
Proof.
  intros Nf Df Hq Hd Hsep Ni Di Hr Hl.
  assert (L : forall P : ascii -> Prop,
             (forall c, is_digit c = true -> P c) ->
             (forall c, is_quote_or_space c = true -> P c) ->
             (forall c, is_dash_or_space c = true -> P c) ->
             Forall P rest ->
             Forall P (feet ++ quotes ++ dashes ++ inches ++ rest)).
  { intros P P1 P2 P3 P4. repeat (apply Forall_app; split); try assumption.
    - revert Df. apply Forall_impl, P1.
    - revert Hq. apply Forall_impl, P2.
    - revert Hd. apply Forall_impl, P3.
    - revert Di. apply Forall_impl, P1. }
  assert (NL : Forall (fun c => is_letter c = false)
                      (feet ++ quotes ++ dashes ++ inches ++ rest)).
  { apply L; [| | |exact Hl]; intros c Hc; pose proof (class_not_letter c) as N;
      rewrite Hc in N; rewrite ?orb_true_r in N; simpl in N;
      apply negb_true_iff, N. }
  assert (S : strip (feet ++ quotes ++ dashes ++ inches ++ rest)
              = feet ++ quotes ++ dashes ++ inches ++ rstrip rest).
  { unfold strip.
    assert (Lf : lstrip (feet ++ quotes ++ dashes ++ inches ++ rest)
                 = feet ++ quotes ++ dashes ++ inches ++ rest).
    { destruct feet as [|f0 feet']; [congruence|].
      inversion Df as [|? ? Hf0 Hf']; subst.
      destruct (digit_outside f0 Hf0) as [_ [_ [Sf _]]].
      apply lstrip_fixed, Sf. }
    rewrite Lf.
    replace (feet ++ quotes ++ dashes ++ inches ++ rest)
      with ((feet ++ quotes ++ dashes) ++ inches ++ rest)
      by (rewrite <- !app_assoc; reflexivity).
    rewrite rstrip_app_keep, (rstrip_app_digits _ _ Di).
    - rewrite <- !app_assoc. reflexivity.
    - rewrite (rstrip_app_digits _ _ Di).
      destruct inches; [congruence | discriminate]. }
  assert (Hr' : starts_digit (rstrip rest) = false).
  { destruct (rstrip rest) as [|c t] eqn:E; [reflexivity|].
    destruct (rstrip_head _ _ _ E) as [t' ->]. exact Hr. }
  unfold standardize_height_imperial. cbn [isna].
  rewrite (height_cleaned_no_letter _ NL), S.
  rewrite (search_at_start _ _ _ _
             (height_ft_in_match None feet quotes dashes inches (rstrip rest)
                Nf Df Hq Hd Hsep Ni Di Hr')).
  reflexivity.
Qed.

Lemma standardize_height_imperial_feet_inches_witness :
  standardize_height_imperial (Str (txt "6' - 10 3/4")) = txt "6-10".
Proof.
  apply (standardize_height_imperial_feet_inches
           (txt "6") (txt "' ") (txt "- ") (txt "10") (txt " 3/4"));
    try discriminate; try reflexivity; repeat constructor.
Defined.

(** A greedy repetition gives back its last character when the rest of
    the pattern needs one and matches there. *)
Lemma star_gives_back (A : Type) (p : ascii -> bool) (k : cont A)
    (a : str) (c : ascii) (g : groups) (r : A) :
  Forall (fun x => p x = true) a -> p c = true ->
  (forall prev', k prev' [] g = None) ->
  (forall prev', k prev' [c] g = Some r) ->
  forall prev, star p k prev (a ++ [c]) g = Some r.
Proof.
  intros Ha Pc Hnil Hone. induction Ha as [|x a Hx Ha IH]; intros prev.
  - cbn [app star]. rewrite Pc, Hnil. apply Hone.
  - cbn [app star]. rewrite Hx, IH. reflexivity.
Qed.

Lemma height_ft_in_digits (a : str) (c : ascii) :
  a <> [] -> digits a -> is_digit c = true ->
  match_at RE_HEIGHT_FT_IN None (a ++ [c]) = Some ([], [(2, [c]); (1, a)]).
Proof.
  intros Na Da Dc. destruct a as [|a0 a']; [congruence|].
  inversion Da as [|? ? Da0 Da']; subst.
  destruct (digit_outside c Dc) as [Q1 [Q2 _]].
  unfold match_at, RE_HEIGHT_FT_IN. cbn [chain]. rewrite run_Cat.
  cbn [run Plus app]. rewrite Da0.
  apply star_gives_back; [exact Da' | exact Dc | reflexivity |].
  intros prev'. cbn [star]. rewrite Q1, Q2, Dc.
  rewrite (firstn_consumed a0 a' [c]). reflexivity.
Qed.

Lemma single_digit_height (c : ascii) :
  implb (is_digit c)
        (str_eqb (standardize_height_imperial (Str [c])) ([c] ++ txt "-0"))
  = true.
Proof. by_chars c. Qed.

(** X8: a text of digits alone is cut before its last digit: one digit
    gives that many feet and 0 inches, and of two digits or more the last
    one is taken as the inches, so that 72 is read as 7-2. *)
Theorem standardize_height_imperial_digits :
  (forall c, is_digit c = true ->
             standardize_height_imperial (Str [c]) = [c] ++ txt "-0")
  /\ (forall a c,
         a <> [] -> digits a -> is_digit c = true ->
         standardize_height_imperial (Str (a ++ [c])) = a ++ txt "-" ++ [c]).
Proof.
  split.
  - intros c Dc. pose proof (single_digit_height c) as H.
    rewrite Dc in H. apply str_eqb_eq, H.
  - intros a c Na Da Dc.
    assert (D : digits (a ++ [c])).
    { apply Forall_app. split; [exact Da | repeat constructor; exact Dc]. }
    assert (NL : Forall (fun x => is_letter x = false) (a ++ [c])).
    { revert D. apply Forall_impl. intros x Hx.
      apply (digit_outside x Hx). }
    assert (S : strip (a ++ [c]) = a ++ [c]).
    { apply strip_no_space. revert D. apply Forall_impl. intros x Hx.
      apply (digit_outside x Hx). }
    unfold standardize_height_imperial. cbn [isna].
    rewrite (height_cleaned_no_letter _ NL), S.
    rewrite (search_at_start _ _ _ _ (height_ft_in_digits a c Na Da Dc)).
    reflexivity.
Qed.

Lemma standardize_height_imperial_digits_witness :
  standardize_height_imperial (Str (txt "72")) = txt "7-2".
Proof.
  apply (proj2 standardize_height_imperial_digits (txt "7") "2"%char);
    [discriminate | repeat constructor | reflexivity].
Defined.

(** ** Matches and the characters they pass over *)

Section Avoids.

Variable q : ascii -> bool.

Let free (s : str) : Prop := Forall (fun c => q c = false) s.

Lemma avoids_class (p : ascii -> bool) (c : ascii) :
  forallb (fun c => negb (p c && q c)) all_chars = true ->
  p c = true -> q c = false.
Proof.
  intros H Pc. pose proof (for_all_chars _ H c) as I. simpl in I.
  rewrite Pc in I. apply negb_true_iff, I.
Qed.

Lemma run_avoids (A : Type) (r : re) :
  avoids q r = true ->
  forall (k : cont A) prev s g x,
    run r k prev s g = Some x ->
    exists m s' prev' g', s = m ++ s' /\ free m /\ k prev' s' g' = Some x.
Proof.
  induction r as [|p|a IHa b IHb|a IHa b IHb|p|a IHa|i a IHa| |];
    intros Hr k prev s g x H; cbn [run avoids] in *.
  - exists [], s, prev, g. repeat split; [constructor | exact H].
  - destruct s as [|c t]; [discriminate|].
    destruct (p c) eqn:Pc; [|discriminate].
    exists [c], t, (Some c), g. repeat split; [|exact H].
    constructor; [exact (avoids_class p c Hr Pc) | constructor].
  - apply andb_prop in Hr as [Ha Hb].
    destruct (IHa Ha _ _ _ _ _ H) as [m1 [s1 [p1 [g1 [-> [F1 H1]]]]]].
    destruct (IHb Hb _ _ _ _ _ H1) as [m2 [s2 [p2 [g2 [-> [F2 H2]]]]]].
    exists (m1 ++ m2), s2, p2, g2. rewrite <- app_assoc.
    repeat split; [apply Forall_app; split; assumption | exact H2].
  - apply andb_prop in Hr as [Ha Hb].
    destruct (run a k prev s g) as [y|] eqn:E.
    + injection H as ->. exact (IHa Ha _ _ _ _ _ E).
    + exact (IHb Hb _ _ _ _ _ H).
  - apply star_sound in H as [a [b [prev' [-> [Ha Hk]]]]].
    exists a, b, prev', g. repeat split; [|exact Hk].
    revert Ha. apply Forall_impl. intros c Pc.
    exact (avoids_class p c Hr Pc).
  - destruct (run a k prev s g) as [y|] eqn:E.
    + injection H as ->. exact (IHa Hr _ _ _ _ _ E).
    + exists [], s, prev, g. repeat split; [constructor | exact H].
  - destruct (IHa Hr _ _ _ _ _ H) as [m [s' [prev' [g' [-> [F Hk]]]]]].
    eexists m, s', prev', _. repeat split; [exact F | exact Hk].
  - destruct (xorb _ _); [|discriminate].
    exists [], s, prev, g. repeat split; [constructor | exact H].
  - destruct prev; [discriminate|].
    exists [], s, None, g. repeat split; [constructor | exact H].
Qed.

Lemma match_at_avoids (r : re) (prev : option ascii) (s s' : str)
    (g : groups) :
  avoids q r = true -> match_at r prev s = Some (s', g) ->
  exists m, s = m ++ s' /\ free m.
Proof.
  intros Hr H. unfold match_at in H.
  destruct (run_avoids _ r Hr _ _ _ _ _ H) as [m [s1 [p1 [g1 [-> [F E]]]]]].
  injection E as -> _. exists m. split; [reflexivity | exact F].
Qed.

(** A substitution whose matches avoid the class keeps the characters of
    the class: one that is in the text is still there afterwards. *)
Lemma sub_from_keeps (r : re) (repl : str) :
  avoids q r = true ->
  forall s skip prev,
    free (firstn skip s) -> existsb q s = true ->
    existsb q (sub_from r repl skip prev s) = true.
Proof.
  intros Hr. induction s as [|c t IH]; intros skip prev Hf Hq;
    [discriminate|].
  cbn [existsb] in Hq. destruct skip as [|n].
  - rewrite sub_from_cons.
    destruct (match_at r prev (c :: t)) as [[s' g]|] eqn:E.
    + destruct (match_at_avoids _ _ _ _ _ Hr E) as [m [Em Fm]].
      destruct (length (c :: t) - length s') as [|n] eqn:L.
      * rewrite existsb_app. cbn [existsb].
        destruct (q c); [rewrite !orb_true_r; reflexivity|].
        simpl in Hq. rewrite (IH 0 (Some c) (Forall_nil _) Hq).
        rewrite !orb_true_r. reflexivity.
      * destruct m as [|c' m'].
        { simpl in Em. subst s'. lia. }
        simpl in Em. injection Em as <- Et.
        inversion Fm as [|? ? Qc Fm']; subst.
        rewrite Qc in Hq. simpl in Hq.
        assert (Ln : length m' = n).
        { simpl in L. rewrite length_app in L. lia. }
        rewrite existsb_app, IH; [apply orb_true_r | | exact Hq].
        rewrite <- Ln, firstn_app, firstn_all, Nat.sub_diag. simpl.
        rewrite app_nil_r. exact Fm'.
    + cbn [existsb]. destruct (q c); [reflexivity|].
      simpl in Hq. apply IH; [constructor | exact Hq].
  - cbn [sub_from]. cbn [firstn] in Hf.
    inversion Hf as [|? ? Qc Hf']; subst.
    rewrite Qc in Hq. simpl in Hq. apply IH; assumption.
Qed.

Lemma sub_keeps (r : re) (repl s : str) :
  avoids q r = true -> existsb q s = true ->
  existsb q (sub r repl s) = true.
Proof.
  intros Hr Hq. apply sub_from_keeps; [exact Hr | constructor | exact Hq].
Qed.

End Avoids.

(** A pattern that is found is replaced; one that is not found leaves the
    text as it is. *)
Lemma sub_from_found (r : re) (repl : str) (s : str) :
  forall prev g,
    search_from r prev s = Some g ->
    exists a b, sub_from r repl 0 prev s = a ++ repl ++ b.
Proof.
  induction s as [|c t IH]; intros prev g H.
  - cbn [search_from] in H. cbn [sub_from].
    destruct (match_at r prev []) as [m|]; [|discriminate].
    exists [], []. rewrite app_nil_r. reflexivity.
  - cbn [search_from] in H. rewrite sub_from_cons.
    destruct (match_at r prev (c :: t)) as [[s' g']|].
    + destruct (length (c :: t) - length s'); exists []; eexists;
        reflexivity.
    + destruct (IH _ _ H) as [a [b E]]. exists (c :: a), b.
      rewrite E. reflexivity.
Qed.

Lemma sub_from_not_found (r : re) (repl : str) (s : str) :
  forall prev, search_from r prev s = None -> sub_from r repl 0 prev s = s.
Proof.
  induction s as [|c t IH]; intros prev H.
  - cbn [search_from] in H. cbn [sub_from].
    destruct (match_at r prev []) as [m|]; [discriminate | reflexivity].
  - cbn [search_from] in H. rewrite sub_from_cons.
    destruct (match_at r prev (c :: t)) as [[s' g']|]; [discriminate|].
    rewrite (IH _ H). reflexivity.
Qed.

Lemma found_sub (r : re) (repl s : str) :
  found r s = true -> exists a b, sub r repl s = a ++ repl ++ b.
Proof.
  unfold found, search. destruct (search_from r None s) as [g|] eqn:E;
    [|discriminate].
  intros _. exact (sub_from_found r repl s None g E).
Qed.

Lemma not_found_sub (r : re) (repl s : str) :
  found r s = false -> sub r repl s = s.
Proof.
  unfold found, search. destruct (search_from r None s) as [g|] eqn:E;
    [discriminate|].
  intros _. exact (sub_from_not_found r repl s None E).
Qed.

Lemma search_demands (q : ascii -> bool) (r : re) (s : str) :
  demands q r = true -> Forall (fun c => q c = false) s ->
  forall prev, search_from r prev s = None.
Proof.
  intros Hr. induction s as [|c t IH]; intros Hs prev; cbn [search_from];
    unfold match_at; rewrite (run_demands q _ r _ _ Hs (or_introl Hr)).
  - reflexivity.
  - inversion Hs; subst. apply IH. assumption.
Qed.

Lemma existsb_false_Forall (q : ascii -> bool) (s : str) :
  existsb q s = false -> Forall (fun c => q c = false) s.
Proof.
  induction s as [|c t IH]; intros H; [constructor|].
  simpl in H. apply orb_false_elim in H as [Hc Ht].
  constructor; [exact Hc | exact (IH Ht)].
Qed.

Lemma Forall_existsb_false (q : ascii -> bool) (s : str) :
  Forall (fun c => q c = false) s -> existsb q s = false.
Proof.
  induction 1 as [|c t Hc Ht IH]; [reflexivity|].
  simpl. rewrite Hc, IH. reflexivity.
Qed.

(** ** Literal patterns *)

Lemma run_chars (A : Type) (pat : str) :
  pat <> [] ->
  forall (k : str -> groups -> option A) prev s g,
    run (chain (map (fun c => Chr (is_char_i c)) pat)) (fun _ => k) prev s g
    = if starts_with_i pat s then k (skipn (length pat) s) g else None.
Proof.
  induction pat as [|c pt IH]; intros Hne k prev s g; [congruence|].
  destruct pt as [|c' pt'].
  - cbn [map chain run]. destruct s as [|x t]; [reflexivity|].
    cbn [starts_with_i length skipn]. rewrite andb_true_r. reflexivity.
  - change (chain (map (fun c => Chr (is_char_i c)) (c :: c' :: pt')))
      with (Cat (Chr (is_char_i c))
                (chain (map (fun c => Chr (is_char_i c)) (c' :: pt')))).
    cbn [run]. destruct s as [|x t]; [reflexivity|].
    cbn [starts_with_i]. destruct (is_char_i c x); [|reflexivity].
    rewrite IH by discriminate. reflexivity.
Qed.

Lemma match_at_lit_i (pat : string) (prev : option ascii) (s : str) :
  txt pat <> [] ->
  match_at (lit_i pat) prev s
  = if starts_with_i (txt pat) s
    then Some (skipn (length (txt pat)) s, [])
    else None.
Proof.
  intros Hne. unfold match_at, lit_i.
  exact (run_chars _ (txt pat) Hne (fun s' g => Some (s', g)) prev s []).
Qed.

Lemma starts_with_i_length (pat s : str) :
  starts_with_i pat s = true -> length pat <= length s.
Proof.
  revert s. induction pat as [|c pt IH]; intros s H; simpl; [lia|].
  destruct s as [|x t]; [discriminate|].
  simpl in H. apply andb_prop in H as [_ H]. specialize (IH _ H).
  simpl. lia.
Qed.

Lemma avoids_chars (q : ascii -> bool) (pat : str) :
  avoids q (chain (map (fun c => Chr (is_char_i c)) pat)) = true ->
  Forall (fun p => forall c, q c = true -> is_char_i p c = false) pat.
Proof.
  induction pat as [|p pt IH]; intros H; [constructor|].
  assert (E : avoids q (Chr (is_char_i p)) = true
              /\ avoids q (chain (map (fun c => Chr (is_char_i c)) pt))
                 = true).
  { destruct pt as [|p' pt']; [split; [exact H | reflexivity]|].
    change (chain (map (fun c => Chr (is_char_i c)) (p :: p' :: pt')))
      with (Cat (Chr (is_char_i p))
                (chain (map (fun c => Chr (is_char_i c)) (p' :: pt')))) in H.
    cbn [avoids] in H. apply andb_prop in H. exact H. }
  destruct E as [E1 E2]. constructor; [|exact (IH E2)].
  intros c Qc. destruct (is_char_i p c) eqn:Pc; [|reflexivity].
  rewrite (avoids_class q _ c E1 Pc) in Qc. discriminate.
Qed.

(** A literal pattern without digits is replaced in a text as it is in the
    parts of the text around a run of digits. *)
Section DigitRuns.

Variables (pat : string) (repl : str).
Hypothesis Hne : txt pat <> [].
Hypothesis Hav : avoids is_digit (lit_i pat) = true.

Lemma starts_with_i_digit (c : ascii) (t : str) :
  is_digit c = true -> starts_with_i (txt pat) (c :: t) = false.
Proof.
  intros Dc. pose proof (avoids_chars _ _ Hav) as F.
  destruct (txt pat) as [|p pt]; [congruence|].
  inversion F as [|? ? Hp _]; subst. cbn [starts_with_i].
  rewrite (Hp c Dc). reflexivity.
Qed.

Lemma starts_with_i_app_digits (s d : str) :
  digits d ->
  starts_with_i (txt pat) (s ++ d) = starts_with_i (txt pat) s.
Proof.
  intros Dd. pose proof (avoids_chars _ _ Hav) as F. revert F s.
  generalize (txt pat). intros l F.
  induction F as [|p pt Hp F IH]; intros s; [reflexivity|].
  destruct s as [|x s'].
  - cbn [app starts_with_i]. destruct Dd as [|c d Dc Dd]; [reflexivity|].
    rewrite (Hp c Dc). reflexivity.
  - cbn [app starts_with_i]. rewrite IH. reflexivity.
Qed.

Lemma sub_from_lit_i_prev (skip : nat) (prev : option ascii) (s : str) :
  sub_from (lit_i pat) repl skip prev s
  = sub_from (lit_i pat) repl skip None s.
Proof.
  destruct s as [|c t]; cbn [sub_from]; rewrite !(match_at_lit_i _ _ _ Hne);
    reflexivity.
Qed.

Lemma sub_from_digits (d : str) :
  digits d ->
  forall prev, sub_from (lit_i pat) repl 0 prev d = d.
Proof.
  induction 1 as [|c d Dc Dd IH]; intros prev.
  - cbn [sub_from]. rewrite (match_at_lit_i _ _ _ Hne).
    destruct (txt pat); [congruence | reflexivity].
  - rewrite sub_from_cons, (match_at_lit_i _ _ _ Hne).
    rewrite (starts_with_i_digit c d Dc), IH. reflexivity.
Qed.

Lemma sub_digits_prefix (d b : str) :
  digits d ->
  sub (lit_i pat) repl (d ++ b) = d ++ sub (lit_i pat) repl b.
Proof.
  intros Dd. unfold sub. generalize (@None ascii) at 1.
  induction Dd as [|c d Dc Dd IH]; intros prev.
  - apply sub_from_lit_i_prev.
  - cbn [app]. rewrite sub_from_cons, (match_at_lit_i _ _ _ Hne).
    rewrite (starts_with_i_digit c _ Dc), IH. reflexivity.
Qed.

Lemma sub_from_digits_suffix (d : str) :
  digits d ->
  forall b skip prev,
    skip <= length b ->
    sub_from (lit_i pat) repl skip prev (b ++ d)
    = sub_from (lit_i pat) repl skip prev b ++ d.
Proof.
  intros Dd. induction b as [|c t IH]; intros skip prev Hs.
  - simpl in Hs. replace skip with 0 by lia. cbn [app].
    rewrite (sub_from_digits d Dd). cbn [sub_from].
    rewrite (match_at_lit_i _ _ _ Hne).
    destruct (txt pat); [congruence | reflexivity].
  - destruct skip as [|n].
    + cbn [app]. rewrite !sub_from_cons, !(match_at_lit_i _ _ _ Hne).
      change (c :: t ++ d) with ((c :: t) ++ d).
      rewrite (starts_with_i_app_digits (c :: t) d Dd).
      destruct (starts_with_i (txt pat) (c :: t)) eqn:E.
      * apply starts_with_i_length in E.
        assert (L1 : length ((c :: t) ++ d)
                     - length (skipn (length (txt pat)) ((c :: t) ++ d))
                     = length (txt pat)).
        { rewrite length_skipn, length_app. lia. }
        assert (L2 : length (c :: t)
                     - length (skipn (length (txt pat)) (c :: t))
                     = length (txt pat)).
        { rewrite length_skipn. lia. }
        rewrite L1, L2.
        destruct (txt pat) as [|p pt]; [congruence|].
        cbn [length] in *. rewrite IH by lia.
        rewrite app_assoc. reflexivity.
      * rewrite IH by lia. reflexivity.
    + cbn [app sub_from]. apply IH. simpl in Hs. lia.
Qed.

Lemma sub_digits_suffix (b d : str) :
  digits d ->
  sub (lit_i pat) repl (b ++ d) = sub (lit_i pat) repl b ++ d.
Proof.
  intros Dd. apply (sub_from_digits_suffix d Dd). lia.
Qed.

End DigitRuns.

(** ** Month repairs *)

Lemma month_patterns_avoid_digits :
  forallb (fun entry =>
             avoids is_digit (lit_i ("-" ++ fst entry))
             && avoids is_digit (lit_i (fst entry ++ "-")))
          EXCEL_DATE_TO_HEIGHT_CONVERSIONS
  && avoids is_digit RE_HEIGHT_MONTH_WORDS
  && avoids is_digit RE_HEIGHT_MONTH_ABBRS = true.
Proof. vm_compute. reflexivity. Qed.

Lemma month_replacements_hold_digits :
  forallb (fun entry =>
             has_digit (txt ("-" ++ snd entry))
             && has_digit (txt (snd entry ++ "-")))
          EXCEL_DATE_TO_HEIGHT_CONVERSIONS = true.
Proof. vm_compute. reflexivity. Qed.

Lemma month_pattern_facts (entry : string * string) :
  In entry EXCEL_DATE_TO_HEIGHT_CONVERSIONS ->
  (txt ("-" ++ fst entry) <> []
   /\ avoids is_digit (lit_i ("-" ++ fst entry)) = true)
  /\ (txt (fst entry ++ "-") <> []
      /\ avoids is_digit (lit_i (fst entry ++ "-")) = true).
Proof.
  intros He. pose proof month_patterns_avoid_digits as D.
  apply andb_prop in D as [D _]. apply andb_prop in D as [D _].
  rewrite forallb_forall in D. specialize (D entry He).
  apply andb_prop in D as [D1 D2].
  split; (split; [|assumption]).
  - discriminate.
  - destruct (fst entry); discriminate.
Qed.

(** A round of the repair loop goes around a run of digits at the start
    or at the end of the text. *)
Lemma height_fix_month_digits (entry : string * string) (d b : str) :
  In entry EXCEL_DATE_TO_HEIGHT_CONVERSIONS -> digits d ->
  height_fix_month (d ++ b) entry = d ++ height_fix_month b entry
  /\ height_fix_month (b ++ d) entry = height_fix_month b entry ++ d.
Proof.
  intros He Dd.
  destruct (month_pattern_facts entry He) as [[N1 A1] [N2 A2]].
  unfold height_fix_month. split.
  - rewrite (sub_digits_prefix _ _ N1 A1 d b Dd).
    apply (sub_digits_prefix _ _ N2 A2 d _ Dd).
  - rewrite (sub_digits_suffix _ _ N1 A1 b d Dd).
    apply (sub_digits_suffix _ _ N2 A2 _ d Dd).
Qed.

Lemma repairs_digits (d : str) (l : list (string * string)) :
  digits d ->
  (forall e, In e l -> In e EXCEL_DATE_TO_HEIGHT_CONVERSIONS) ->
  forall b,
    fold_left height_fix_month l (d ++ b)
    = d ++ fold_left height_fix_month l b
    /\ fold_left height_fix_month l (b ++ d)
       = fold_left height_fix_month l b ++ d.
Proof.
  intros Dd. induction l as [|e l IH]; intros Hl b; [split; reflexivity|].
  cbn [fold_left].
  destruct (height_fix_month_digits e d b (Hl e (or_introl eq_refl)) Dd)
    as [E1 E2].
  rewrite E1, E2. apply IH. intros e' He'. apply Hl. right. exact He'.
Qed.

Lemma lower_char_cases (c : ascii) :
  Ascii.eqb c (lower_char c)
  || Ascii.eqb c (ascii_of_N (code (lower_char c) - 32)) = true.
Proof. by_chars c. Qed.

Lemma lower_char_inv (c x : ascii) :
  lower_char c = x -> c = x \/ c = ascii_of_N (code x - 32).
Proof.
  intros <-. pose proof (lower_char_cases c) as H.
  apply orb_prop in H as [H | H]; apply Ascii.eqb_eq in H; auto.
Qed.

(** The repair loop on a hyphen next to a month abbreviation, in any
    case: the abbreviation becomes the number of the month. *)
Lemma month_repairs (abbr num : string) (m : str) :
  In (abbr, num) EXCEL_DATE_TO_HEIGHT_CONVERSIONS ->
  lower m = txt abbr ->
  fold_left height_fix_month EXCEL_DATE_TO_HEIGHT_CONVERSIONS
            (txt "-" ++ m) = txt "-" ++ txt num
  /\ fold_left height_fix_month EXCEL_DATE_TO_HEIGHT_CONVERSIONS
               (m ++ txt "-") = txt num ++ txt "-"
  /\ Forall (fun c => is_space c = false) m
  /\ txt num <> [] /\ digits (txt num).
Proof.
  intros He Hm.
  assert (V : exists c1 c2 c3 x1 x2 x3,
             m = [c1; c2; c3] /\ txt abbr = [x1; x2; x3]
             /\ lower_char c1 = x1 /\ lower_char c2 = x2
             /\ lower_char c3 = x3).
  { simpl in He.
    repeat (destruct He as [He | He]; [injection He as <- <-|]);
      try contradiction;
      (destruct m as [|c1 [|c2 [|c3 [|c4 m]]]]; try discriminate;
       injection Hm as H1 H2 H3; repeat eexists; eassumption). }
  destruct V as [c1 [c2 [c3 [x1 [x2 [x3 [-> [Ea [H1 [H2 H3]]]]]]]]]].
  apply lower_char_inv in H1, H2, H3.
  simpl in He.
  repeat (destruct He as [He | He];
          [injection He as <- <-; injection Ea as <- <- <-|]);
    try contradiction;
    destruct H1 as [-> | ->], H2 as [-> | ->], H3 as [-> | ->];
    (split; [vm_compute; reflexivity|]);
    (split; [vm_compute; reflexivity|]);
    (split; [repeat constructor|]);
    (split; [discriminate | repeat constructor]).
Qed.

(** ** From the cleaned text to the result *)

Lemma search_feet_inches (feet inches : str) :
  feet <> [] -> digits feet -> inches <> [] -> digits inches ->
  search RE_HEIGHT_FT_IN (feet ++ txt "-" ++ inches)
  = Some [(2, inches); (1, feet)].
Proof.
  intros Nf Df Ni Di.
  pose proof (height_ft_in_match None feet [] (txt "-") inches []
                Nf Df (Forall_nil _)) as H.
  rewrite app_nil_r in H. cbn [app] in H.
  apply search_at_start with (rest := []).
  apply H; try assumption; try reflexivity; try discriminate.
  repeat constructor.
Qed.

Lemma digits_no_letter (d : str) :
  digits d -> Forall (fun c => is_letter c = false) d.
Proof. apply Forall_impl. intros c Hc. apply (digit_outside c Hc). Qed.

Lemma digits_no_space (d : str) :
  digits d -> Forall (fun c => is_space c = false) d.
Proof. apply Forall_impl. intros c Hc. apply (digit_outside c Hc). Qed.

Lemma feet_inches_no_letter (feet inches : str) :
  digits feet -> digits inches ->
  Forall (fun c => is_letter c = false) (feet ++ txt "-" ++ inches).
Proof.
  intros Df Di. apply Forall_app. split; [apply digits_no_letter, Df|].
  constructor; [reflexivity | apply digits_no_letter, Di].
Qed.

(** The last two steps of the cleaning, the removal of month words, on a
    text without letters. *)
Lemma month_words_no_letter (s : str) :
  Forall (fun c => is_letter c = false) s ->
  sub RE_HEIGHT_MONTH_ABBRS [] (sub RE_HEIGHT_MONTH_WORDS [] s) = s.
Proof.
  intros Hs. pose proof month_patterns_demand_letters as D.
  apply andb_prop in D as [D D3]. apply andb_prop in D as [_ D2].
  rewrite (sub_demands is_letter _ _ _ D2 Hs).
  apply (sub_demands is_letter _ _ _ D3 Hs).
Qed.

(** The result for an input whose repaired text is feet-inches. *)
Lemma height_of_repaired (s feet inches : str) :
  fold_left height_fix_month EXCEL_DATE_TO_HEIGHT_CONVERSIONS (strip s)
  = feet ++ txt "-" ++ inches ->
  feet <> [] -> digits feet -> inches <> [] -> digits inches ->
  standardize_height_imperial (Str s) = feet ++ txt "-" ++ inches.
Proof.
  intros E Nf Df Ni Di. unfold standardize_height_imperial, height_cleaned.
  cbn [isna str_of]. rewrite E.
  rewrite (month_words_no_letter _ (feet_inches_no_letter _ _ Df Di)).
  rewrite (search_feet_inches _ _ Nf Df Ni Di). reflexivity.
Qed.

Lemma height_month_after (abbr num : string) (m d : str) :
  In (abbr, num) EXCEL_DATE_TO_HEIGHT_CONVERSIONS ->
  lower m = txt abbr -> d <> [] -> digits d ->
  standardize_height_imperial (Str (d ++ txt "-" ++ m))
  = d ++ txt "-" ++ txt num.
Proof.
  intros He Hm Nd Dd.
  destruct (month_repairs abbr num m He Hm) as [R1 [_ [Sm [Nn Dn]]]].
  apply height_of_repaired; try assumption.
  rewrite strip_no_space.
  - rewrite (proj1 (repairs_digits d _ Dd (fun e H => H) _)), R1.
    reflexivity.
  - apply Forall_app. split; [apply digits_no_space, Dd|].
    constructor; [reflexivity | exact Sm].
Qed.

Lemma height_month_before (abbr num : string) (m d : str) :
  In (abbr, num) EXCEL_DATE_TO_HEIGHT_CONVERSIONS ->
  lower m = txt abbr -> d <> [] -> digits d ->
  standardize_height_imperial (Str (m ++ txt "-" ++ d))
  = txt num ++ txt "-" ++ d.
Proof.
  intros He Hm Nd Dd.
  destruct (month_repairs abbr num m He Hm) as [_ [R2 [Sm [Nn Dn]]]].
  apply height_of_repaired; try assumption.
  rewrite strip_no_space.
  - rewrite (app_assoc m (txt "-") d).
    rewrite (proj2 (repairs_digits d _ Dd (fun e H => H) _)), R2.
    rewrite <- app_assoc. reflexivity.
  - apply Forall_app. split; [exact Sm|].
    constructor; [reflexivity | apply digits_no_space, Dd].
Qed.

Lemma height_feet_inches_kept (feet inches : str) :
  feet <> [] -> digits feet -> inches <> [] -> digits inches ->
  standardize_height_imperial (Str (feet ++ txt "-" ++ inches))
  = feet ++ txt "-" ++ inches.
Proof.
  intros Nf Df Ni Di. unfold standardize_height_imperial. cbn [isna].
  rewrite (height_cleaned_no_letter _ (feet_inches_no_letter _ _ Df Di)).
  rewrite strip_no_space.
  - rewrite (search_feet_inches _ _ Nf Df Ni Di). reflexivity.
  - apply Forall_app. split; [apply digits_no_space, Df|].
    constructor; [reflexivity | apply digits_no_space, Di].
Qed.

(** ** When the height patterns match *)

Lemma has_digit_app (a b : str) :
  has_digit b = true -> has_digit (a ++ b) = true.
Proof.
  intros H. unfold has_digit in *. rewrite existsb_app, H.
  apply orb_true_r.
Qed.

Lemma has_digit_replaced (a repl b : str) :
  has_digit repl = true -> has_digit (a ++ repl ++ b) = true.
Proof.
  intros H. apply has_digit_app. unfold has_digit in *.
  rewrite existsb_app, H. reflexivity.
Qed.

(** A round of the repair loop keeps the digits of the text, puts one in
    when it finds its month, and does nothing otherwise. *)
Lemma height_fix_month_digit (entry : string * string) (t : str) :
  In entry EXCEL_DATE_TO_HEIGHT_CONVERSIONS ->
  has_digit t = true \/ month_artifact_of t entry = true ->
  has_digit (height_fix_month t entry) = true.
Proof.
  intros He H.
  destruct (month_pattern_facts entry He) as [[_ A1] [_ A2]].
  pose proof month_replacements_hold_digits as R.
  rewrite forallb_forall in R. specialize (R entry He).
  apply andb_prop in R as [R1 R2].
  unfold height_fix_month.
  destruct H as [H | H].
  { apply (sub_keeps is_digit _ _ _ A2), (sub_keeps is_digit _ _ _ A1), H. }
  unfold month_artifact_of in H.
  destruct (found (lit_i ("-" ++ fst entry)) t) eqn:F1.
  - apply (sub_keeps is_digit _ _ _ A2).
    destruct (found_sub _ (txt ("-" ++ snd entry)) _ F1) as [a [b ->]].
    apply has_digit_replaced, R1.
  - simpl in H. rewrite (not_found_sub _ _ _ F1).
    destruct (found_sub _ (txt (snd entry ++ "-")) _ H) as [a [b ->]].
    apply has_digit_replaced, R2.
Qed.

Lemma height_fix_month_idle (entry : string * string) (t : str) :
  month_artifact_of t entry = false -> height_fix_month t entry = t.
Proof.
  unfold month_artifact_of, height_fix_month. intros H.
  apply orb_false_elim in H as [F1 F2].
  rewrite (not_found_sub _ _ _ F1). apply not_found_sub, F2.
Qed.

Lemma repairs_digit (l : list (string * string)) :
  (forall e, In e l -> In e EXCEL_DATE_TO_HEIGHT_CONVERSIONS) ->
  forall t,
    has_digit t = true \/ existsb (month_artifact_of t) l = true ->
    has_digit (fold_left height_fix_month l t) = true.
Proof.
  induction l as [|e l IH]; intros Hl t H; cbn [fold_left existsb] in *.
  - destruct H as [H | H]; [exact H | discriminate].
  - assert (Hl' : forall e', In e' l ->
                             In e' EXCEL_DATE_TO_HEIGHT_CONVERSIONS).
    { intros e' He'. apply Hl. right. exact He'. }
    pose proof (Hl e (or_introl eq_refl)) as He.
    destruct H as [H | H].
    { apply (IH Hl'). left. apply height_fix_month_digit; auto. }
    destruct (month_artifact_of t e) eqn:Ae.
    + apply (IH Hl'). left. apply height_fix_month_digit; auto.
    + rewrite (height_fix_month_idle _ _ Ae). apply (IH Hl'). right.
      exact H.
Qed.

Lemma repairs_idle (l : list (string * string)) (t : str) :
  existsb (month_artifact_of t) l = false ->
  fold_left height_fix_month l t = t.
Proof.
  induction l as [|e l IH]; intros H; [reflexivity|].
  cbn [fold_left existsb] in *. apply orb_false_elim in H as [Ae Al].
  rewrite (height_fix_month_idle _ _ Ae). exact (IH Al).
Qed.

Lemma height_patterns_demand_digits :
  demands is_digit RE_HEIGHT_FT_IN && demands is_digit RE_HEIGHT_FT_ONLY
  = true.
Proof. vm_compute. reflexivity. Qed.

(** The height patterns match a text exactly when it holds a digit. *)
Lemma height_patterns_need_digit (t : str) :
  has_digit t = false ->
  search RE_HEIGHT_FT_IN t = None /\ search RE_HEIGHT_FT_ONLY t = None.
Proof.
  intros H. apply existsb_false_Forall in H.
  pose proof height_patterns_demand_digits as D.
  apply andb_prop in D as [D1 D2].
  split; apply (search_demands is_digit); assumption.
Qed.

Lemma height_patterns_digit (t : str) :
  search RE_HEIGHT_FT_IN t <> None \/ search RE_HEIGHT_FT_ONLY t <> None ->
  has_digit t = true.
Proof.
  intros H. destruct (has_digit t) eqn:E; [reflexivity|].
  destruct (height_patterns_need_digit t E) as [E1 E2].
  destruct H as [H | H]; contradiction.
Qed.

Lemma cleaned_has_digit (s : str) :
  has_digit (strip s) = true \/ month_artifact (strip s) = true ->
  has_digit (height_cleaned (Str s)) = true.
Proof.
  intros H. pose proof month_patterns_avoid_digits as D.
  apply andb_prop in D as [D D3]. apply andb_prop in D as [_ D2].
  unfold height_cleaned. cbn [str_of].
  apply (sub_keeps is_digit _ _ _ D3), (sub_keeps is_digit _ _ _ D2).
  apply repairs_digit; [auto | exact H].
Qed.

Lemma height_of_digit (s : str) :
  has_digit (height_cleaned (Str s)) = true ->
  feet_inches (standardize_height_imperial (Str s)).
Proof.
  intros H. unfold standardize_height_imperial. cbn [isna].
  destruct (search RE_HEIGHT_FT_IN (height_cleaned (Str s))) as [g|] eqn:E1.
  { apply search_from_sound in E1 as [prev [s' [rest E1]]].
    destruct (height_ft_in_groups _ _ _ _ E1) as [N1 [D1 [N2 D2]]].
    exists (group 1 g), (group 2 g). auto 10. }
  destruct (search RE_HEIGHT_FT_ONLY (height_cleaned (Str s))) as [g|] eqn:E2.
  { apply search_from_sound in E2 as [prev [s' [rest E2]]].
    destruct (height_ft_only_groups _ _ _ _ E2) as [N1 D1].
    exists (group 1 g), (txt "0").
    repeat split; try assumption; [discriminate | repeat constructor]. }
  apply search_ft_only_none in E2. apply Forall_existsb_false in E2.
  unfold has_digit in H. congruence.
Qed.

Lemma height_with_digit_or_artifact (s : str) :
  search RE_HEIGHT_FT_IN (strip s) <> None
  \/ search RE_HEIGHT_FT_ONLY (strip s) <> None
  \/ month_artifact (strip s) = true ->
  feet_inches (standardize_height_imperial (Str s)).
Proof.
  intros H. apply height_of_digit, cleaned_has_digit.
  destruct H as [H | [H | H]]; [left | left | right; exact H];
    apply height_patterns_digit; auto.
Qed.

Lemma height_fallback (s : str) :
  search RE_HEIGHT_FT_IN (strip s) = None ->
  search RE_HEIGHT_FT_ONLY (strip s) = None ->
  month_artifact (strip s) = false ->
  standardize_height_imperial (Str s)
  = without_blanks
      (sub RE_HEIGHT_MONTH_ABBRS [] (sub RE_HEIGHT_MONTH_WORDS [] (strip s))).
Proof.
  intros _ H2 Ha. apply search_ft_only_none in H2.
  unfold standardize_height_imperial, height_cleaned. cbn [isna str_of].
  rewrite (repairs_idle _ _ Ha).
  set (u := sub RE_HEIGHT_MONTH_ABBRS [] _).
  assert (Hu : has_digit u = false).
  { apply Forall_existsb_false.
    apply sub_Forall; [constructor|]. apply sub_Forall; [constructor|].
    exact H2. }
  destruct (height_patterns_need_digit u Hu) as [-> ->].
  unfold RE_MULTIPLE_SPACES. rewrite sub_Plus, squeeze_empty.
  apply strip_no_space, filter_no_space.
Qed.

(** C8 (amended): the repairs and the feet-inches values.  For every month
    of the conversion table, written in any case, a number, a hyphen and
    the abbreviation become the number, a hyphen and the number of the
    month, and the abbreviation, a hyphen and a number become the number of
    the month, a hyphen and the number, so that "6-Jun" becomes "6-6"; two
    numbers around a hyphen stay as they are, as "6-6" does, and one digit
    alone is that many feet and 0 inches, as "6" becomes "6-0".  The
    formatter is a total function on texts.  When one of the two height
    patterns matches the stripped input, or a month artifact is found in
    it, the result is feet-inches text.  When neither pattern matches the
    stripped input and no month artifact is found in it, the result is the
    stripped input without its month words and month abbreviations (those
    the two month patterns match as whole words) and without any blank. *)
Theorem standardize_height_imperial_spec :
  standardize_height_imperial (Str (txt "6-Jun")) = txt "6-6"
  /\ standardize_height_imperial (Str (txt "6-6")) = txt "6-6"
  /\ standardize_height_imperial (Str (txt "6")) = txt "6-0"
  /\ (forall (abbr num : string) (m d : str),
         In (abbr, num) EXCEL_DATE_TO_HEIGHT_CONVERSIONS ->
         lower m = txt abbr -> d <> [] -> digits d ->
         standardize_height_imperial (Str (d ++ txt "-" ++ m))
         = d ++ txt "-" ++ txt num
         /\ standardize_height_imperial (Str (m ++ txt "-" ++ d))
            = txt num ++ txt "-" ++ d)
  /\ (forall feet inches : str,
         feet <> [] -> digits feet -> inches <> [] -> digits inches ->
         standardize_height_imperial (Str (feet ++ txt "-" ++ inches))
         = feet ++ txt "-" ++ inches)
  /\ (forall c : ascii,
         is_digit c = true ->
         standardize_height_imperial (Str [c]) = [c] ++ txt "-0")
  /\ (forall s : str,
         search RE_HEIGHT_FT_IN (strip s) <> None
         \/ search RE_HEIGHT_FT_ONLY (strip s) <> None
         \/ month_artifact (strip s) = true ->
         feet_inches (standardize_height_imperial (Str s)))
  /\ (forall s : str,
         search RE_HEIGHT_FT_IN (strip s) = None ->
         search RE_HEIGHT_FT_ONLY (strip s) = None ->
         month_artifact (strip s) = false ->
         standardize_height_imperial (Str s)
         = without_blanks
             (sub RE_HEIGHT_MONTH_ABBRS []
                  (sub RE_HEIGHT_MONTH_WORDS [] (strip s)))).
Proof.
  split; [vm_compute; reflexivity|].
  split; [vm_compute; reflexivity|].
  split; [vm_compute; reflexivity|].
  split.
  { intros abbr num m d He Hm Nd Dd. split.
    - apply (height_month_after abbr num); assumption.
    - apply (height_month_before abbr num); assumption. }
  split; [exact height_feet_inches_kept|].
  split.
  { intros c Dc. pose proof (single_digit_height c) as H.
    rewrite Dc in H. apply str_eqb_eq, H. }
  split; [exact height_with_digit_or_artifact | exact height_fallback].
Qed.

Lemma standardize_height_imperial_spec_witness :
  (standardize_height_imperial (Str (txt "6-OCT")) = txt "6-10"
   /\ standardize_height_imperial (Str (txt "Jul-6")) = txt "7-6")
  /\ standardize_height_imperial (Str (txt "10-11")) = txt "10-11"
  /\ standardize_height_imperial (Str (txt "7")) = txt "7-0"
  /\ feet_inches (standardize_height_imperial (Str (txt " about may- ")))
  /\ standardize_height_imperial (Str (txt "Jun")) = txt ""
  /\ standardize_height_imperial (Str (txt "about  six feet  "))
     = txt "aboutsixfeet".
Proof.
  destruct standardize_height_imperial_spec
    as [_ [_ [_ [Repair [Kept [Single [Shape Fallback]]]]]]].
  split.
  { split.
    - apply (proj1 (Repair "oct"%string "10"%string (txt "OCT") (txt "6")
                      (or_intror (or_intror (or_intror (or_intror
                        (or_intror (or_intror (or_intror (or_intror
                          (or_intror (or_introl eq_refl))))))))))
                      eq_refl ltac:(discriminate)
                      ltac:(repeat constructor))).
    - apply (proj2 (Repair "jul"%string "7"%string (txt "Jul") (txt "6")
                      (or_intror (or_intror (or_intror (or_intror
                        (or_intror (or_intror (or_introl eq_refl)))))))
                      eq_refl ltac:(discriminate)
                      ltac:(repeat constructor))). }
  split.
  { apply (Kept (txt "10") (txt "11")); try discriminate;
      repeat constructor. }
  split; [apply (Single "7"%char); reflexivity|].
  split; [apply Shape; right; right; reflexivity|].
  split; [apply (Fallback (txt "Jun")); reflexivity|].
  apply (Fallback (txt "about  six feet  ")); reflexivity.
Defined.

(** ** The shape of birth places *)

Lemma match_at_comma (prev : option ascii) (c : ascii) (t : str) :
  match_at RE_COMMA_SPACE prev (c :: t)
  = if is_char "," c then Some (drop_run is_space t, []) else None.
Proof.
  unfold match_at, RE_COMMA_SPACE. cbn [run].
  destruct (is_char "," c); [|reflexivity].
  apply star_greedy. reflexivity.
Qed.

Lemma sub_from_comma (s : str) :
  forall prev,
    sub_from RE_COMMA_SPACE [","%char; " "%char] 0 prev s
    = comma_spaced false s
    /\ sub_from RE_COMMA_SPACE [","%char; " "%char] (run_length is_space s)
                prev s
       = comma_spaced true s.
Proof.
  induction s as [|c t IH]; intros prev.
  - split; reflexivity.
  - assert (H0 : sub_from RE_COMMA_SPACE [","%char; " "%char] 0 prev (c :: t)
                 = comma_spaced false (c :: t)).
    { rewrite sub_from_cons, match_at_comma. cbn [comma_spaced andb].
      destruct (is_char "," c).
      - pose proof (drop_run_length is_space t) as L.
        replace (length (c :: t) - length (drop_run is_space t))
          with (S (run_length is_space t)) by (simpl; lia).
        cbn [app]. do 2 f_equal. apply IH.
      - f_equal. apply IH. }
    split; [exact H0|].
    cbn [run_length comma_spaced andb]. destruct (is_space c) eqn:Sc.
    + cbn [sub_from]. apply IH.
    + rewrite H0. cbn [comma_spaced andb]. reflexivity.
Qed.

Lemma comma_not_space (c : ascii) :
  implb (is_char "," c) (negb (is_space c)) = true.
Proof. by_chars c. Qed.

Lemma comma_spaced_shape (s : str) :
  single_spaced s = true ->
  (single_spaced (comma_spaced false s) = true
   /\ commas_then one_space (comma_spaced false s) = true)
  /\ (single_spaced (comma_spaced true s) = true
      /\ commas_then one_space (comma_spaced true s) = true
      /\ starts_space (comma_spaced true s) = false).
Proof.
  induction s as [|c t IH]; [repeat split; reflexivity|].
  cbn [single_spaced]. intros H. apply andb_prop in H as [H1 H2].
  destruct (IH H2) as [[F1 F2] [T1 [T2 T3]]].
  assert (Comma : is_char "," c = true ->
            single_spaced (","%char :: " "%char :: comma_spaced true t) = true
            /\ commas_then one_space
                 (","%char :: " "%char :: comma_spaced true t) = true
            /\ starts_space (","%char :: " "%char :: comma_spaced true t)
               = false).
  { intros _. cbn [single_spaced commas_then one_space starts_space].
    rewrite T1, T2, T3. repeat split; reflexivity. }
  assert (Other : is_char "," c = false ->
            single_spaced (c :: comma_spaced false t) = true
            /\ commas_then one_space (c :: comma_spaced false t) = true).
  { intros Nc. cbn [single_spaced commas_then]. rewrite Nc, F1, F2.
    split; [|reflexivity]. rewrite andb_true_r.
    destruct (is_space c) eqn:Sc; [|reflexivity]. cbn [negb orb] in H1 |- *.
    apply andb_prop in H1 as [E Hn]. rewrite E. cbn [andb].
    destruct t as [|d t']; [reflexivity|].
    cbn [starts_space] in Hn. apply negb_true_iff in Hn.
    cbn [comma_spaced andb starts_space].
    pose proof (comma_not_space d) as N.
    destruct (is_char "," d); [reflexivity|].
    cbn [starts_space]. rewrite Hn. reflexivity. }
  cbn [comma_spaced andb]. split.
  - destruct (is_char "," c) eqn:Cc.
    + destruct (Comma eq_refl) as [A [B _]]. auto.
    + apply Other. reflexivity.
  - destruct (is_space c) eqn:Sc; [auto|].
    destruct (is_char "," c) eqn:Cc.
    + apply Comma. reflexivity.
    + destruct (Other eq_refl) as [A B]. repeat split; assumption.
Qed.

Lemma commas_then_lstrip (ok : str -> bool) (s : str) :
  commas_then ok s = true -> commas_then ok (lstrip s) = true.
Proof.
  induction s as [|c t IH]; [auto|]. intros H. simpl.
  destruct (is_space c); [|exact H].
  apply IH. cbn [commas_then] in H. apply andb_prop in H as [_ H]. exact H.
Qed.

Lemma commas_then_rstrip (s : str) :
  commas_then one_space s = true ->
  commas_then end_or_space_and_text (rstrip s) = true.
Proof.
  induction s as [|c t IH]; [auto|].
  cbn [commas_then]. intros H. apply andb_prop in H as [H1 H2].
  specialize (IH H2). rewrite rstrip_cons.
  destruct (rstrip t) as [|y r] eqn:E.
  - destruct (is_space c); [reflexivity|].
    cbn [commas_then end_or_space_and_text].
    destruct (is_char "," c); reflexivity.
  - cbn [commas_then] in IH |- *. rewrite IH, andb_true_r.
    destruct (is_char "," c); [|reflexivity].
    destruct t as [|d t']; [discriminate|].
    cbn [one_space] in H1. apply andb_prop in H1 as [Ed Hn].
    apply Ascii.eqb_eq in Ed. subst d. apply negb_true_iff in Hn.
    rewrite rstrip_cons in E.
    destruct (rstrip t') as [|e r'] eqn:E'; [discriminate|].
    injection E as <- <-. cbn [end_or_space_and_text].
    destruct (rstrip_head _ _ _ E') as [t'' ->].
    cbn [starts_space] in Hn. rewrite Hn. reflexivity.
Qed.

(** X9: in every result of the location formatter a blank is a single
    space with no blank next to it, there is none at the ends, and each
    comma is either the last character or followed by one space and then
    a character that is not a blank. *)
Theorem format_born_location_shape (location : cell) :
  single_spaced (format_born_location location) = true
  /\ starts_space (format_born_location location) = false
  /\ starts_space (rev (format_born_location location)) = false
  /\ commas_then end_or_space_and_text (format_born_location location)
     = true.
Proof.
  unfold format_born_location.
  destruct (isna location); [repeat split; reflexivity|].
  set (x := sub RE_BORN_PREFIX [] (strip (str_of location))).
  unfold RE_MULTIPLE_SPACES. rewrite sub_Plus.
  change (txt " ") with [" "%char].
  change (txt ", ") with [","%char; " "%char].
  unfold sub. rewrite (proj1 (sub_from_comma _ None)).
  destruct (comma_spaced_shape _ (proj1 (squeeze_single_spaced x)))
    as [[S C] _].
  split; [apply strip_single_spaced, S|].
  split; [apply strip_starts|]. split; [apply strip_ends|].
  unfold strip. apply commas_then_rstrip, commas_then_lstrip, C.
Qed.

(** ** The records of a run *)

Lemma length_iterrows (df : DataFrame) : length (iterrows df) = df_len df.
Proof. unfold iterrows. rewrite length_map, length_seq. reflexivity. Qed.

Lemma In_iterrows (df : DataFrame) (r : row) :
  In r (iterrows df) -> exists i, i < df_len df /\ r = df_row df i.
Proof.
  unfold iterrows. intros H. apply in_map_iff in H as [i [<- Hi]].
  apply in_seq in Hi. exists i. split; [lia | reflexivity].
Qed.

Lemma getitem_df_row (col : string) (df : DataFrame) (i : nat) (x : cell) :
  getitem col (df_row df i) = Returned x -> x = cell_at col df i.
Proof.
  intros H. apply getitem_Returned in H. unfold df_row in H.
  rewrite (dict_get_map_values _ _ (fun v => nth i v NA)) in H.
  unfold cell_at. destruct (dict_get str_eqb (txt col) (df_columns df));
    [|discriminate].
  injection H as <-. reflexivity.
Qed.

Lemma cell_at_setitem_other (col col' : string) (v : list cell)
    (df : DataFrame) (i : nat) :
  txt col <> txt col' ->
  cell_at col (df_setitem col' v df) i = cell_at col df i.
Proof.
  intros Hne. unfold cell_at, df_setitem. cbn [df_columns].
  rewrite (dict_get_set_other str_eqb str_eqb_eq) by exact Hne.
  reflexivity.
Qed.

Lemma nth_series_of (n : nat) (values : list cell) (i : nat) :
  i < n -> nth i (series_of n values) NA = nth i values NA.
Proof.
  intros Hi. unfold series_of.
  rewrite (nth_indep _ NA (nth 0 values NA))
    by (rewrite length_map, length_seq; exact Hi).
  rewrite (map_nth (fun i => nth i values NA)), seq_nth by exact Hi.
  reflexivity.
Qed.

Lemma df_getitem_nth (col : string) (df : DataFrame) (vals : list cell)
    (i : nat) :
  df_getitem col df = Returned vals -> i < df_len df ->
  length vals = df_len df /\ nth i vals NA = cell_at col df i.
Proof.
  unfold df_getitem. intros H Hi. apply bind_Returned in H as [v [Hv H]].
  injection H as <-. split.
  - unfold series_of. rewrite length_map, length_seq. reflexivity.
  - rewrite (nth_series_of _ _ _ Hi). unfold cell_at.
    apply getitem_Returned in Hv. rewrite Hv. reflexivity.
Qed.

(** The cells of a column computed from another one. *)
Lemma applied_cell (src dst : string) (f : cell -> str) (df : DataFrame)
    (vals : list cell) (i : nat) :
  df_getitem src df = Returned vals -> i < df_len df ->
  cell_at dst (df_setitem dst (series_apply f vals) df) i
  = Str (f (cell_at src df i)).
Proof.
  intros H Hi. destruct (df_getitem_nth _ _ _ _ H Hi) as [L N].
  unfold cell_at at 1, df_setitem. cbn [df_columns].
  rewrite (dict_get_set_same str_eqb str_eqb_eq).
  unfold series_apply.
  rewrite (nth_indep _ NA (Str (f NA))) by (rewrite length_map; lia).
  rewrite (map_nth (fun c => Str (f c))), N. reflexivity.
Qed.

Lemma df_apply_inv (col : string) (f : cell -> str) (df df' : DataFrame) :
  df_apply col f df = Returned df' ->
  df_len df' = df_len df
  /\ map fst (df_columns df') = map fst (df_columns df)
  /\ forall k, k <> txt col ->
               dict_get str_eqb k (df_columns df')
               = dict_get str_eqb k (df_columns df).
Proof.
  unfold df_apply, df_getitem. intros H.
  apply bind_Returned in H as [vals [Hv H]].
  apply bind_Returned in Hv as [v [Hv _]].
  injection H as <-. unfold df_setitem. cbn [df_len df_columns].
  split; [reflexivity|]. split.
  - rewrite dict_set_keys.
    replace (dict_mem str_eqb (txt col) (df_columns df)) with true;
      [reflexivity|].
    symmetry. apply (dict_mem_get str_eqb). exists v.
    apply getitem_Returned, Hv.
  - intros k Hk. apply (dict_get_set_other str_eqb str_eqb_eq), Hk.
Qed.

Lemma dict_get_filter_keys (V : Type) (f : str -> bool) (k : str)
    (d : dict str V) :
  f k = true ->
  dict_get str_eqb k (filter (fun p => f (fst p)) d) = dict_get str_eqb k d.
Proof.
  intros Hk. unfold dict_get. induction d as [|p d IH]; [reflexivity|].
  simpl. destruct (f (fst p)) eqn:Fp; simpl.
  - destruct (str_eqb (fst p) k); [reflexivity | exact IH].
  - destruct (str_eqb (fst p) k) eqn:E; [|exact IH].
    apply str_eqb_eq in E. congruence.
Qed.

Lemma map_fst_filter_keys (V : Type) (f : str -> bool) (d : dict str V) :
  map fst (filter (fun p => f (fst p)) d) = filter f (map fst d).
Proof.
  induction d as [|p d IH]; [reflexivity|].
  simpl. destruct (f (fst p)); simpl; rewrite IH; reflexivity.
Qed.

Lemma Returned_inj (A : Type) (a b : A) : Returned a = Returned b -> a = b.
Proof. congruence. Qed.

(** The fold that completes a merged record never touches a field that is
    already placed. *)
Lemma fold_add_missing_get (d acc : row) (k : str) (v : cell) :
  dict_get str_eqb k acc = Some v ->
  dict_get str_eqb k (fold_left (add_missing str_eqb) d acc) = Some v.
Proof.
  revert acc. induction d as [|p d IH]; intros acc H; [exact H|].
  simpl. apply IH. unfold add_missing.
  destruct (dict_mem str_eqb (fst p) acc) eqn:M; [exact H|].
  destruct (list_eq_dec ascii_dec k (fst p)) as [E | N].
  - subst k. apply (dict_mem_false_get str_eqb) in M. congruence.
  - rewrite (dict_get_set_other str_eqb str_eqb_eq) by exact N. exact H.
Qed.

Lemma create_entry_inv (br_player_info espn_row_data entry : row) :
  _create_ordered_merged_player_entry br_player_info espn_row_data
  = Returned entry ->
  exists name rk pts,
    getitem "Name" br_player_info = Returned name
    /\ getitem "RK" espn_row_data = Returned rk
    /\ getitem "PTS" espn_row_data = Returned pts.
Proof.
  unfold _create_ordered_merged_player_entry. intros H.
  apply bind_Returned in H as [rk [Hrk H]].
  apply bind_Returned in H as [pts [Hpts H]].
  apply bind_Returned in H as [rank [_ H]].
  apply bind_Returned in H as [name [Hname _]].
  exists name, rk, pts. split; [|split; assumption].
  apply getitem_Returned in Hname. apply getitem_Returned.
  rewrite !(dict_get_set_other str_eqb str_eqb_eq) in Hname
    by discriminate.
  destruct (dict_mem str_eqb (txt "Normalized_Name") br_player_info);
    [|exact Hname].
  rewrite (dict_get_del_other str_eqb str_eqb_eq) in Hname by discriminate.
  exact Hname.
Qed.

(** The first three fields of a merged record. *)
Lemma create_entry_fields (br_player_info espn_row_data entry : row) :
  _create_ordered_merged_player_entry br_player_info espn_row_data
  = Returned entry ->
  getitem "ESPN_Rank" entry = getitem "RK" espn_row_data
  /\ getitem "Name" entry = getitem "Name" br_player_info
  /\ getitem "ESPN_Points" entry = getitem "PTS" espn_row_data.
Proof.
  intros H. destruct (create_entry_inv _ _ _ H) as [name [rk [pts [Hn [Hr Hp]]]]].
  rewrite (create_entry_returns _ _ name rk pts Hn Hr Hp) in H.
  injection H as <-. rewrite Hn, Hr, Hp.
  repeat split; apply getitem_Returned, fold_add_missing_get; reflexivity.
Qed.

(** The columns of a merged record, for a primary record whose keys are
    all different. *)
Lemma create_entry_keys (br_player_info espn_row_data entry : row) :
  NoDup (map fst br_player_info) ->
  _create_ordered_merged_player_entry br_player_info espn_row_data
  = Returned entry ->
  map fst entry
  = [txt "ESPN_Rank"; txt "Name"; txt "ESPN_Points"]
    ++ filter (fun key => negb (not_appended key)) (map fst br_player_info).
Proof.
  intros Hnd H.
  destruct (create_entry_inv _ _ _ H) as [name [rk [pts [Hn [Hr Hp]]]]].
  rewrite (create_entry_returns _ _ name rk pts Hn Hr Hp) in H.
  apply Returned_inj in H. subst entry.
  set (pd2 := dict_set str_eqb (txt "ESPN_Points") pts _).
  assert (N2 : NoDup (map fst pd2)).
  { unfold pd2. do 2 apply (dict_set_NoDup str_eqb str_eqb_eq).
    apply dict_del_NoDup, Hnd. }
  rewrite (fold_add_missing str_eqb str_eqb_eq pd2 N2).
  rewrite map_app. cbn [map fst]. f_equal.
  set (keep := fun key : str =>
                 negb (existsb (str_eqb key)
                               [txt "ESPN_Rank"; txt "Name";
                                txt "ESPN_Points"])).
  transitivity (map fst (filter (fun p : str * cell => keep (fst p)) pd2)).
  { f_equal. apply filter_ext. intros p. unfold keep, dict_mem.
    cbn [existsb fst]. f_equal. rewrite !orb_false_r.
    assert (Sw : forall a b, str_eqb a b = str_eqb b a).
    { intros a b. destruct (str_eqb a b) eqn:E.
      - apply str_eqb_eq in E. subst. symmetry. apply str_eqb_refl.
      - symmetry. apply str_eqb_neq. apply str_eqb_neq in E. congruence. }
    rewrite (Sw (txt "ESPN_Rank")), (Sw (txt "Name")),
      (Sw (txt "ESPN_Points")).
    reflexivity. }
  unfold pd2.
  rewrite !(filter_dict_set str_eqb str_eqb_eq keep) by reflexivity.
  unfold dict_del. rewrite filter_twice.
  rewrite <- (map_fst_filter_keys _ (fun key => negb (not_appended key))).
  f_equal. apply filter_ext. intros p. unfold keep, not_appended.
  cbn [existsb]. rewrite !orb_false_r.
  destruct (str_eqb (fst p) (txt "Normalized_Name"));
    destruct (str_eqb (fst p) (txt "ESPN_Rank"));
    destruct (str_eqb (fst p) (txt "Name"));
    destruct (str_eqb (fst p) (txt "ESPN_Points")); reflexivity.
Qed.

(** What one turn of the loop does to the state, for an index without empty
    records: either a record of the index is merged with the row, or the
    row goes to the unmatched list. *)
Lemma merge_step_effect (br_lookup : dict cell row)
    (prepped : list (cell * list str)) (st st' : merge_state)
    (espn_row : row) :
  (forall k info, dict_get cell_eqb k br_lookup = Some info -> info <> []) ->
  merge_step br_lookup prepped st espn_row = Returned st' ->
  (exists k info entry,
      dict_get cell_eqb k br_lookup = Some info
      /\ _create_ordered_merged_player_entry info espn_row = Returned entry
      /\ merged_data st' = merged_data st ++ [entry]
      /\ unmatched_players st' = unmatched_players st
      /\ exact_matches st' + fuzzy_matches st'
         = S (exact_matches st + fuzzy_matches st))
  \/ (exists c player rk pts,
         getitem "Normalized_ESPN_Name" espn_row = Returned c
         /\ getitem "Player" espn_row = Returned player
         /\ getitem "RK" espn_row = Returned rk
         /\ getitem "PTS" espn_row = Returned pts
         /\ (truthy c = true -> dict_get cell_eqb c br_lookup = None)
         /\ merged_data st' = merged_data st
         /\ unmatched_players st'
            = unmatched_players st
              ++ [[(txt "ESPN_Player", player); (txt "ESPN_Rank", rk);
                   (txt "ESPN_Points", pts); (txt "Normalized_Name", c)]]
         /\ exact_matches st' + fuzzy_matches st'
            = exact_matches st + fuzzy_matches st).
Proof.
  intros Hne H. unfold merge_step in H.
  apply bind_Returned in H as [c [Hc H]].
  apply bind_Returned in H as [[[info exact] fuzzy] [Hf H]].
  assert (F : (exists k i, info = Some i
                           /\ dict_get cell_eqb k br_lookup = Some i
                           /\ exact + fuzzy = 1)
              \/ (info = None /\ exact + fuzzy = 0
                  /\ (truthy c = true
                      -> dict_get cell_eqb c br_lookup = None))).
  { destruct (truthy c && dict_mem cell_eqb c br_lookup) eqn:T.
    - apply Returned_inj in Hf. injection Hf as <- <- <-.
      apply andb_prop in T as [_ M].
      apply (dict_mem_get cell_eqb) in M as [i Hi].
      left. exists c, i. rewrite Hi. auto.
    - assert (U : truthy c = true -> dict_get cell_eqb c br_lookup = None).
      { intros Tc. rewrite Tc in T. simpl in T.
        apply (dict_mem_false_get cell_eqb), T. }
      apply bind_Returned in Hf as [player [_ Hf]].
      destruct (fuzzy_name_match player prepped default_threshold) as [b|];
        [destruct (truthy b);
         [destruct (dict_mem cell_eqb (Str (normalize_name b)) br_lookup)
            eqn:M|]|];
        apply Returned_inj in Hf; injection Hf as <- <- <-; auto.
      apply (dict_mem_get cell_eqb) in M as [i Hi].
      left. exists (Str (normalize_name b)), i. rewrite Hi. auto. }
  cbv beta iota in H.
  destruct F as [[k [i [-> [Hi Hn]]]] | [-> [Hn U]]].
  - pose proof (Hne k i Hi) as Ni.
    destruct i as [|p i]; [congruence|].
    apply bind_Returned in H as [entry [He H]].
    apply Returned_inj in H. subst st'. cbn [merged_data unmatched_players
      exact_matches fuzzy_matches].
    left. exists k, (p :: i), entry. repeat split; auto. lia.
  - apply bind_Returned in H as [player [Hp H]].
    apply bind_Returned in H as [rk [Hr H]].
    apply bind_Returned in H as [pts [Hs H]].
    apply Returned_inj in H. subst st'. cbn [merged_data unmatched_players
      exact_matches fuzzy_matches].
    right. exists c, player, rk, pts. repeat split; auto. lia.
Qed.

Lemma merge_loop_counts (br_lookup : dict cell row)
    (prepped : list (cell * list str)) (espn_rows : list row) :
  (forall k info, dict_get cell_eqb k br_lookup = Some info -> info <> []) ->
  forall st st',
    merge_loop br_lookup prepped espn_rows st = Returned st' ->
    length (merged_data st') + length (unmatched_players st')
    = length (merged_data st) + length (unmatched_players st)
      + length espn_rows
    /\ exact_matches st' + fuzzy_matches st' + length (merged_data st)
       = exact_matches st + fuzzy_matches st + length (merged_data st').
Proof.
  intros Hne. induction espn_rows as [|r rows IH]; intros st st' H.
  - apply Returned_inj in H. subst st'. simpl. lia.
  - cbn [merge_loop] in H. apply bind_Returned in H as [st1 [H1 H]].
    destruct (IH _ _ H) as [L C]. cbn [length].
    destruct (merge_step_effect _ _ _ _ _ Hne H1)
      as [[k [info [entry [_ [_ [M [U E]]]]]]]
         | [c [player [rk [pts [_ [_ [_ [_ [_ [M [U E]]]]]]]]]]]];
      rewrite M, U in *; rewrite ?length_app in *; cbn [length] in *; lia.
Qed.

Lemma merge_loop_records (br_lookup : dict cell row)
    (prepped : list (cell * list str)) (P Q : row -> Prop)
    (espn_rows : list row) :
  (forall k info, dict_get cell_eqb k br_lookup = Some info -> info <> []) ->
  (forall r k info entry,
      In r espn_rows ->
      dict_get cell_eqb k br_lookup = Some info ->
      _create_ordered_merged_player_entry info r = Returned entry ->
      P entry) ->
  (forall r c player rk pts,
      In r espn_rows ->
      getitem "Normalized_ESPN_Name" r = Returned c ->
      getitem "Player" r = Returned player ->
      getitem "RK" r = Returned rk ->
      getitem "PTS" r = Returned pts ->
      (truthy c = true -> dict_get cell_eqb c br_lookup = None) ->
      Q [(txt "ESPN_Player", player); (txt "ESPN_Rank", rk);
         (txt "ESPN_Points", pts); (txt "Normalized_Name", c)]) ->
  forall st st',
    Forall P (merged_data st) -> Forall Q (unmatched_players st) ->
    merge_loop br_lookup prepped espn_rows st = Returned st' ->
    Forall P (merged_data st') /\ Forall Q (unmatched_players st').
Proof.
  intros Hne. induction espn_rows as [|r rows IH];
    intros HP HQ st st' FP FQ H.
  - apply Returned_inj in H. subst st'. auto.
  - cbn [merge_loop] in H. apply bind_Returned in H as [st1 [H1 H]].
    apply (IH (fun r' k info entry Hr => HP r' k info entry (or_intror Hr))
              (fun r' c player rk pts Hr =>
                 HQ r' c player rk pts (or_intror Hr)) st1 st');
      [| |exact H].
    + destruct (merge_step_effect _ _ _ _ _ Hne H1)
        as [[k [info [entry [Hi [He [M [U E]]]]]]]
           | [c [player [rk [pts [_ [_ [_ [_ [_ [M [U E]]]]]]]]]]]];
        rewrite M; [|exact FP].
      apply Forall_app. split; [exact FP|]. constructor; [|constructor].
      exact (HP r k info entry (or_introl eq_refl) Hi He).
    + destruct (merge_step_effect _ _ _ _ _ Hne H1)
        as [[k [info [entry [Hi [He [M [U E]]]]]]]
           | [c [player [rk [pts [Hc [Hp [Hr [Hs [Hu [M [U E]]]]]]]]]]]];
        rewrite U; [exact FQ|].
      apply Forall_app. split; [exact FQ|]. constructor; [|constructor].
      exact (HQ r c player rk pts (or_introl eq_refl) Hc Hp Hr Hs Hu).
Qed.

(** The stages of a run on two loaded frames. *)
Lemma merge_frames_inv (br_df espn_df : DataFrame)
    (merged unmatched : list row) (stats : dict str stat) :
  merge_frames br_df espn_df = Returned (merged, unmatched, stats) ->
  exists df4 names br_lookup prepped players st,
    df_len df4 = df_len br_df
    /\ map fst (df_columns df4) = map fst (df_columns br_df)
    /\ dict_get str_eqb (txt "Name") (df_columns df4)
       = dict_get str_eqb (txt "Name") (df_columns br_df)
    /\ df_getitem "Name" (df_drop columns_to_remove_br df4) = Returned names
    /\ build_br_lookup
         (iterrows (df_setitem "Normalized_Name"
                      (series_apply normalize_name names)
                      (df_drop columns_to_remove_br df4))) []
       = Returned br_lookup
    /\ df_getitem "Player" espn_df = Returned players
    /\ merge_loop br_lookup prepped
         (iterrows (df_setitem "Normalized_ESPN_Name"
                      (series_apply normalize_name players) espn_df))
         initial_state
       = Returned st
    /\ merged = merged_data st /\ unmatched = unmatched_players st
    /\ stats = make_stats (df_len espn_df) (df_len br_df) st.
Proof.
  unfold merge_frames. intros H.
  apply bind_Returned in H as [df1 [A1 H]].
  apply bind_Returned in H as [df2 [A2 H]].
  apply bind_Returned in H as [df3 [A3 H]].
  apply bind_Returned in H as [df4 [A4 H]].
  apply bind_Returned in H as [names [Hn H]].
  apply bind_Returned in H as [lk [Hlk H]].
  apply bind_Returned in H as [names' [Hn' H]].
  apply bind_Returned in H as [players [Hp H]].
  apply bind_Returned in H as [st [Hst H]].
  apply Returned_inj in H.
  destruct (df_apply_inv _ _ _ _ A1) as [L1 [K1 G1]].
  destruct (df_apply_inv _ _ _ _ A2) as [L2 [K2 G2]].
  destruct (df_apply_inv _ _ _ _ A3) as [L3 [K3 G3]].
  destruct (df_apply_inv _ _ _ _ A4) as [L4 [K4 G4]].
  exists df4, names, lk, (prep_fuzzy (unique (dropna names'))), players, st.
  split; [congruence|]. split; [congruence|]. split.
  { rewrite G4, G3, G2, G1 by discriminate. reflexivity. }
  split; [exact Hn|]. split; [exact Hlk|]. split; [exact Hp|].
  split; [exact Hst|].
  cbn [df_setitem df_drop df_len] in H.
  rewrite L4, L3, L2, L1 in H.
  injection H as <- <- <-. auto.
Qed.

Lemma keys_df_row (df : DataFrame) (i : nat) :
  map fst (df_row df i) = map fst (df_columns df).
Proof. unfold df_row. rewrite map_map. reflexivity. Qed.

Lemma find_first_index (A : Type) (f : A -> bool) (l : list A) (x : A) :
  find f l = Some x ->
  exists j, nth_error l j = Some x /\ f x = true
            /\ forall j' y, j' < j -> nth_error l j' = Some y -> f y = false.
Proof.
  induction l as [|a l IH]; [discriminate|]. simpl.
  destruct (f a) eqn:Fa.
  - intros H. injection H as ->. exists 0. repeat split; auto.
    intros j' y Hj. lia.
  - intros H. destruct (IH H) as [j [Hn [Fx Hm]]].
    exists (S j). repeat split; auto.
    intros [|j'] y Hj Hy; simpl in Hy.
    + injection Hy as <-. exact Fa.
    + apply (Hm j' y); [lia | exact Hy].
Qed.

Lemma nth_error_iterrows (df : DataFrame) (j : nat) (r : row) :
  nth_error (iterrows df) j = Some r -> j < df_len df /\ r = df_row df j.
Proof.
  intros H.
  assert (Hj : j < df_len df).
  { rewrite <- length_iterrows. apply nth_error_Some. congruence. }
  split; [exact Hj|].
  unfold iterrows in H. rewrite nth_error_map in H.
  rewrite (nth_error_nth' _ 0) in H by (rewrite length_seq; exact Hj).
  rewrite seq_nth in H by exact Hj. simpl in H. congruence.
Qed.

Lemma nth_error_iterrows_lt (df : DataFrame) (j : nat) :
  j < df_len df -> nth_error (iterrows df) j = Some (df_row df j).
Proof.
  intros Hj. unfold iterrows. rewrite nth_error_map.
  rewrite (nth_error_nth' _ 0) by (rewrite length_seq; exact Hj).
  rewrite seq_nth by exact Hj. reflexivity.
Qed.

(** The primary frame as the index sees it: the cleaned frame with the
    normalized names. *)
Section Indexed.

Variables (br_df df4 : DataFrame) (names : list cell)
  (br_lookup : dict cell row).

Let df5 : DataFrame := df_drop columns_to_remove_br df4.
Let df6 : DataFrame :=
  df_setitem "Normalized_Name" (series_apply normalize_name names) df5.

Hypothesis Hlen : df_len df4 = df_len br_df.
Hypothesis Hkeys : map fst (df_columns df4) = map fst (df_columns br_df).
Hypothesis Hname :
  dict_get str_eqb (txt "Name") (df_columns df4)
  = dict_get str_eqb (txt "Name") (df_columns br_df).
Hypothesis Hnames : df_getitem "Name" df5 = Returned names.
Hypothesis Hlookup : build_br_lookup (iterrows df6) [] = Returned br_lookup.

Lemma indexed_name (j : nat) :
  cell_at "Name" df6 j = cell_at "Name" br_df j.
Proof.
  unfold df6. rewrite cell_at_setitem_other by discriminate.
  unfold cell_at, df5, df_drop. cbn [df_columns].
  rewrite (dict_get_filter_keys _
             (fun key => negb (existsb (fun c => str_eqb (txt c) key)
                                       columns_to_remove_br)))
    by reflexivity.
  rewrite Hname. reflexivity.
Qed.

Lemma indexed_carries (k : cell) (j : nat) :
  j < df_len br_df ->
  carries k (df_row df6 j)
  = cell_eqb (Str (normalize_name (cell_at "Name" br_df j))) k.
Proof.
  intros Hj. unfold carries, df6.
  assert (Hj5 : j < df_len df5) by (unfold df5; simpl; lia).
  rewrite (normalized_name_of_row df5 names j Hnames Hj5).
  destruct (df_getitem_nth _ _ _ _ Hnames Hj5) as [_ ->].
  fold df6. rewrite <- indexed_name. unfold df6.
  rewrite cell_at_setitem_other by discriminate. reflexivity.
Qed.

Lemma indexed_rows_keys : Forall (has_key "Normalized_Name") (iterrows df6).
Proof. apply iterrows_keys, df_setitem_same. Qed.

Lemma indexed_get (k : cell) :
  dict_get cell_eqb k br_lookup
  = if truthy k then find (carries k) (iterrows df6) else None.
Proof.
  destruct (build_br_lookup_get (iterrows df6) indexed_rows_keys [])
    as [lk [Hlk Hget]].
  rewrite Hlookup in Hlk. apply Returned_inj in Hlk. subst lk.
  apply Hget.
Qed.

(** A record of the index is the first primary row with its normalized
    name, and that name is not empty. *)
Lemma indexed_record (k : cell) (info : row) :
  dict_get cell_eqb k br_lookup = Some info ->
  exists j,
    j < df_len br_df /\ info = df_row df6 j
    /\ k = Str (normalize_name (cell_at "Name" br_df j))
    /\ normalize_name (cell_at "Name" br_df j) <> []
    /\ forall j', j' < j ->
                  normalize_name (cell_at "Name" br_df j')
                  <> normalize_name (cell_at "Name" br_df j).
Proof.
  rewrite indexed_get. destruct (truthy k) eqn:Tk; [|discriminate].
  intros H. apply find_first_index in H as [j [Hj [Cj Hmin]]].
  apply nth_error_iterrows in Hj as [Hj ->].
  assert (Hj' : j < df_len br_df) by (unfold df6, df5 in Hj; simpl in Hj; lia).
  rewrite (indexed_carries k j Hj') in Cj. apply cell_eqb_eq in Cj.
  exists j. split; [exact Hj'|]. split; [reflexivity|].
  split; [symmetry; exact Cj|]. split.
  - subst k. simpl in Tk.
    destruct (normalize_name (cell_at "Name" br_df j));
      [discriminate | discriminate].
  - intros j' Hlt E.
    assert (Hlt' : j' < df_len br_df) by lia.
    assert (Hlt6 : j' < df_len df6) by lia.
    pose proof (Hmin j' _ Hlt (nth_error_iterrows_lt df6 j' Hlt6)) as F.
    rewrite (indexed_carries k j' Hlt') in F.
    rewrite E, Cj, cell_eqb_refl in F. discriminate.
Qed.

Lemma indexed_nonempty (k : cell) (info : row) :
  dict_get cell_eqb k br_lookup = Some info -> info <> [].
Proof.
  intros H. destruct (indexed_record k info H) as [j [_ [-> _]]].
  intros E. apply (f_equal (map fst)) in E. rewrite keys_df_row in E.
  unfold df6, df_setitem in E. cbn [df_columns] in E.
  rewrite dict_set_keys in E.
  destruct (dict_mem str_eqb (txt "Normalized_Name") (df_columns df5)) eqn:M.
  - apply (dict_mem_In str_eqb str_eqb_eq) in M. rewrite E in M.
    destruct M.
  - destruct (map fst (df_columns df5)); discriminate.
Qed.

(** No primary row has the normalized name of a key the index lacks. *)
Lemma indexed_absent (key : str) :
  key <> [] -> dict_get cell_eqb (Str key) br_lookup = None ->
  forall j, j < df_len br_df ->
            normalize_name (cell_at "Name" br_df j) <> key.
Proof.
  intros Hne H j Hj E. rewrite indexed_get in H.
  destruct key as [|x key]; [congruence|]. cbn [truthy] in H.
  assert (Hj6 : j < df_len df6) by (unfold df6, df5; simpl; lia).
  pose proof (List.find_none _ _ H (df_row df6 j)
                (nth_error_In _ _ (nth_error_iterrows_lt df6 j Hj6))) as F.
  rewrite (indexed_carries _ j Hj), E, cell_eqb_refl in F. discriminate.
Qed.

Lemma indexed_keys (j : nat) :
  NoDup (map fst (df_columns br_df)) ->
  NoDup (map fst (df_row df6 j))
  /\ [txt "ESPN_Rank"; txt "Name"; txt "ESPN_Points"]
     ++ filter (fun key => negb (not_appended key)) (map fst (df_row df6 j))
     = merged_columns br_df.
Proof.
  intros Hnd. rewrite keys_df_row.
  set (keep := fun key => negb (existsb (fun c => str_eqb (txt c) key)
                                        columns_to_remove_br)).
  assert (K5 : map fst (df_columns df5) = filter keep (map fst (df_columns br_df))).
  { unfold df5, df_drop. cbn [df_columns].
    rewrite <- Hkeys. apply (map_fst_filter_keys _ keep). }
  assert (N5 : NoDup (map fst (df_columns df5))).
  { rewrite K5. apply NoDup_filter, Hnd. }
  split.
  - unfold df6, df_setitem. cbn [df_columns].
    apply (dict_set_NoDup str_eqb str_eqb_eq), N5.
  - unfold merged_columns. f_equal.
    unfold df6, df_setitem. cbn [df_columns].
    rewrite dict_set_keys.
    destruct (dict_mem str_eqb (txt "Normalized_Name") (df_columns df5));
      [|rewrite filter_app; cbn [filter not_appended existsb negb];
        rewrite str_eqb_refl; cbn [orb negb]; rewrite app_nil_r];
      rewrite K5, filter_twice; reflexivity.
Qed.

End Indexed.

Lemma run_counts (br_df espn_df : DataFrame) (merged unmatched : list row)
    (stats : dict str stat) :
  merge_frames br_df espn_df = Returned (merged, unmatched, stats) ->
  length merged + length unmatched = df_len espn_df
  /\ exists st,
       exact_matches st + fuzzy_matches st = length merged
       /\ merged = merged_data st /\ unmatched = unmatched_players st
       /\ stats = make_stats (df_len espn_df) (df_len br_df) st.
Proof.
  intros H.
  destruct (merge_frames_inv _ _ _ _ _ H)
    as [df4 [names [lk [prepped [players [st
         [L4 [K4 [N4 [Hn [Hlk [Hp [Hst [-> [-> ->]]]]]]]]]]]]]]].
  destruct (merge_loop_counts lk prepped _
              (indexed_nonempty br_df df4 names lk L4 N4 Hn Hlk)
              _ _ Hst) as [C1 C2].
  rewrite length_iterrows in C1. cbn in C1, C2.
  split; [lia|]. exists st. repeat split. lia.
Qed.

Lemma run_records (br_df espn_df : DataFrame) (merged unmatched : list row)
    (stats : dict str stat) :
  merge_frames br_df espn_df = Returned (merged, unmatched, stats) ->
  Forall (fun entry =>
            merged_from br_df espn_df entry
            /\ (NoDup (map fst (df_columns br_df)) ->
                map fst entry = merged_columns br_df)) merged
  /\ Forall (unmatched_from br_df espn_df) unmatched.
Proof.
  intros H.
  destruct (merge_frames_inv _ _ _ _ _ H)
    as [df4 [names [lk [prepped [players [st
         [L4 [K4 [N4 [Hn [Hlk [Hp [Hst [-> [-> _]]]]]]]]]]]]]]].
  set (espn1 := df_setitem "Normalized_ESPN_Name"
                           (series_apply normalize_name players) espn_df)
    in Hst.
  refine (merge_loop_records lk prepped _ _ (iterrows espn1)
            (indexed_nonempty br_df df4 names lk L4 N4 Hn Hlk)
            _ _ initial_state st (Forall_nil _) (Forall_nil _) Hst).
  - intros r k info entry Hr Hi He.
    apply In_iterrows in Hr as [i [Hi1 ->]].
    destruct (indexed_record br_df df4 names lk L4 N4 Hn Hlk k info Hi)
      as [j [Hj [-> [_ [Nj Fj]]]]].
    destruct (create_entry_inv _ _ _ He) as [name [rk [pts [Gn [Gr Gp]]]]].
    destruct (create_entry_fields _ _ _ He) as [F1 [F2 F3]].
    split.
    + exists i, j. split; [exact Hi1|]. split; [exact Hj|].
      rewrite F1, F2, F3, Gn, Gr, Gp.
      apply getitem_df_row in Gn, Gr, Gp.
      rewrite (indexed_name br_df df4 names N4) in Gn.
      unfold espn1 in Gr, Gp.
      rewrite cell_at_setitem_other in Gr, Gp by discriminate.
      rewrite Gn, Gr, Gp. auto.
    + intros Hnd.
      destruct (indexed_keys br_df df4 names K4 j Hnd) as [Nd <-].
      apply (create_entry_keys _ _ _ Nd He).
  - intros r c player rk pts Hr Gc Gp Gr Gs Hu.
    apply In_iterrows in Hr as [i [Hi1 ->]].
    apply getitem_df_row in Gc, Gp, Gr, Gs.
    unfold espn1 in Gc, Gp, Gr, Gs.
    rewrite (applied_cell "Player" _ _ _ _ _ Hp Hi1) in Gc.
    rewrite cell_at_setitem_other in Gp, Gr, Gs by discriminate.
    subst c player rk pts.
    exists i. split; [exact Hi1|]. split; [reflexivity|].
    destruct (normalize_name (cell_at "Player" espn_df i)) as [|x key] eqn:E;
      [left; reflexivity | right].
    intros j Hj.
    apply (indexed_absent br_df df4 names lk L4 N4 Hn Hlk (x :: key));
      [discriminate | apply Hu; reflexivity | exact Hj].
Qed.

Lemma run_of_frames (read_csv : str -> option DataFrame)
    (br_csv_path espn_csv_path : str) (br_df espn_df : DataFrame) :
  read_csv br_csv_path = Some br_df ->
  read_csv espn_csv_path = Some espn_df ->
  clean_and_merge_player_data read_csv br_csv_path espn_csv_path
  = merge_frames br_df espn_df.
Proof.
  intros Hbr Hespn. unfold clean_and_merge_player_data.
  rewrite Hbr, Hespn. reflexivity.
Qed.

Lemma sample_columns_NoDup : NoDup (map fst (df_columns sample_br_df)).
Proof. repeat constructor; simpl; intuition discriminate. Qed.

(** X10: in a run on two loaded frames every secondary row ends in
    exactly one of the two lists: the merged and the unmatched records
    together are as many as the secondary rows.  The stats record holds
    the two row counts, the lengths of the two lists and the match
    percentage, and its exact and fuzzy matches add up to the number of
    merged records. *)
Theorem merge_bookkeeping
    (read_csv : str -> option DataFrame) (br_csv_path espn_csv_path : str)
    (br_df espn_df : DataFrame) (merged unmatched : list row)
    (stats : dict str stat) :
  read_csv br_csv_path = Some br_df ->
  read_csv espn_csv_path = Some espn_df ->
  clean_and_merge_player_data read_csv br_csv_path espn_csv_path
  = Returned (merged, unmatched, stats) ->
  length merged + length unmatched = df_len espn_df
  /\ exists exact fuzzy,
       exact + fuzzy = length merged
       /\ stats
          = [(txt "total_espn_players", Count (df_len espn_df));
             (txt "total_br_players", Count (df_len br_df));
             (txt "exact_matches", Count exact);
             (txt "fuzzy_matches", Count fuzzy);
             (txt "total_matches", Count (length merged));
             (txt "unmatched", Count (length unmatched));
             (txt "match_percentage",
              Percent (match_percentage (length merged) (df_len espn_df)))].
Proof.
  intros Hbr Hespn H. rewrite (run_of_frames _ _ _ _ _ Hbr Hespn) in H.
  destruct (run_counts _ _ _ _ _ H) as [L [st [C [-> [-> ->]]]]].
  split; [exact L|].
  exists (exact_matches st), (fuzzy_matches st). split; [exact C|].
  reflexivity.
Qed.

Lemma merge_bookkeeping_witness :
  exists merged unmatched stats,
    clean_and_merge_player_data sample_read_csv (txt "br.csv")
                                (txt "espn.csv")
    = Returned (merged, unmatched, stats)
    /\ length merged + length unmatched = 10
    /\ getitem "total_espn_players" stats = Returned (Count 10).
Proof.
  destruct (merge_frames_returns sample_br_df sample_espn_df)
    as [merged [unmatched [stats E]]]; try reflexivity.
  exists merged, unmatched, stats. split; [exact E|].
  destruct (merge_bookkeeping sample_read_csv (txt "br.csv")
              (txt "espn.csv") sample_br_df sample_espn_df
              merged unmatched stats eq_refl eq_refl E)
    as [L [exact [fuzzy [_ ->]]]].
  split; [exact L | reflexivity].
Defined.

(** X11: when the columns of the primary frame have different names, all
    the merged records of a run have the same fields in the same order:
    the rank, the name and the metric, then the columns of the primary
    frame that are neither one of the five removed columns nor one of
    these three nor the internal normalized name. *)
Theorem merged_records_schema
    (read_csv : str -> option DataFrame) (br_csv_path espn_csv_path : str)
    (br_df espn_df : DataFrame) (merged unmatched : list row)
    (stats : dict str stat) :
  read_csv br_csv_path = Some br_df ->
  read_csv espn_csv_path = Some espn_df ->
  NoDup (map fst (df_columns br_df)) ->
  clean_and_merge_player_data read_csv br_csv_path espn_csv_path
  = Returned (merged, unmatched, stats) ->
  Forall (fun entry => map fst entry = merged_columns br_df) merged.
Proof.
  intros Hbr Hespn Hnd H. rewrite (run_of_frames _ _ _ _ _ Hbr Hespn) in H.
  destruct (run_records _ _ _ _ _ H) as [M _].
  revert M. apply Forall_impl. intros entry [_ K]. exact (K Hnd).
Qed.

Lemma merged_records_schema_witness :
  exists merged unmatched stats,
    clean_and_merge_player_data sample_read_csv (txt "br.csv")
                                (txt "espn.csv")
    = Returned (merged, unmatched, stats)
    /\ Forall (fun entry =>
                 map fst entry
                 = [txt "ESPN_Rank"; txt "Name"; txt "ESPN_Points";
                    txt "Position"; txt "Born_Location"; txt "Born_Date";
                    txt "NBA_Debut"; txt "Height_Imperial"]) merged.
Proof.
  destruct (merge_frames_returns sample_br_df sample_espn_df)
    as [merged [unmatched [stats E]]]; try reflexivity.
  exists merged, unmatched, stats. split; [exact E|].
  exact (merged_records_schema sample_read_csv (txt "br.csv")
           (txt "espn.csv") sample_br_df sample_espn_df
           merged unmatched stats eq_refl eq_refl sample_columns_NoDup E).
Defined.

(** X12: each merged record of a run takes its rank and its metric from
    one secondary row and its name from one primary row; the normalized
    name of that primary row is not empty, and no earlier primary row has
    the same normalized name. *)
Theorem merged_records_origin
    (read_csv : str -> option DataFrame) (br_csv_path espn_csv_path : str)
    (br_df espn_df : DataFrame) (merged unmatched : list row)
    (stats : dict str stat) :
  read_csv br_csv_path = Some br_df ->
  read_csv espn_csv_path = Some espn_df ->
  clean_and_merge_player_data read_csv br_csv_path espn_csv_path
  = Returned (merged, unmatched, stats) ->
  Forall (merged_from br_df espn_df) merged.
Proof.
  intros Hbr Hespn H. rewrite (run_of_frames _ _ _ _ _ Hbr Hespn) in H.
  destruct (run_records _ _ _ _ _ H) as [M _].
  revert M. apply Forall_impl. intros entry [K _]. exact K.
Qed.

Lemma merged_records_origin_witness :
  exists merged unmatched stats,
    clean_and_merge_player_data sample_read_csv (txt "br.csv")
                                (txt "espn.csv")
    = Returned (merged, unmatched, stats)
    /\ Forall (merged_from sample_br_df sample_espn_df) merged.
Proof.
  destruct (merge_frames_returns sample_br_df sample_espn_df)
    as [merged [unmatched [stats E]]]; try reflexivity.
  exists merged, unmatched, stats. split; [exact E|].
  exact (merged_records_origin sample_read_csv (txt "br.csv")
           (txt "espn.csv") sample_br_df sample_espn_df
           merged unmatched stats eq_refl eq_refl E).
Defined.

(** X13: each unmatched record of a run holds the player, the rank and
    the metric of one secondary row and the normalized form of its player
    name; that normalized name is empty or is the normalized name of no
    primary row.  So a secondary row whose non-empty normalized name is
    that of a primary row is never left unmatched. *)
Theorem unmatched_records_origin
    (read_csv : str -> option DataFrame) (br_csv_path espn_csv_path : str)
    (br_df espn_df : DataFrame) (merged unmatched : list row)
    (stats : dict str stat) :
  read_csv br_csv_path = Some br_df ->
  read_csv espn_csv_path = Some espn_df ->
  clean_and_merge_player_data read_csv br_csv_path espn_csv_path
  = Returned (merged, unmatched, stats) ->
  Forall (unmatched_from br_df espn_df) unmatched.
Proof.
  intros Hbr Hespn H. rewrite (run_of_frames _ _ _ _ _ Hbr Hespn) in H.
  exact (proj2 (run_records _ _ _ _ _ H)).
Qed.

Lemma unmatched_records_origin_witness :
  exists merged unmatched stats,
    clean_and_merge_player_data sample_read_csv (txt "br.csv")
                                (txt "espn.csv")
    = Returned (merged, unmatched, stats)
    /\ Forall (unmatched_from sample_br_df sample_espn_df) unmatched.
Proof.
  destruct (merge_frames_returns sample_br_df sample_espn_df)
    as [merged [unmatched [stats E]]]; try reflexivity.
  exists merged, unmatched, stats. split; [exact E|].
  exact (unmatched_records_origin sample_read_csv (txt "br.csv")
           (txt "espn.csv") sample_br_df sample_espn_df
           merged unmatched stats eq_refl eq_refl E).
Defined.

(** ** Missing columns *)

Lemma getitem_missing (V : Type) (key : string) (d : dict str V) :
  dict_mem str_eqb (txt key) d = false ->
  getitem key d = Raised (KeyError (txt key)).
Proof.
  intros H. apply (dict_mem_false_get str_eqb) in H.
  unfold getitem. rewrite H. reflexivity.
Qed.

Lemma df_getitem_missing (col : string) (df : DataFrame) :
  dict_mem str_eqb (txt col) (df_columns df) = false ->
  df_getitem col df = Raised (KeyError (txt col)).
Proof.
  intros H. unfold df_getitem. rewrite (getitem_missing _ _ _ H).
  reflexivity.
Qed.

Lemma df_apply_missing (col : string) (f : cell -> str) (df : DataFrame) :
  dict_mem str_eqb (txt col) (df_columns df) = false ->
  df_apply col f df = Raised (KeyError (txt col)).
Proof.
  intros H. unfold df_apply. rewrite (df_getitem_missing _ _ H).
  reflexivity.
Qed.

Lemma dict_mem_keys (V W : Type) (d : dict str V) (d' : dict str W)
    (k : str) :
  map fst d' = map fst d ->
  dict_mem str_eqb k d' = dict_mem str_eqb k d.
Proof.
  intros E. apply eq_true_iff_eq.
  rewrite !(dict_mem_In str_eqb str_eqb_eq), E. reflexivity.
Qed.

Lemma df_apply_present (col : string) (f : cell -> str) (df : DataFrame) :
  dict_mem str_eqb (txt col) (df_columns df) = true ->
  exists df',
    df_apply col f df = Returned df'
    /\ forall k, dict_mem str_eqb k (df_columns df')
                 = dict_mem str_eqb k (df_columns df).
Proof.
  intros H. destruct (df_apply_returns col f df H) as [df' [E _]].
  exists df'. split; [exact E|]. intros k.
  destruct (df_apply_inv _ _ _ _ E) as [_ [K _]].
  apply dict_mem_keys, K.
Qed.

Lemma dict_mem_row (df : DataFrame) (i : nat) (k : str) :
  dict_mem str_eqb k (df_row df i) = dict_mem str_eqb k (df_columns df).
Proof. apply dict_mem_keys, keys_df_row. Qed.

Lemma dict_mem_set_other (V : Type) (k k' : str) (v : V) (d : dict str V) :
  k <> k' ->
  dict_mem str_eqb k (dict_set str_eqb k' v d) = dict_mem str_eqb k d.
Proof.
  intros Hne. apply eq_true_iff_eq.
  rewrite !(dict_mem_In str_eqb str_eqb_eq), dict_set_keys.
  destruct (dict_mem str_eqb k' d); [reflexivity|].
  rewrite in_app_iff. simpl. split; [|auto].
  intros [H | [E | []]]; [exact H | congruence].
Qed.

(** A row without the rank, or with the rank and without the metric, stops
    the loop with the [KeyError] of that field. *)
Lemma merge_step_missing (br_lookup : dict cell row)
    (prepped : list (cell * list str)) (st : merge_state) (espn_row : row)
    (key : string) :
  has_key "Normalized_ESPN_Name" espn_row -> has_key "Player" espn_row ->
  (key = "RK"%string
   \/ (key = "PTS"%string /\ has_key "RK" espn_row)) ->
  dict_mem str_eqb (txt key) espn_row = false ->
  merge_step br_lookup prepped st espn_row = Raised (KeyError (txt key)).
Proof.
  intros Hn Hp Hkey Hmiss. unfold merge_step.
  destruct (has_key_getitem _ _ Hn) as [c ->]. cbn [bind].
  destruct (has_key_getitem _ _ Hp) as [player Gp].
  assert (R : forall (info : option row) (exact fuzzy : nat),
             match info with
             | Some ((_ :: _) as i) =>
                 ordered_entry <-
                   _create_ordered_merged_player_entry i espn_row ;;
                 Returned {| merged_data := merged_data st ++ [ordered_entry];
                             unmatched_players := unmatched_players st;
                             exact_matches := exact_matches st + exact;
                             fuzzy_matches := fuzzy_matches st + fuzzy |}
             | _ =>
                 player <- getitem "Player" espn_row ;;
                 rk <- getitem "RK" espn_row ;;
                 pts <- getitem "PTS" espn_row ;;
                 Returned {| merged_data := merged_data st;
                             unmatched_players :=
                               unmatched_players st ++
                               [[(txt "ESPN_Player", player);
                                 (txt "ESPN_Rank", rk);
                                 (txt "ESPN_Points", pts);
                                 (txt "Normalized_Name", c)]];
                             exact_matches := exact_matches st + exact;
                             fuzzy_matches := fuzzy_matches st + fuzzy |}
             end = Raised (KeyError (txt key))).
  { intros info exact fuzzy.
    destruct Hkey as [-> | [-> Hr]].
    - pose proof (getitem_missing _ "RK" espn_row Hmiss) as Gr.
      destruct info as [[|p i]|];
        unfold _create_ordered_merged_player_entry;
        rewrite ?Gp, Gr; reflexivity.
    - destruct (has_key_getitem _ _ Hr) as [rk Gr].
      pose proof (getitem_missing _ "PTS" espn_row Hmiss) as Gs.
      destruct info as [[|p i]|];
        unfold _create_ordered_merged_player_entry;
        rewrite ?Gp, Gr, Gs; reflexivity. }
  match goal with
  | |- bind _ ?K = _ => set (k := K)
  end.
  destruct (truthy c && dict_mem cell_eqb c br_lookup).
  - subst k. cbn [bind]. apply (R (dict_get cell_eqb c br_lookup) 1 0).
  - rewrite Gp. cbn [bind].
    destruct (fuzzy_name_match player prepped default_threshold) as [b|];
      [destruct (truthy b);
       [destruct (dict_mem cell_eqb (Str (normalize_name b)) br_lookup)|]|];
      subst k; cbn [bind].
    + apply (R (dict_get cell_eqb (Str (normalize_name b)) br_lookup) 0 1).
    + apply (R None 0 0).
    + apply (R None 0 0).
    + apply (R None 0 0).
Qed.

Lemma iterrows_cons (df : DataFrame) (n : nat) :
  df_len df = S n -> exists rest, iterrows df = df_row df 0 :: rest.
Proof.
  intros H. unfold iterrows. rewrite H. simpl. eauto.
Qed.

(** X14: which [KeyError] a run on two loaded frames raises.  The first
    of Born_Location, Born_Date, NBA_Debut, Height_Imperial and Name that
    the primary frame lacks is reported; then Player for the secondary
    frame.  With these six columns a secondary frame without rows gives
    empty lists, with or without RK and PTS; one with rows raises for RK,
    then for PTS, when the column is not there, and the run returns when
    nothing is missing. *)
Theorem clean_and_merge_key_errors
    (read_csv : str -> option DataFrame) (br_csv_path espn_csv_path : str)
    (br_df espn_df : DataFrame) :
  read_csv br_csv_path = Some br_df ->
  read_csv espn_csv_path = Some espn_df ->
  match first_missing ["Born_Location"; "Born_Date"; "NBA_Debut";
                       "Height_Imperial"; "Name"]%string br_df with
  | Some col =>
      clean_and_merge_player_data read_csv br_csv_path espn_csv_path
      = Raised (KeyError (txt col))
  | None =>
      if negb (dict_mem str_eqb (txt "Player") (df_columns espn_df))
      then clean_and_merge_player_data read_csv br_csv_path espn_csv_path
           = Raised (KeyError (txt "Player"))
      else
        match df_len espn_df with
        | 0 =>
            exists stats,
              clean_and_merge_player_data read_csv br_csv_path espn_csv_path
              = Returned ([], [], stats)
        | S _ =>
            match first_missing ["RK"; "PTS"]%string espn_df with
            | Some col =>
                clean_and_merge_player_data read_csv br_csv_path
                                            espn_csv_path
                = Raised (KeyError (txt col))
            | None =>
                exists merged unmatched stats,
                  clean_and_merge_player_data read_csv br_csv_path
                                              espn_csv_path
                  = Returned (merged, unmatched, stats)
            end
        end
  end.
Proof.
  intros Hbr Hespn. rewrite (run_of_frames _ _ _ _ _ Hbr Hespn).
  unfold first_missing, merge_frames. cbn [find].
  destruct (dict_mem str_eqb (txt "Born_Location") (df_columns br_df)) eqn:B1;
    cbn [negb].
  2:{ rewrite (df_apply_missing _ _ _ B1). reflexivity. }
  destruct (df_apply_present _ format_born_location _ B1) as [df1 [-> M1]].
  cbn [bind].
  destruct (dict_mem str_eqb (txt "Born_Date") (df_columns br_df)) eqn:B2;
    cbn [negb].
  2:{ rewrite df_apply_missing by (rewrite M1; exact B2). reflexivity. }
  destruct (df_apply_present "Born_Date" standardize_date_format df1)
    as [df2 [-> M2]]; [rewrite M1; exact B2|]. cbn [bind].
  destruct (dict_mem str_eqb (txt "NBA_Debut") (df_columns br_df)) eqn:B3;
    cbn [negb].
  2:{ rewrite df_apply_missing by (rewrite M2, M1; exact B3). reflexivity. }
  destruct (df_apply_present "NBA_Debut" standardize_date_format df2)
    as [df3 [-> M3]]; [rewrite M2, M1; exact B3|]. cbn [bind].
  destruct (dict_mem str_eqb (txt "Height_Imperial") (df_columns br_df))
    eqn:B4; cbn [negb].
  2:{ rewrite df_apply_missing by (rewrite M3, M2, M1; exact B4).
      reflexivity. }
  destruct (df_apply_present "Height_Imperial" standardize_height_imperial
                             df3)
    as [df4 [-> M4]]; [rewrite M3, M2, M1; exact B4|]. cbn [bind].
  assert (M5 : dict_mem str_eqb (txt "Name")
                        (df_columns (df_drop columns_to_remove_br df4))
               = dict_mem str_eqb (txt "Name") (df_columns br_df)).
  { rewrite <- M1, <- M2, <- M3, <- M4. apply eq_true_iff_eq.
    rewrite !(dict_mem_In str_eqb str_eqb_eq).
    unfold df_drop. cbn [df_columns].
    rewrite (map_fst_filter_keys _
               (fun key => negb (existsb (fun c => str_eqb (txt c) key)
                                         columns_to_remove_br))).
    rewrite filter_In. split; [intros [H _]; exact H|].
    intros H. split; [exact H | reflexivity]. }
  destruct (dict_mem str_eqb (txt "Name") (df_columns br_df)) eqn:B5;
    cbn [negb].
  2:{ rewrite (df_getitem_missing _ _ M5). reflexivity. }
  destruct (df_getitem_returns "Name" _ M5) as [names ->]. cbn [bind].
  set (df6 := df_setitem "Normalized_Name" _ _).
  assert (K6 : has_column "Normalized_Name" df6) by apply df_setitem_same.
  assert (N6 : has_column "Name" df6) by apply df_setitem_column, M5.
  pose proof (iterrows_keys df6 "Normalized_Name" K6) as RK6.
  pose proof (iterrows_keys df6 "Name" N6) as RN6.
  destruct (build_br_lookup_get (iterrows df6) RK6 []) as [lk [Hlk _]].
  rewrite Hlk. cbn [bind].
  destruct (df_getitem_returns "Name" df6 N6) as [names' ->]. cbn [bind].
  destruct (dict_mem str_eqb (txt "Player") (df_columns espn_df)) eqn:E1;
    cbn [negb].
  2:{ rewrite (df_getitem_missing _ _ E1). reflexivity. }
  destruct (df_getitem_returns "Player" espn_df E1) as [players ->].
  cbn [bind].
  set (espn1 := df_setitem "Normalized_ESPN_Name" _ espn_df).
  assert (F1 : has_column "Normalized_ESPN_Name" espn1)
    by apply df_setitem_same.
  assert (F2 : has_column "Player" espn1) by apply df_setitem_column, E1.
  assert (O : forall k, k <> txt "Normalized_ESPN_Name" ->
                dict_mem str_eqb k (df_columns espn1)
                = dict_mem str_eqb k (df_columns espn_df)).
  { intros k Hk. unfold espn1, df_setitem. cbn [df_columns].
    apply dict_mem_set_other, Hk. }
  destruct (df_len espn_df) as [|n] eqn:L.
  { unfold iterrows. change (df_len espn1) with (df_len espn_df).
    rewrite L. cbn [seq map merge_loop bind]. eexists. reflexivity. }
  assert (Miss : forall key,
             key = "RK"%string
             \/ (key = "PTS"%string
                 /\ dict_mem str_eqb (txt "RK") (df_columns espn_df) = true) ->
             dict_mem str_eqb (txt key) (df_columns espn_df) = false ->
             forall X (k : merge_state -> result X),
               bind (merge_loop lk (prep_fuzzy (unique (dropna names')))
                                (iterrows espn1)
                                {| merged_data := []; unmatched_players := [];
                                   exact_matches := 0; fuzzy_matches := 0 |})
                    k
               = Raised (KeyError (txt key))).
  { intros key Hkey Hm X k.
    destruct (iterrows_cons espn1 n L) as [rest ->]. cbn [merge_loop].
    rewrite (merge_step_missing _ _ _ _ key); [reflexivity | | | |].
    - unfold has_key. rewrite dict_mem_row. exact F1.
    - unfold has_key. rewrite dict_mem_row. exact F2.
    - destruct Hkey as [-> | [-> Hr]]; [left; reflexivity|].
      right. split; [reflexivity|].
      unfold has_key. rewrite dict_mem_row, O by discriminate. exact Hr.
    - rewrite dict_mem_row, O; [exact Hm|].
      destruct Hkey as [-> | [-> _]]; discriminate. }
  destruct (dict_mem str_eqb (txt "RK") (df_columns espn_df)) eqn:E2;
    cbn [negb].
  2:{ apply Miss; [left; reflexivity | exact E2]. }
  destruct (dict_mem str_eqb (txt "PTS") (df_columns espn_df)) eqn:E3;
    cbn [negb].
  2:{ apply Miss; [right; split; reflexivity | exact E3]. }
  assert (F3 : has_column "RK" espn1) by apply df_setitem_column, E2.
  assert (F4 : has_column "PTS" espn1) by apply df_setitem_column, E3.
  destruct (merge_loop_returns lk (prep_fuzzy (unique (dropna names')))
              (iterrows espn1)
              (build_br_lookup_values (has_key "Name") (iterrows df6) lk
                                      RK6 RN6 Hlk)
              (iterrows_keys espn1 _ F1) (iterrows_keys espn1 _ F2)
              (iterrows_keys espn1 _ F3) (iterrows_keys espn1 _ F4)
              {| merged_data := []; unmatched_players := [];
                 exact_matches := 0; fuzzy_matches := 0 |})
    as [st ->].
  cbn [bind]. eauto.
Qed.

Lemma clean_and_merge_key_errors_witness :
  clean_and_merge_player_data
    (fun path => if str_eqb path (txt "br.csv") then Some sample_br_df
                 else Some {| df_len := 1;
                              df_columns := [(txt "Player", [Str (txt "x")]);
                                             (txt "RK", [Int 1])] |})
    (txt "br.csv") (txt "espn.csv")
  = Raised (KeyError (txt "PTS")).
Proof.
  apply (clean_and_merge_key_errors
           (fun path => if str_eqb path (txt "br.csv") then Some sample_br_df
                        else Some {| df_len := 1;
                                     df_columns :=
                                       [(txt "Player", [Str (txt "x")]);
                                        (txt "RK", [Int 1])] |})
           (txt "br.csv") (txt "espn.csv") sample_br_df
           {| df_len := 1;
              df_columns := [(txt "Player", [Str (txt "x")]);
                             (txt "RK", [Int 1])] |});
    reflexivity.
Defined.

(** ** Saving *)

Lemma add_columns_In (record : row) :
  forall columns k,
    In k (add_columns columns record)
    <-> In k columns \/ In k (map fst record).
Proof.
  unfold add_columns. induction record as [|p r IH]; intros columns k.
  - simpl. tauto.
  - cbn [fold_left map]. rewrite IH.
    destruct (existsb (str_eqb (fst p)) columns) eqn:E.
    + apply existsb_exists in E as [x [Hx E]]. apply str_eqb_eq in E.
      subst x. simpl. split; [tauto|]. intros [H | [<- | H]]; auto.
    + rewrite in_app_iff. simpl. tauto.
Qed.

Lemma fold_add_columns_In (records : list row) :
  forall columns k,
    In k (fold_left add_columns records columns)
    <-> In k columns \/ exists r, In r records /\ In k (map fst r).
Proof.
  induction records as [|r rs IH]; intros columns k.
  - simpl. split; [tauto|]. intros [H | [r [[] _]]]. exact H.
  - cbn [fold_left]. rewrite IH, add_columns_In. split.
    + intros [[H | H] | [r' [Hr Hk]]]; auto.
      * right. exists r. split; [left; reflexivity | exact H].
      * right. exists r'. split; [right; exact Hr | exact Hk].
    + intros [H | [r' [[<- | Hr] Hk]]]; auto.
      right. exists r'. auto.
Qed.

Lemma add_columns_known (record : row) (columns : list str) :
  (forall k, In k (map fst record) -> In k columns) ->
  add_columns columns record = columns.
Proof.
  unfold add_columns. revert columns.
  induction record as [|p r IH]; intros columns H; [reflexivity|].
  cbn [fold_left].
  replace (existsb (str_eqb (fst p)) columns) with true.
  - apply IH. intros k Hk. apply H. right. exact Hk.
  - symmetry. apply existsb_exists. exists (fst p).
    split; [apply H; left; reflexivity | apply str_eqb_refl].
Qed.

Lemma add_columns_fresh (record : row) :
  NoDup (map fst record) ->
  forall columns,
    (forall k, In k (map fst record) -> ~ In k columns) ->
    add_columns columns record = columns ++ map fst record.
Proof.
  unfold add_columns. induction record as [|p r IH]; intros Hnd columns H.
  - simpl. symmetry. apply app_nil_r.
  - inversion Hnd as [|? ? Hp Hr]; subst. cbn [fold_left map].
    replace (existsb (str_eqb (fst p)) columns) with false.
    + rewrite (IH Hr).
      * rewrite <- app_assoc. reflexivity.
      * intros k Hk Hin. apply in_app_or in Hin as [Hin | [<- | []]].
        -- apply (H k); [right; exact Hk | exact Hin].
        -- exact (Hp Hk).
    + symmetry. apply not_true_is_false. intros E.
      apply existsb_exists in E as [x [Hx E]]. apply str_eqb_eq in E.
      subst x. apply (H (fst p)); [left; reflexivity | exact Hx].
Qed.

(** Records with the same keys give a frame with these keys as columns. *)
Lemma columns_of_uniform_records (keys : list str) (records : list row) :
  NoDup keys -> records <> [] ->
  Forall (fun record => map fst record = keys) records ->
  fold_left add_columns records [] = keys.
Proof.
  intros Hnd Hne Hall. destruct records as [|r rs]; [congruence|].
  inversion Hall as [|? ? Hr Hrs]; subst. cbn [fold_left].
  rewrite (add_columns_fresh r Hnd []) by (intros k _ []).
  cbn [app]. clear Hne Hall.
  induction rs as [|r' rs IH]; [reflexivity|].
  inversion Hrs as [|? ? Hr' Hrs']; subst. cbn [fold_left].
  rewrite add_columns_known; [exact (IH Hrs')|].
  intros k Hk. rewrite <- Hr'. exact Hk.
Qed.

Lemma dict_mem_columns (f : str -> list cell) (columns : list str)
    (label : str) :
  dict_mem str_eqb label (map (fun col => (col, f col)) columns)
  = existsb (str_eqb label) columns.
Proof.
  unfold dict_mem. induction columns as [|c cs IH]; [reflexivity|].
  simpl. rewrite IH. f_equal.
  destruct (str_eqb c label) eqn:E.
  - apply str_eqb_eq in E. subst. symmetry. apply str_eqb_refl.
  - symmetry. apply str_eqb_neq. apply str_eqb_neq in E. congruence.
Qed.

Lemma dict_get_columns (f : str -> list cell) (columns : list str)
    (label : str) :
  In label columns ->
  dict_get str_eqb label (map (fun col => (col, f col)) columns)
  = Some (f label).
Proof.
  unfold dict_get. induction columns as [|c cs IH]; [intros []|].
  intros H. simpl. destruct (str_eqb c label) eqn:E.
  - apply str_eqb_eq in E. subst. reflexivity.
  - destruct H as [-> | H]; [rewrite str_eqb_refl in E; discriminate|].
    exact (IH H).
Qed.

Lemma existsb_In_str (label : str) (l : list str) :
  existsb (str_eqb label) l = true <-> In label l.
Proof.
  rewrite existsb_exists. split.
  - intros [x [Hx E]]. apply str_eqb_eq in E. subst. exact Hx.
  - intros H. exists label. split; [exact H | apply str_eqb_refl].
Qed.

Lemma column_of_records (records : list row) (label : str) :
  existsb (str_eqb label) (fold_left add_columns records [])
  = existsb (dict_mem str_eqb label) records.
Proof.
  apply eq_true_iff_eq. rewrite existsb_In_str, fold_add_columns_In.
  rewrite existsb_exists. split.
  - intros [[] | [r [Hr Hk]]]. exists r. split; [exact Hr|].
    apply (dict_mem_In str_eqb str_eqb_eq), Hk.
  - intros [r [Hr Hk]]. right. exists r. split; [exact Hr|].
    apply (dict_mem_In str_eqb str_eqb_eq), Hk.
Qed.

Lemma filter_nil_all (A : Type) (f : A -> bool) (l : list A) :
  (forall x, In x l -> f x = false) -> filter f l = [].
Proof.
  induction l as [|x l IH]; intros H; [reflexivity|].
  simpl. rewrite (H x (or_introl eq_refl)). apply IH.
  intros y Hy. apply H. right. exact Hy.
Qed.

(** The labels [save_merged_data] asks for that are not columns are the
    leading fields no record has. *)
Lemma save_missing_labels (records : list row) :
  let df := DataFrame_of_records records in
  filter (fun label => negb (dict_mem str_eqb label (df_columns df)))
         (cols_ordered
          ++ filter (fun col => negb (existsb (str_eqb col) cols_ordered))
                    (map fst (df_columns df)))
  = absent_fields records.
Proof.
  intros df. rewrite filter_app.
  rewrite (filter_nil_all _ _ (filter _ (map fst (df_columns df)))).
  - rewrite app_nil_r. unfold absent_fields. apply filter_ext.
    intros label. unfold df, DataFrame_of_records. cbn [df_columns].
    rewrite dict_mem_columns, column_of_records. reflexivity.
  - intros x Hx. apply filter_In in Hx as [Hx _].
    apply negb_false_iff. apply (dict_mem_In str_eqb str_eqb_eq), Hx.
Qed.

(** X15: for a non-empty list of records, [save_merged_data] raises a
    [KeyError] (it does not return [False]) as soon as one of ESPN_Rank,
    Name and ESPN_Points is a field of no record, with the fields that are
    missing, and writes nothing.  Otherwise it asks for one file, with one
    row per record and these three columns in front of the others, and
    returns whether the file was written. *)
Theorem save_merged_data_leading_fields
    (to_csv : DataFrame -> str -> bool) (records : list row)
    (output_path : str) :
  records <> [] ->
  match absent_fields records with
  | [] =>
      exists df others,
        save_merged_data to_csv records output_path
        = (if to_csv df output_path then [(output_path, df)] else [],
           Done (to_csv df output_path))
        /\ df_len df = length records
        /\ map fst (df_columns df) = cols_ordered ++ others
        /\ forall col, In col others -> ~ In col cols_ordered
  | missing =>
      save_merged_data to_csv records output_path
      = ([], Failed (NotInIndex missing))
  end.
Proof.
  intros Hne. destruct records as [|r rs]; [congruence|].
  unfold save_merged_data, df_select.
  rewrite (save_missing_labels (r :: rs)).
  destruct (absent_fields (r :: rs)) as [|m ms]; [|reflexivity].
  match goal with
  | |- context [to_csv ?d output_path] => exists d
  end.
  eexists. split; [|split; [|split]].
  - destruct (to_csv _ output_path); reflexivity.
  - reflexivity.
  - cbn [df_columns]. rewrite map_map. cbn [fst]. rewrite map_id.
    reflexivity.
  - intros col Hc Hin. apply filter_In in Hc as [_ Hc].
    apply negb_true_iff in Hc.
    apply existsb_In_str in Hin. congruence.
Qed.

Lemma save_merged_data_leading_fields_witness :
  save_merged_data (fun _ _ => true)
                   [[(txt "Name", Str (txt "LeBron James"))]]
                   (txt "out.csv")
  = ([], Failed (NotInIndex [txt "ESPN_Rank"; txt "ESPN_Points"])).
Proof.
  apply (save_merged_data_leading_fields
           (fun _ _ => true) [[(txt "Name", Str (txt "LeBron James"))]]
           (txt "out.csv")).
  discriminate.
Defined.

Lemma filter_all (A : Type) (f : A -> bool) (l : list A) :
  (forall x, In x l -> f x = true) -> filter f l = l.
Proof.
  induction l as [|x l IH]; intros H; [reflexivity|].
  simpl. rewrite (H x (or_introl eq_refl)). f_equal. apply IH.
  intros y Hy. apply H. right. exact Hy.
Qed.

Lemma merged_columns_rest (br_df : DataFrame) (k : str) :
  In k (skipn 3 (merged_columns br_df)) -> not_appended k = false.
Proof.
  unfold merged_columns. cbn [app skipn]. intros Hk.
  apply filter_In in Hk as [_ Hk].
  apply andb_prop in Hk as [_ Hk]. apply negb_true_iff, Hk.
Qed.

Lemma merged_columns_NoDup (br_df : DataFrame) :
  NoDup (map fst (df_columns br_df)) -> NoDup (merged_columns br_df).
Proof.
  intros H. pose proof (merged_columns_rest br_df) as F.
  unfold merged_columns in *. cbn [app skipn] in *.
  constructor.
  { intros [E | [E | Hin]]; try discriminate E.
    apply F in Hin. discriminate Hin. }
  constructor.
  { intros [E | Hin]; try discriminate E.
    apply F in Hin. discriminate Hin. }
  constructor.
  { intros Hin. apply F in Hin. discriminate Hin. }
  apply NoDup_filter, H.
Qed.

Lemma merged_columns_others (br_df : DataFrame) :
  cols_ordered
  ++ filter (fun col => negb (existsb (str_eqb col) cols_ordered))
            (merged_columns br_df)
  = merged_columns br_df.
Proof.
  pose proof (merged_columns_rest br_df) as F.
  unfold merged_columns in *. cbn [app skipn] in *.
  unfold cols_ordered at 1. cbn [app]. do 3 f_equal.
  cbn [filter].
  change (existsb (str_eqb (txt "ESPN_Rank")) cols_ordered) with true.
  change (existsb (str_eqb (txt "Name")) cols_ordered) with true.
  change (existsb (str_eqb (txt "ESPN_Points")) cols_ordered) with true.
  cbn [negb]. apply filter_all.
  intros k Hk. apply F in Hk.
  unfold not_appended in Hk. cbn [existsb] in Hk.
  unfold cols_ordered. cbn [existsb].
  destruct (str_eqb k (txt "Normalized_Name")); [discriminate|].
  cbn [orb] in Hk. rewrite Hk. reflexivity.
Qed.

Lemma map_columns_self (f : str -> list cell) (keys : list str) :
  map (fun label =>
         (label,
          match dict_get str_eqb label (map (fun col => (col, f col)) keys)
          with
          | Some values => values
          | None => []
          end)) keys
  = map (fun col => (col, f col)) keys.
Proof.
  apply map_ext_in. intros label Hl. rewrite dict_get_columns by exact Hl.
  reflexivity.
Qed.

Lemma df_select_all (f : str -> list cell) (keys : list str)
    (df : DataFrame) :
  df_columns df = map (fun col => (col, f col)) keys ->
  df_select keys df = Done df.
Proof.
  destruct df as [n columns]. cbn [df_columns]. intros ->.
  unfold df_select. cbn [df_columns df_len].
  rewrite filter_nil_all.
  - rewrite map_columns_self. reflexivity.
  - intros x Hx. apply negb_false_iff.
    rewrite dict_mem_columns. apply existsb_In_str, Hx.
Qed.

(** Saving records that all have the columns of a run: the frame written
    is the frame of the records, with its columns as they are. *)
Lemma save_uniform_records (to_csv : DataFrame -> str -> bool)
    (br_df : DataFrame) (records : list row) (output_path : str) :
  NoDup (map fst (df_columns br_df)) -> records <> [] ->
  Forall (fun record => map fst record = merged_columns br_df) records ->
  map fst (df_columns (DataFrame_of_records records)) = merged_columns br_df
  /\ save_merged_data to_csv records output_path
     = if to_csv (DataFrame_of_records records) output_path
       then ([(output_path, DataFrame_of_records records)], Done true)
       else ([], Done false).
Proof.
  intros Hnd Hne Hall.
  pose proof (columns_of_uniform_records _ _ (merged_columns_NoDup _ Hnd)
                Hne Hall) as C.
  assert (K : map fst (df_columns (DataFrame_of_records records))
              = merged_columns br_df).
  { unfold DataFrame_of_records. cbn [df_columns].
    rewrite map_map. cbn [fst]. rewrite map_id. exact C. }
  split; [exact K|].
  destruct records as [|r rs]; [congruence|].
  unfold save_merged_data. rewrite K, merged_columns_others.
  rewrite (df_select_all
             (fun col => map (fun record =>
                                match dict_get str_eqb col record with
                                | Some value => value
                                | None => NA
                                end) (r :: rs))
             (merged_columns br_df)).
  - reflexivity.
  - unfold DataFrame_of_records. cbn [df_columns]. rewrite C. reflexivity.
Qed.

(** X16: saving the merged records of a run whose primary frame has
    columns with different names: the frame handed to [to_csv] is the
    frame of the records as it is, one row per record, with the fields of
    the records as columns in their order; the file is recorded and the
    result is [True] when [to_csv] succeeds, and the result is [False]
    otherwise. *)
Theorem save_merged_data_of_run
    (read_csv : str -> option DataFrame) (to_csv : DataFrame -> str -> bool)
    (br_csv_path espn_csv_path output_path : str)
    (br_df espn_df : DataFrame) (merged unmatched : list row)
    (stats : dict str stat) :
  read_csv br_csv_path = Some br_df ->
  read_csv espn_csv_path = Some espn_df ->
  NoDup (map fst (df_columns br_df)) ->
  clean_and_merge_player_data read_csv br_csv_path espn_csv_path
  = Returned (merged, unmatched, stats) ->
  merged <> [] ->
  df_len (DataFrame_of_records merged) = length merged
  /\ map fst (df_columns (DataFrame_of_records merged))
     = merged_columns br_df
  /\ save_merged_data to_csv merged output_path
     = if to_csv (DataFrame_of_records merged) output_path
       then ([(output_path, DataFrame_of_records merged)], Done true)
       else ([], Done false).
Proof.
  intros Hbr Hespn Hnd H Hne. split; [reflexivity|].
  rewrite (run_of_frames _ _ _ _ _ Hbr Hespn) in H.
  destruct (run_records _ _ _ _ _ H) as [M _].
  apply save_uniform_records; [exact Hnd | exact Hne |].
  revert M. apply Forall_impl. intros entry [_ K]. exact (K Hnd).
Qed.

Lemma save_merged_data_of_run_witness :
  exists merged unmatched stats,
    clean_and_merge_player_data sample_read_csv (txt "br.csv")
                                (txt "espn.csv")
    = Returned (merged, unmatched, stats)
    /\ save_merged_data (fun _ _ => true) merged (txt "merged.csv")
       = ([(txt "merged.csv", DataFrame_of_records merged)], Done true)
    /\ map fst (df_columns (DataFrame_of_records merged))
       = [txt "ESPN_Rank"; txt "Name"; txt "ESPN_Points";
          txt "Position"; txt "Born_Location"; txt "Born_Date";
          txt "NBA_Debut"; txt "Height_Imperial"].
Proof.
  destruct (merge_frames_returns sample_br_df sample_espn_df)
    as [merged [unmatched [stats E]]]; try reflexivity.
  exists merged, unmatched, stats. split; [exact E|].
  assert (Hne : merged <> []).
  { pose proof E as E'. vm_compute in E'. injection E' as <- _ _.
    discriminate. }
  destruct (save_merged_data_of_run sample_read_csv (fun _ _ => true)
              (txt "br.csv") (txt "espn.csv") (txt "merged.csv")
              sample_br_df sample_espn_df merged unmatched stats
              eq_refl eq_refl sample_columns_NoDup E Hne) as [_ [K S]].
  split; [exact S | exact K].
Defined.

Lemma Done_inj (A : Type) (a b : A) : Done a = Done b -> a = b.
Proof. congruence. Qed.

Lemma save_merged_data_true (to_csv : DataFrame -> str -> bool)
    (records : list row) (output_path : str)
    (written : list (str * DataFrame)) :
  save_merged_data to_csv records output_path = (written, Done true) ->
  exists df others,
    written = [(output_path, df)] /\ to_csv df output_path = true
    /\ records <> [] /\ df_len df = length records
    /\ map fst (df_columns df) = cols_ordered ++ others.
Proof.
  unfold save_merged_data. destruct records as [|r rs]; [discriminate|].
  destruct (df_select _ _) as [df|e] eqn:S; [|discriminate].
  destruct (to_csv df output_path) eqn:T; [|discriminate].
  intros H. assert (W : written = [(output_path, df)]) by congruence.
  clear H. unfold df_select in S.
  destruct (filter _ (cols_ordered ++ _)); [|discriminate].
  apply Done_inj in S. subst df.
  eexists. eexists. split; [exact W|]. split; [exact T|].
  split; [discriminate|]. split; [reflexivity|].
  cbn [df_columns]. rewrite map_map. cbn [fst]. apply map_id.
Qed.


(** ** The asset and the script *)

Lemma load_failure_returns (read_csv : str -> option DataFrame)
    (br_csv_path espn_csv_path : str) :
  read_csv br_csv_path = None \/ read_csv espn_csv_path = None ->
  clean_and_merge_player_data read_csv br_csv_path espn_csv_path
  = Returned ([], [], []).
Proof.
  intros [H | H]; unfold clean_and_merge_player_data; rewrite H;
    [|destruct (read_csv br_csv_path)]; reflexivity.
Qed.

(** X17: when the output directory can be made and either input fails to
    load, or the run merges nothing, the asset raises
    [Exception("No data was successfully merged")] and writes no file. *)
Theorem cleaned_merged_data_nothing_merged
    (read_csv : str -> option DataFrame) (to_csv : DataFrame -> str -> bool)
    (makedirs : str -> outcome unit) (getsize : str -> outcome Z)
    (add_output_metadata : dict str metadata_value -> outcome unit)
    (config : DataPipelineConfig)
    (basketball_reference_data espn_leaders_data : str) :
  makedirs (output_dir config) = Done tt ->
  read_csv basketball_reference_data = None
  \/ read_csv espn_leaders_data = None
  \/ (exists unmatched stats,
         clean_and_merge_player_data read_csv basketball_reference_data
                                     espn_leaders_data
         = Returned ([], unmatched, stats)) ->
  cleaned_merged_data read_csv to_csv makedirs getsize add_output_metadata
                      config basketball_reference_data espn_leaders_data
  = ([], Failed (Failure (txt "No data was successfully merged"))).
Proof.
  intros Hm H. unfold cleaned_merged_data. rewrite Hm.
  assert (E : exists unmatched stats,
             clean_and_merge_player_data read_csv basketball_reference_data
                                         espn_leaders_data
             = Returned ([], unmatched, stats)).
  { destruct H as [H | [H | H]]; [| |exact H];
      exists [], []; apply load_failure_returns; auto. }
  destruct E as [unmatched [stats ->]]. reflexivity.
Qed.

Lemma cleaned_merged_data_nothing_merged_witness :
  cleaned_merged_data (fun _ => None) (fun _ _ => true)
                      (fun _ => Done tt) (fun _ => Done 0%Z)
                      (fun _ => Done tt)
                      default_config (txt "br.csv") (txt "espn.csv")
  = ([], Failed (Failure (txt "No data was successfully merged"))).
Proof.
  apply cleaned_merged_data_nothing_merged; [reflexivity|].
  left. reflexivity.
Defined.

(** X18: when the asset returns, the path it returns is the output
    directory joined with the merged file name, the run has merged at
    least one record, and exactly one file has been written, at that path:
    a frame with one row per merged record whose first three columns are
    ESPN_Rank, Name and ESPN_Points. *)
Theorem cleaned_merged_data_returns
    (read_csv : str -> option DataFrame) (to_csv : DataFrame -> str -> bool)
    (makedirs : str -> outcome unit) (getsize : str -> outcome Z)
    (add_output_metadata : dict str metadata_value -> outcome unit)
    (config : DataPipelineConfig)
    (basketball_reference_data espn_leaders_data : str)
    (written : list (str * DataFrame)) (path : str) :
  cleaned_merged_data read_csv to_csv makedirs getsize add_output_metadata
                      config basketball_reference_data espn_leaders_data
  = (written, Done path) ->
  path = os_path_join (output_dir config) (merged_output_filename config)
  /\ exists merged unmatched stats df others,
       clean_and_merge_player_data read_csv basketball_reference_data
                                   espn_leaders_data
       = Returned (merged, unmatched, stats)
       /\ merged <> []
       /\ written = [(path, df)] /\ to_csv df path = true
       /\ df_len df = length merged
       /\ map fst (df_columns df) = cols_ordered ++ others.
Proof.
  unfold cleaned_merged_data.
  destruct (makedirs (output_dir config)); [|discriminate].
  destruct (clean_and_merge_player_data read_csv basketball_reference_data
                                        espn_leaders_data)
    as [[[merged unmatched] stats]|e]; [|discriminate].
  destruct merged as [|r rs]; [discriminate|].
  set (output_path := os_path_join _ _).
  destruct (save_merged_data to_csv (r :: rs) output_path)
    as [w success] eqn:S.
  destruct success as [[|]|e]; try discriminate.
  intros H.
  assert (Hw : w = written) by congruence. subst w.
  assert (Hp : path = output_path).
  { injection H as H. revert H.
    repeat match goal with
           | |- context [and_then ?m _] =>
               destruct m; cbn [and_then]; [|discriminate]
           end.
    congruence. }
  subst path. split; [reflexivity|].
  destruct (save_merged_data_true _ _ _ _ S)
    as [df [others [W [T [N [L K]]]]]].
  exists (r :: rs), unmatched, stats, df, others. auto 10.
Qed.

Lemma cleaned_merged_data_returns_witness :
  exists written,
    cleaned_merged_data sample_read_csv (fun _ _ => true)
                        (fun _ => Done tt) (fun _ => Done 0%Z)
                        (fun _ => Done tt)
                        default_config (txt "br.csv") (txt "espn.csv")
    = (written, Done (txt "data_outputs/merged_players_data.csv"))
    /\ exists df, written = [(txt "data_outputs/merged_players_data.csv", df)]
                  /\ df_len df = 7.
Proof.
  eexists. split; [vm_compute; reflexivity|].
  match goal with
  | |- exists df, ?w = _ /\ _ =>
      assert (H : cleaned_merged_data sample_read_csv (fun _ _ => true)
                    (fun _ => Done tt) (fun _ => Done 0%Z)
                    (fun _ => Done tt)
                    default_config (txt "br.csv") (txt "espn.csv")
                  = (w, Done (txt "data_outputs/merged_players_data.csv")))
        by (vm_compute; reflexivity)
  end.
  destruct (cleaned_merged_data_returns _ _ _ _ _ _ _ _ _ _ H)
    as [_ [merged [unmatched [stats [df [others [R [_ [W [_ [L _]]]]]]]]]]].
  exists df. split; [exact W|]. rewrite L.
  vm_compute in R. injection R as <- _ _. reflexivity.
Defined.

(** X19: when either of its two input files fails to load, [main] does
    not return the empty result of the merge: the report of the results
    looks up total_espn_players in the empty stats record and raises
    [KeyError], and nothing is written. *)
Theorem main_load_failure
    (sorted_by : string -> list row -> outcome (list row))
    (read_csv : str -> option DataFrame)
    (to_csv : DataFrame -> str -> bool) :
  read_csv (txt "basketball_reference_players_max100_per_letter.csv") = None
  \/ read_csv (txt "espn_nba_leaders_pts.csv") = None ->
  main sorted_by read_csv to_csv
  = ([], Failed (LookupError (KeyError (txt "total_espn_players")))).
Proof.
  intros H. unfold main. rewrite (load_failure_returns _ _ _ H).
  reflexivity.
Qed.

Lemma main_load_failure_witness :
  main (fun _ records => Done records) (fun _ => None) (fun _ _ => true)
  = ([], Failed (LookupError (KeyError (txt "total_espn_players")))).
Proof. apply main_load_failure. left. reflexivity. Defined.
